(** * The single-page audit endpoint of the Puppeteer audit API

    A shallow embedding of the [POST /audit] handler of the audit service
    (Express + Puppeteer) and of the string, regular-expression and
    collection primitives it relies on, followed by the properties of the
    handler: input validation, URL normalisation, SSL determination, email
    extraction, page-session release and error classification.

    Conventions.
    - A JavaScript string is a [string]; an [ascii] stands for one code unit
      below 256.  Every character class and literal of the handler is ASCII.
    - The browser is an external collaborator.  One run of the handler sees
      it through a [World]: the outcome (value or thrown error) of every
      call the handler makes.  The handler itself is a program in a small
      state-and-exception monad, written statement by statement after the
      source.
    - The [URL] constructor of the runtime is a parameter of the handler.
    - A time value is an integer of milliseconds; the arithmetic that turns
      the load time into seconds with two decimals is binary64 arithmetic,
      written out over the integers. *)

From Stdlib Require Import String Ascii List ZArith Lia Bool Arith.
From Stdlib Require Import Floats Uint63.
Import ListNotations.

Open Scope bool_scope.
Open Scope string_scope.
Open Scope nat_scope.

Set Warnings "-register-all".

(* ================================================================== *)
(** ** String primitives *)

Module Str.

(** [WhiteSpace] and [LineTerminator] code units below 256: TAB, LF, VT,
    FF, CR, SP and NBSP. *)
Definition isWhiteSpace (c : ascii) : bool :=
  let n := nat_of_ascii c in
  ((9 <=? n) && (n <=? 13)) || (n =? 32) || (n =? 160).

Fixpoint trimStart (s : string) : string :=
  match s with
  | EmptyString => EmptyString
  | String c r => if isWhiteSpace c then trimStart r else s
  end.

Fixpoint trimEnd (s : string) : string :=
  match s with
  | EmptyString => EmptyString
  | String c r =>
      match trimEnd r with
      | EmptyString => if isWhiteSpace c then EmptyString else String c EmptyString
      | r' => String c r'
      end
  end.

(** [String.prototype.trim] *)
Definition trim (s : string) : string := trimEnd (trimStart s).

(** [String.prototype.startsWith] (position 0) *)
Definition startsWith (s p : string) : bool := String.prefix p s.

(** [String.prototype.includes] (position 0) *)
Fixpoint includes (s needle : string) : bool :=
  String.prefix needle s
  || match s with
     | EmptyString => false
     | String _ r => includes r needle
     end.

(** Drop the first [n] code units. *)
Fixpoint drop (n : nat) (s : string) : string :=
  match n, s with
  | S k, String _ r => drop k r
  | _, _ => s
  end.

(** Keep the first [n] code units. *)
Fixpoint take (n : nat) (s : string) : string :=
  match n, s with
  | S k, String c r => String c (take k r)
  | _, _ => EmptyString
  end.

Definition isUpper (c : ascii) : bool :=
  let n := nat_of_ascii c in (65 <=? n) && (n <=? 90).
Definition isLower (c : ascii) : bool :=
  let n := nat_of_ascii c in (97 <=? n) && (n <=? 122).
Definition isDigit (c : ascii) : bool :=
  let n := nat_of_ascii c in (48 <=? n) && (n <=? 57).
Definition isAlpha (c : ascii) : bool := isUpper c || isLower c.

(** ASCII upper-casing, the canonicalisation the [i] flag applies to an
    ASCII pattern character (a code unit of 128 or more never
    canonicalises to an ASCII one). *)
Definition toUpper (c : ascii) : ascii :=
  if isLower c then ascii_of_nat (nat_of_ascii c - 32) else c.

Fixpoint all (p : ascii -> bool) (s : string) : bool :=
  match s with
  | EmptyString => true
  | String c r => p c && all p r
  end.

End Str.

(* ================================================================== *)
(** ** The regular-expression fragment of the handler

    Both regular expressions of the handler are sequences of character
    classes under a greedy quantifier, so a pattern is a list of such
    atoms.  Matching is the backtracking matching of the language: an atom
    first takes the longest run it can and gives characters back one at a
    time until the rest of the pattern matches. *)

Module Regex.

Record atom : Type := Atom {
  cls  : ascii -> bool;      (* the character class *)
  rmin : nat;                (* at least this many *)
  rmax : option nat          (* at most this many; [None] is unbounded *)
}.

Definition pattern : Type := list atom.

Definition capped (lim : option nat) (n : nat) : bool :=
  match lim with
  | Some m => m <=? n
  | None => false
  end.

(** Length of the longest run of [a]-characters at the head of [s] that
    the quantifier allows, having already taken [taken]. *)
Fixpoint run (a : atom) (taken : nat) (s : string) : nat :=
  match s with
  | EmptyString => taken
  | String c r =>
      if capped (rmax a) taken then taken
      else if cls a c then run a (S taken) r else taken
  end.

(** Try the continuation [k] after [n], [n-1], ... , [lo] characters. *)
Fixpoint giveBack (k : nat -> option nat) (lo n : nat) : option nat :=
  if n <? lo then None
  else match k n with
       | Some m => Some (n + m)
       | None =>
           match n with
           | O => None
           | S n' => giveBack k lo n'
           end
       end.

(** Match [p] at the head of [s]; the length of the match. *)
Fixpoint matchHere (p : pattern) (s : string) : option nat :=
  match p with
  | [] => Some 0
  | a :: p' =>
      giveBack (fun n => matchHere p' (Str.drop n s)) (rmin a) (run a 0 s)
  end.

(** All matches of a [g]-flagged pattern, left to right, each search
    resuming where the previous match ended (one further after an empty
    match).  [skip] counts the code units still covered by the previous
    match. *)
Fixpoint scan (p : pattern) (s : string) (skip : nat) : list string :=
  match s with
  | EmptyString =>
      match skip, matchHere p s with
      | O, Some _ => [EmptyString]
      | _, _ => []
      end
  | String _ r =>
      match skip with
      | S k => scan p r k
      | O =>
          match matchHere p s with
          | Some n => Str.take n s :: scan p r (n - 1)
          | None => scan p r 0
          end
      end
  end.

(** [s.match(re)] for a [g]-flagged [re]: [null] when nothing matches. *)
Definition matchAll (p : pattern) (s : string) : option (list string) :=
  match scan p s 0 with
  | [] => None
  | ms => Some ms
  end.

(** [s.match(re)] is non-null, for a [re] anchored by [^] and without
    the [g] and [m] flags. *)
Definition matchesAtStart (p : pattern) (s : string) : bool :=
  match matchHere p s with
  | Some _ => true
  | None => false
  end.

(** Atom builders. *)
Definition one (f : ascii -> bool) : atom := Atom f 1 (Some 1).
Definition opt (f : ascii -> bool) : atom := Atom f 0 (Some 1).
Definition plus (f : ascii -> bool) : atom := Atom f 1 None.
Definition atLeast (n : nat) (f : ascii -> bool) : atom := Atom f n None.

Definition chr (c : ascii) : ascii -> bool := fun x => Ascii.eqb x c.
(** a literal under the [i] flag *)
Definition chrI (c : ascii) : ascii -> bool :=
  fun x => Ascii.eqb (Str.toUpper x) (Str.toUpper c).

Definition oneOf (cs : string) : ascii -> bool :=
  fun x => Str.includes cs (String x EmptyString).

End Regex.

(* ================================================================== *)
(** ** Values of the language *)

Module Js.

(** A Number by its exact value: not-a-number, an infinity, or
    [mant * 2 ^ expo]. *)
Inductive number : Type :=
| NaN
| Infinite (negative : bool)
| Finite (mant expo : Z).

(** The values a parsed JSON body can hold, and [undefined] for a
    property that is absent. *)
Inductive value : Type :=
| Undefined
| Null
| Bool (b : bool)
| Number (x : number)
| Str (s : string)
| Array (elems : list value)
| Object (props : list (string * value)).

(** [typeof v] *)
Definition typeof (v : value) : string :=
  match v with
  | Undefined => "undefined"
  | Null => "object"
  | Bool _ => "boolean"
  | Number _ => "number"
  | Str _ => "string"
  | Array _ => "object"
  | Object _ => "object"
  end.

(** [ToBoolean v] *)
Definition truthy (v : value) : bool :=
  match v with
  | Undefined => false
  | Null => false
  | Bool b => b
  | Number NaN => false
  | Number (Infinite _) => true
  | Number (Finite m _) => negb (Z.eqb m 0)
  | Str s => negb (String.eqb s "")
  | Array _ => true
  | Object _ => true
  end.

(** Property read [o.k] on a parsed JSON object: of two members with one
    key the later wins; an absent key reads [undefined]. *)
Definition hasKey (props : list (string * value)) (k : string) : bool :=
  existsb (fun kv => String.eqb (fst kv) k) props.

Fixpoint get (props : list (string * value)) (k : string) : value :=
  match props with
  | [] => Undefined
  | (k', v) :: rest =>
      if String.eqb k' k && negb (hasKey rest k) then v else get rest k
  end.

(** A thrown [Error]: the two properties the handler reads, both strings.
    What a call throws is taken to be such an object; a thrown value of
    another kind is outside the model. *)
Record error : Type := Error { name : string; message : string }.

(** How a call ends. *)
Inductive outcome (A : Type) : Type :=
| Returns (a : A)
| Throws (e : error).
Arguments Returns {A} a.
Arguments Throws {A} e.

(** [ToBoolean] of a variable holding [null] or a string. *)
Definition truthyStr (v : option string) : bool :=
  match v with
  | None => false
  | Some s => negb (String.eqb s "")
  end.

(** [[...new Set(xs)]]: the elements of [xs] in order of first
    insertion. *)
Definition setAdd (set : list string) (x : string) : list string :=
  if existsb (String.eqb x) set then set else set ++ [x].
Definition spreadSet (xs : list string) : list string :=
  fold_left setAdd xs [].

(** [xs.slice(0, n)] *)
Definition slice0 {A : Type} (n : nat) (xs : list A) : list A := firstn n xs.

(** [x || d] for [x] an array or [null] *)
Definition orElse {A : Type} (x : option (list A)) (d : list A) : list A :=
  match x with
  | Some l => l
  | None => d
  end.

End Js.

(* ================================================================== *)
(** ** The arithmetic of [load_time]

    [parseFloat((loadTime / 1000).toFixed(2))], for an integer [loadTime]
    below [2^53] in magnitude (such an integer is a Number, exactly).  A
    positive Number is given by a pair [(m, e)], standing for [m * 2^e]
    with [m] of 53 bits.  The decimal string of [toFixed(2)] is given by
    its count of hundredths, which also stands for the Number that
    [parseFloat] reads back from it. *)

Module Num.
Local Open Scope Z_scope.

(** The integer nearest to [num / den], the even one of two. *)
Definition roundHalfEven (num den : Z) : Z :=
  let q := num / den in
  let r := num mod den in
  if 2 * r <? den then q
  else if den <? 2 * r then q + 1
  else if Z.even q then q else q + 1.

(** [floor (log2 (a / b))], for positive [a] and [b]. *)
Definition quotientExponent (a b : Z) : Z :=
  let d := Z.log2 a - Z.log2 b in
  if b * 2 ^ Z.max d 0 <=? a * 2 ^ Z.max (- d) 0 then d else d - 1.

(** [a / b] in binary64, for positive integers below [2^53]: the quotient
    rounded to a significand of 53 bits (the result is far from the
    subnormal range and from overflow). *)
Definition divide (a b : Z) : Z * Z :=
  let e := quotientExponent a b - 52 in
  (roundHalfEven (a * 2 ^ Z.max (- e) 0) (b * 2 ^ Z.max e 0), e).

(** [x.toFixed(2)] for a positive [x] below [10^21]: the integer [n] with
    [n / 100] nearest to [x], the larger of two. *)
Definition toFixed2 (x : Z * Z) : Z :=
  let (m, e) := x in
  (2 * 100 * m * 2 ^ Z.max e 0 + 2 ^ Z.max (- e) 0) / (2 * 2 ^ Z.max (- e) 0).


(** The same quotient computed by the binary64 division of the proof
    assistant, for comparison. *)
Definition primitiveDivide (a b : Z) : Z * Z :=
  match Prim2SF (PrimFloat.div (PrimFloat.of_uint63 (Uint63.of_Z a))
                               (PrimFloat.of_uint63 (Uint63.of_Z b))) with
  | SpecFloat.S754_finite _ m e => (Zpos m, e)
  | _ => (0, 0)
  end.

(** [m * 2^e] and [m' * 2^e'] are one number. *)
Definition sameValue (x y : Z * Z) : bool :=
  let (m, e) := x in
  let (m', e') := y in
  m * 2 ^ (e - Z.min e e') =? m' * 2 ^ (e' - Z.min e e').

(** Line 155, in hundredths of a second; division and [toFixed] treat the
    sign apart from the magnitude. *)
Definition loadTimeOf (loadTime : Z) : Z :=
  if loadTime =? 0 then 0
  else Z.sgn loadTime * toFixed2 (divide (Z.abs loadTime) 1000).

End Num.

(* ================================================================== *)
(** ** The audit handler *)

Module Audit.
Import Js.

(** *** Pure parts *)

(** [/^https?:\/\//i] *)
Definition schemeRegex : Regex.pattern :=
  [ Regex.one (Regex.chrI "h"); Regex.one (Regex.chrI "t");
    Regex.one (Regex.chrI "t"); Regex.one (Regex.chrI "p");
    Regex.opt (Regex.chrI "s"); Regex.one (Regex.chrI ":");
    Regex.one (Regex.chrI "/"); Regex.one (Regex.chrI "/") ].

(** [[a-zA-Z0-9._%+-]] *)
Definition localClass (c : ascii) : bool :=
  Str.isLower c || Str.isUpper c || Str.isDigit c || Regex.oneOf "._%+-" c.
(** [[a-zA-Z0-9.-]] *)
Definition domainClass (c : ascii) : bool :=
  Str.isLower c || Str.isUpper c || Str.isDigit c || Regex.oneOf ".-" c.
(** [[a-zA-Z]] *)
Definition letterClass (c : ascii) : bool :=
  Str.isLower c || Str.isUpper c.

(** [/[a-zA-Z0-9._%+-]+@[a-zA-Z0-9.-]+\.[a-zA-Z]{2,}/g] *)
Definition emailRegex : Regex.pattern :=
  [ Regex.plus localClass; Regex.one (Regex.chr "@");
    Regex.plus domainClass; Regex.one (Regex.chr ".");
    Regex.atLeast 2 letterClass ].

(** Lines 85-88: trim, then prefix the scheme when the pattern does not
    match. *)
Definition normalizeUrl (url : string) : string :=
  let normalizedUrl := Str.trim url in
  if negb (Regex.matchesAtStart schemeRegex normalizedUrl)
  then ("https://" ++ normalizedUrl)%string
  else normalizedUrl.

(** Line 126 *)
Definition isSSL (normalizedUrl : string) : bool :=
  Str.startsWith normalizedUrl "https://".

(** Line 142 *)
Definition extractEmails (content : string) : list string :=
  slice0 5 (spreadSet (orElse (Regex.matchAll emailRegex content) [])).

(** Lines 174-185 *)
Definition errorMessageOf (error : Js.error) : string :=
  if String.eqb (name error) "TimeoutError" then
    "Page load timed out after 30 seconds"
  else if Str.includes (message error) "net::ERR_NAME_NOT_RESOLVED" then
    "Domain does not exist"
  else if Str.includes (message error) "net::ERR_CONNECTION_REFUSED" then
    "Connection refused by server"
  else if Str.includes (message error) "net::ERR_CERT" then
    "SSL certificate error"
  else if Str.includes (message error) "net::ERR_BLOCKED_BY_CLIENT" then
    "Request blocked by client"
  else "Unknown error during audit".

(** *** The reply *)

(** The [data] member of a successful reply; [load_time] is in
    hundredths of a second. *)
Record AuditData : Type := mkData {
  emails : list string;
  load_time : Z;
  ssl : bool;
  h1_count : nat
}.

Inductive Body : Type :=
| Success (data : AuditData)        (* [{success: true, data}] *)
| Failure (error : string).         (* [{success: false, error}] *)

(** [res.status(status).json(body)] *)
Record Reply : Type := json { status : nat; body : Body }.

(** *** The browser as seen by one run *)

Record SecurityDetails : Type := mkDetails { issuer : string; protocol : string }.

(** The navigation response; [securityDetails()] yields the details,
    [null], or throws. *)
Record HTTPResponse : Type := mkResponse {
  securityDetails : outcome (option SecurityDetails)
}.

Record World : Type := mkWorld {
  w_newPage : outcome unit;                     (* browser.newPage() *)
  w_setUserAgent : outcome unit;
  w_setRequestInterception : outcome unit;
  w_now : nat -> Z;                             (* the n-th Date.now() *)
  w_requestfailed : list string;                (* errorText of each
                                                   'requestfailed' event
                                                   emitted while goto is
                                                   awaited, in order *)
  w_goto : string -> outcome (option HTTPResponse);
  w_content : outcome string;                   (* page.content() *)
  w_h1 : outcome nat;                           (* page.$$eval('h1', ...) *)
  w_close : nat -> outcome unit                 (* the n-th page.close() *)
}.

Inductive Event : Type :=
| EvNewPage
| EvSetUserAgent (ua : string)
| EvSetRequestInterception (on : bool)
| EvGoto (url : string)
| EvSecurityDetails
| EvContent
| EvEvalH1
| EvClose
| EvConsoleError (args : list string).

Definition isClose (e : Event) : bool :=
  match e with EvClose => true | _ => false end.

(** The variables of the handler that outlive a statement, and what the
    run did so far. *)
Record State : Type := mkState {
  page : option unit;            (* [let page;], line 100 *)
  sslError : option string;      (* [let sslError = null;], line 109 *)
  clockReads : nat;
  trace : list Event
}.

Definition initial : State := mkState None None 0 [].

Definition closeCalls (st : State) : nat :=
  List.length (filter isClose (trace st)).

(** *** The monad of the handler: state and exceptions *)

Definition M (A : Type) : Type := State -> outcome A * State.

Definition ret {A : Type} (a : A) : M A := fun st => (Returns a, st).

Definition bind {A B : Type} (m : M A) (k : A -> M B) : M B :=
  fun st =>
    match m st with
    | (Returns a, st') => k a st'
    | (Throws e, st') => (Throws e, st')
    end.

(** [try { m } catch (e) { h e }] *)
Definition tryCatch {A : Type} (m : M A) (h : Js.error -> M A) : M A :=
  fun st =>
    match m st with
    | (Returns a, st') => (Returns a, st')
    | (Throws e, st') => h e st'
    end.

Declare Scope audit_scope.
Delimit Scope audit_scope with audit.
Notation "x <- m ;; k" := (bind m (fun x => k))
  (at level 61, m at next level, right associativity) : audit_scope.
Notation "m ;;; k" := (bind m (fun _ => k))
  (at level 61, right associativity) : audit_scope.
Open Scope audit_scope.

Definition emit (e : Event) : M unit :=
  fun st => (Returns tt,
             mkState (page st) (sslError st) (clockReads st) (trace st ++ [e])).

(** A call on the browser: logged, then it ends as the world says. *)
Definition call {A : Type} (e : Event) (o : outcome A) : M A :=
  fun st => (o, mkState (page st) (sslError st) (clockReads st) (trace st ++ [e])).

Definition setPage : M unit :=
  fun st => (Returns tt,
             mkState (Some tt) (sslError st) (clockReads st) (trace st)).
Definition getPage : M (option unit) := fun st => (Returns (page st), st).

Definition setSslError (v : option string) : M unit :=
  fun st => (Returns tt, mkState (page st) v (clockReads st) (trace st)).
Definition getSslError : M (option string) :=
  fun st => (Returns (sslError st), st).

Fixpoint forEach {A : Type} (f : A -> M unit) (xs : list A) : M unit :=
  match xs with
  | [] => ret tt
  | x :: rest => f x ;;; forEach f rest
  end.

Definition consoleError (args : list string) : M unit :=
  emit (EvConsoleError args).

Definition userAgent : string :=
  "Mozilla/5.0 (Windows NT 10.0; Win64; x64) AppleWebKit/537.36 (KHTML, like Gecko) Chrome/120.0.0.0 Safari/537.36".

(** What reading a property of [null] throws. *)
Definition nullDereference : Js.error :=
  Error "TypeError" "Cannot read properties of null (reading 'securityDetails')".

(** *** The handler, lines 73-193 *)

Section Handler.

(** [new URL(s)] returns ([true]) or throws ([false]). *)
Variable URL : string -> bool.
Variable W : World.

Definition dateNow : M Z :=
  fun st => (Returns (w_now W (clockReads st)),
             mkState (page st) (sslError st) (S (clockReads st)) (trace st)).

Definition closePage : M unit :=
  fun st => call EvClose (w_close W (closeCalls st)) st.

(** The listener of lines 110-114, applied to the error text of one
    failed request. *)
Definition onRequestFailed (errorText : string) : M unit :=
  if Str.includes errorText "SSL" then setSslError (Some errorText)
  else ret tt.

(** [await page.goto(url, ...)]: the listener runs for every request
    that fails meanwhile. *)
Definition goto (url : string) : M (option HTTPResponse) :=
  emit (EvGoto url) ;;;
  forEach onRequestFailed (w_requestfailed W) ;;;
  (fun st => (w_goto W url, st)).

(** [response.securityDetails()] *)
Definition readSecurityDetails (response : option HTTPResponse)
  : M (option SecurityDetails) :=
  match response with
  | None => fun st => (Throws nullDereference, st)
  | Some r => call EvSecurityDetails (securityDetails r)
  end.

Definition isNotNull {A : Type} (x : option A) : bool :=
  match x with Some _ => true | None => false end.

(** Lines 126-137 *)
Definition sslStatusOf (normalizedUrl : string)
           (response : option HTTPResponse) : M bool :=
  let isSSL := isSSL normalizedUrl in
  sslError <- getSslError ;;
  if isSSL && negb (truthyStr sslError) then
    tryCatch
      (securityDetails <- readSecurityDetails response ;;
       ret (isNotNull securityDetails))
      (fun _ => ret true)
  else ret isSSL.

(** Lines 102-159.  The listener registered on line 110 is run by [goto],
    for the requests that fail during the navigation.  The registration
    itself, and line 125, which reads the headers of the response into a
    variable that is not used again, leave no event. *)
Definition tryBlock (normalizedUrl : string) : M Reply :=
  call EvNewPage (w_newPage W) ;;; setPage ;;;
  call (EvSetUserAgent userAgent) (w_setUserAgent W) ;;;
  call (EvSetRequestInterception true) (w_setRequestInterception W) ;;;
  setSslError None ;;;
  start <- dateNow ;;
  response <- goto normalizedUrl ;;
  finish <- dateNow ;;
  let loadTime := (finish - start)%Z in
  sslStatus <- sslStatusOf normalizedUrl response ;;
  content <- call EvContent (w_content W) ;;
  let emails := extractEmails content in
  h1Count <- call EvEvalH1 (w_h1 W) ;;
  closePage ;;;
  ret (json 200 (Success (mkData emails (Num.loadTimeOf loadTime) sslStatus h1Count))).

(** Lines 161-190 *)
Definition catchBlock (normalizedUrl : string) (error : Js.error) : M Reply :=
  consoleError ["Audit failed for"; normalizedUrl; ":"; message error] ;;;
  page <- getPage ;;
  (if isNotNull page then
     tryCatch closePage
       (fun closeError =>
          consoleError ["Failed to close page:"; message closeError])
   else ret tt) ;;;
  ret (json 200 (Failure (errorMessageOf error))).

Definition requiredMessage : string := "URL is required and must be a string".
Definition invalidMessage : string := "Invalid URL format".

(** Lines 73-193; [reqBody] is the parsed JSON object of the request. *)
Definition audit (reqBody : list (string * value)) : M Reply :=
  let url := get reqBody "url" in
  if negb (truthy url) || negb (String.eqb (typeof url) "string") then
    ret (json 400 (Failure requiredMessage))
  else
    match url with
    | Str url =>
        let normalizedUrl := normalizeUrl url in
        if URL normalizedUrl then
          tryCatch (tryBlock normalizedUrl) (catchBlock normalizedUrl)
        else ret (json 400 (Failure invalidMessage))
    | _ => ret (json 400 (Failure requiredMessage))   (* not reached *)
    end.

(** One request served from a fresh state. *)
Definition run (reqBody : list (string * value)) : outcome Reply * State :=
  audit reqBody initial.

End Handler.

(** The state of the latch after a sequence of failed requests. *)
Definition latchAfter (errorTexts : list string) (st : State) : option string :=
  sslError (snd (forEach onRequestFailed errorTexts st)).

End Audit.


(* ================================================================== *)
(** ** A reference instance of the [URL] parameter

    The [URL] constructor belongs to the runtime, not to the repository,
    and the handler above takes it as a parameter.  To run the handler on
    concrete requests this module implements the one rule of the URL
    Standard that those requests exercise: a URL whose scheme is http or
    https and whose host is empty is a failure (host-missing).  The other
    failures of the standard (ports, forbidden host code points, IP
    literals, IDNA) are not implemented: where [hostPresent] answers
    [false] the constructor throws; it answers [true] on the well-formed
    URLs of the sample runs, as the constructor does. *)

Module UrlRef.

Definition isSlash (c : ascii) : bool :=
  Ascii.eqb c "/" || Ascii.eqb c "\".

Definition endsAuthority (c : ascii) : bool :=
  isSlash c || Ascii.eqb c "?" || Ascii.eqb c "#".

Fixpoint skipSlashes (s : string) : string :=
  match s with
  | String c r => if isSlash c then skipSlashes r else s
  | EmptyString => EmptyString
  end.

(** the authority: up to the first of [/ \ ? #] *)
Fixpoint authority (s : string) : string :=
  match s with
  | String c r => if endsAuthority c then EmptyString else String c (authority r)
  | EmptyString => EmptyString
  end.

(** what follows the last [@] (the credentials end there) *)
Fixpoint afterCredentials (s : string) : string :=
  match s with
  | String c r =>
      if Str.includes r "@" then afterCredentials r
      else if Ascii.eqb c "@" then r else s
  | EmptyString => EmptyString
  end.

(** the host: up to the first [:] *)
Fixpoint hostOf (s : string) : string :=
  match s with
  | String c r => if Ascii.eqb c ":" then EmptyString else String c (hostOf r)
  | EmptyString => EmptyString
  end.

Definition hostPresent (s : string) : bool :=
  match Regex.matchHere Audit.schemeRegex s with
  | Some n =>
      negb (String.eqb
              (hostOf (afterCredentials (authority (skipSlashes (Str.drop n s)))))
              "")
  | None => true
  end.

End UrlRef.


(* ================================================================== *)
(** ** Vocabulary of the specification

    Definitions that follow the words of the specification, to be compared
    with the handler. *)

Module Spec.
Import Js Audit.

(** [needle] occurs in [s]. *)
Definition Contains (s needle : string) : Prop :=
  exists before after, s = (before ++ needle ++ after)%string.

(** [s] begins with [p]. *)
Definition BeginsWith (s p : string) : Prop :=
  exists rest, s = (p ++ rest)%string.

Fixpoint upcase (s : string) : string :=
  match s with
  | EmptyString => EmptyString
  | String c r => String (Str.toUpper c) (upcase r)
  end.

(** [s] carries an http:// or https:// scheme, in any letter case. *)
Definition hasScheme (s : string) : bool :=
  String.prefix "HTTP://" (upcase s) || String.prefix "HTTPS://" (upcase s).

Fixpoint lastChar (s : string) : option ascii :=
  match s with
  | EmptyString => None
  | String c EmptyString => Some c
  | String _ r => lastChar r
  end.

Definition firstChar (s : string) : option ascii :=
  match s with
  | EmptyString => None
  | String c _ => Some c
  end.

Definition notSpace (c : option ascii) : Prop :=
  match c with
  | Some c => Str.isWhiteSpace c = false
  | None => True
  end.

(** [t] is [s] without the white space at its two ends, white space being
    what the test of the handler says; [Meaning.TrimOf] below says it by
    code point. *)
Definition Trimmed (s t : string) : Prop :=
  (exists l r, s = (l ++ t ++ r)%string
               /\ Str.all Str.isWhiteSpace l = true
               /\ Str.all Str.isWhiteSpace r = true)
  /\ notSpace (firstChar t) /\ notSpace (lastChar t).

Definition withinMax (lim : option nat) (n : nat) : Prop :=
  match lim with
  | Some m => n <= m
  | None => True
  end.

(** Words that a pattern matches: one block per atom, within the bounds of
    its quantifier. *)
Inductive Matches : Regex.pattern -> string -> Prop :=
| MatchesNil : Matches [] EmptyString
| MatchesCons (a : Regex.atom) (p : Regex.pattern) (w v : string) :
    Str.all (Regex.cls a) w = true ->
    Regex.rmin a <= String.length w ->
    withinMax (Regex.rmax a) (String.length w) ->
    Matches p v ->
    Matches (a :: p) (w ++ v).

(** The matches a global search collects, by the verdicts of the matcher:
    the search position moves through the string; where the pattern
    matches, the match is recorded and the search resumes at its end (one
    further after an empty match); where it does not, the position
    advances by one.  [Meaning.Found] below says it without the matcher. *)
Inductive GlobalMatches (p : Regex.pattern) : string -> list string -> Prop :=
| GlobalEndHit n :
    Regex.matchHere p EmptyString = Some n ->
    GlobalMatches p EmptyString [EmptyString]
| GlobalEndMiss :
    Regex.matchHere p EmptyString = None ->
    GlobalMatches p EmptyString []
| GlobalMiss c r ms :
    Regex.matchHere p (String c r) = None ->
    GlobalMatches p r ms ->
    GlobalMatches p (String c r) ms
| GlobalEmpty c r ms :
    Regex.matchHere p (String c r) = Some 0 ->
    GlobalMatches p r ms ->
    GlobalMatches p (String c r) (EmptyString :: ms)
| GlobalHit c r n ms :
    Regex.matchHere p (String c r) = Some (S n) ->
    GlobalMatches p (Str.drop (S n) (String c r)) ms ->
    GlobalMatches p (String c r) (Str.take (S n) (String c r) :: ms).

(** The shape of an email token: local part, [@], domain, [.], and a
    top-level domain of two letters or more, over the classes of the
    pattern of the handler. *)
Definition EmailShape (e : string) : Prop :=
  exists l d t,
    e = (l ++ "@" ++ d ++ "." ++ t)%string
    /\ Str.all localClass l = true /\ 1 <= String.length l
    /\ Str.all domainClass d = true /\ 1 <= String.length d
    /\ Str.all letterClass t = true /\ 2 <= String.length t.

(** Deduplication that keeps, of equal elements, the first. *)
Fixpoint dedupFirst (xs : list string) : list string :=
  match xs with
  | [] => []
  | x :: rest => x :: remove string_dec x (dedupFirst rest)
  end.

(** [xs] without the elements of [seen]. *)
Definition without (seen xs : list string) : list string :=
  filter (fun y => negb (existsb (String.eqb y) seen)) xs.

Definition isSslText (errorText : string) : bool := Str.includes errorText "SSL".

(** The error text of the first, respectively the last, failure whose
    text mentions SSL. *)
Definition firstSslFailure (errorTexts : list string) : option string :=
  find isSslText errorTexts.
Definition lastSslFailure (errorTexts : list string) : option string :=
  find isSslText (rev errorTexts).

(** The latch after the failures [errorTexts], from the value [init]. *)
Definition latch (errorTexts : list string) (init : option string) : option string :=
  match lastSslFailure errorTexts with
  | Some t => Some t
  | None => init
  end.

(** The events of a run that completes, for a response [response] and a
    latch that reads [latched]. *)
Definition successTrace (normalizedUrl : string) (latched : bool)
           (response : option HTTPResponse) : list Event :=
  [EvNewPage; EvSetUserAgent userAgent; EvSetRequestInterception true;
   EvGoto normalizedUrl]
  ++ (if isSSL normalizedUrl && negb latched && isNotNull response
      then [EvSecurityDetails] else [])
  ++ [EvContent; EvEvalH1; EvClose].

(** The classification of section 7, in its order of precedence. *)
Inductive Classified (e : Js.error) : string -> Prop :=
| ClassTimeout :
    name e = "TimeoutError" ->
    Classified e "Page load timed out after 30 seconds"
| ClassDomain :
    name e <> "TimeoutError" ->
    Contains (message e) "net::ERR_NAME_NOT_RESOLVED" ->
    Classified e "Domain does not exist"
| ClassRefused :
    name e <> "TimeoutError" ->
    ~ Contains (message e) "net::ERR_NAME_NOT_RESOLVED" ->
    Contains (message e) "net::ERR_CONNECTION_REFUSED" ->
    Classified e "Connection refused by server"
| ClassCert :
    name e <> "TimeoutError" ->
    ~ Contains (message e) "net::ERR_NAME_NOT_RESOLVED" ->
    ~ Contains (message e) "net::ERR_CONNECTION_REFUSED" ->
    Contains (message e) "net::ERR_CERT" ->
    Classified e "SSL certificate error"
| ClassBlocked :
    name e <> "TimeoutError" ->
    ~ Contains (message e) "net::ERR_NAME_NOT_RESOLVED" ->
    ~ Contains (message e) "net::ERR_CONNECTION_REFUSED" ->
    ~ Contains (message e) "net::ERR_CERT" ->
    Contains (message e) "net::ERR_BLOCKED_BY_CLIENT" ->
    Classified e "Request blocked by client"
| ClassUnknown :
    name e <> "TimeoutError" ->
    ~ Contains (message e) "net::ERR_NAME_NOT_RESOLVED" ->
    ~ Contains (message e) "net::ERR_CONNECTION_REFUSED" ->
    ~ Contains (message e) "net::ERR_CERT" ->
    ~ Contains (message e) "net::ERR_BLOCKED_BY_CLIENT" ->
    Classified e "Unknown error during audit".

Definition sixMessages : list string :=
  [ "Page load timed out after 30 seconds"; "Domain does not exist";
    "Connection refused by server"; "SSL certificate error";
    "Request blocked by client"; "Unknown error during audit" ].

(** What [response.securityDetails()] does on the navigation response. *)
Definition detailsRead (response : option HTTPResponse)
  : outcome (option SecurityDetails) :=
  match response with
  | Some r => securityDetails r
  | None => Throws nullDereference
  end.

(** The [ssl] field as section 4.2, step 6 words it. *)
Definition sslPolicy (normalizedUrl : string) (latched : bool)
           (details : outcome (option SecurityDetails)) : bool :=
  if negb (String.prefix "https://" normalizedUrl) then false
  else if latched then true
  else match details with
       | Returns (Some _) => true
       | Returns None => false
       | Throws _ => true
       end.

End Spec.

(* ================================================================== *)
(** ** Sample runs *)

Module Examples.
Import Js Audit.

Definition details : SecurityDetails := mkDetails "R3" "TLS 1.3".

(** A browser in which every call returns: the page has the markup
    [content] and two headings, the navigation takes 1234 ms. *)
Definition quietWorld (content : string) : World :=
  mkWorld (Returns tt) (Returns tt) (Returns tt)
          (fun n => (1700000000000 + Z.of_nat n * 1234)%Z)
          []
          (fun _ => Returns (Some (mkResponse (Returns (Some details)))))
          (Returns content) (Returns 2)
          (fun _ => Returns tt).

Definition unresolved : Js.error :=
  Error "Error" "net::ERR_NAME_NOT_RESOLVED at https://nx.example".

(** A browser whose navigation fails: the host does not resolve. *)
Definition unresolvedWorld : World :=
  mkWorld (Returns tt) (Returns tt) (Returns tt)
          (fun n => (1700000000000 + Z.of_nat n * 80)%Z)
          []
          (fun _ => Throws unresolved)
          (Returns "") (Returns 0)
          (fun _ => Returns tt).

Definition targetClosed : Js.error :=
  Error "Error" "Protocol error (Target.closeTarget): Target closed.".

(** A browser in which everything returns but the first [page.close()],
    which throws. *)
Definition closeFailsWorld : World :=
  mkWorld (Returns tt) (Returns tt) (Returns tt)
          (fun n => (1700000000000 + Z.of_nat n * 1234)%Z)
          []
          (fun _ => Returns (Some (mkResponse (Returns (Some details)))))
          (Returns "<h1>Contact</h1> info@example.com") (Returns 1)
          (fun n => match n with O => Throws targetClosed | S _ => Returns tt end).


(** Two failed sub-requests, both with an SSL error text. *)
Definition twoSslFailures : list string :=
  ["net::ERR_SSL_PROTOCOL_ERROR"; "net::ERR_SSL_VERSION_OR_CIPHER_MISMATCH"].

Definition sevenEmails : string :=
  "a1@x.io a2@x.io a3@x.io a1@x.io a4@x.io a5@x.io a6@x.io a7@x.io".

End Examples.

(* ================================================================== *)
(** ** Vocabulary for the order of the recorded operations and for the tokens *)

Module Order.
Import Js Audit.

Definition isConsole (e : Event) : bool :=
  match e with EvConsoleError _ => true | _ => false end.

(** The operations on the browser that a trace records, the console left
    out. *)
Definition browserEvents (tr : list Event) : list Event :=
  filter (fun e => negb (isConsole e)) tr.

(** The recorded operations of a run that completes, in their order;
    [details] tells whether the security details are read.  The trace
    records the operations of the browser that the handler awaits and the
    read of the security details; it does not record the registration of
    the listener (line 110) nor the read of the headers (line 125). *)
Definition fullOrder (normalizedUrl : string) (details : bool) : list Event :=
  [EvNewPage; EvSetUserAgent userAgent; EvSetRequestInterception true;
   EvGoto normalizedUrl]
  ++ (if details then [EvSecurityDetails] else [])
  ++ [EvContent; EvEvalH1; EvClose].

(** The line the [catch] block logs first. *)
Definition auditFailedLog (normalizedUrl : string) (e : Js.error) : Event :=
  EvConsoleError ["Audit failed for"; normalizedUrl; ":"; message e].

(** What the [catch] block adds to the trace: its log line, the close of
    the page when there is one, and the log line of a close that throws. *)
Definition catchTrace (W : World) (normalizedUrl : string) (e : Js.error)
           (st : State) : list Event :=
  auditFailedLog normalizedUrl e
  :: match page st with
     | Some _ =>
         EvClose
         :: match w_close W (closeCalls st) with
            | Returns _ => []
            | Throws closeError =>
                [EvConsoleError ["Failed to close page:"; message closeError]]
            end
     | None => []
     end.

(** The same browser with other failed sub-requests. *)
Definition withFailures (W : World) (errorTexts : list string) : World :=
  mkWorld (w_newPage W) (w_setUserAgent W) (w_setRequestInterception W)
          (w_now W) errorTexts (w_goto W) (w_content W) (w_h1 W) (w_close W).

Definition isGoto (e : Event) : bool :=
  match e with EvGoto _ => true | _ => false end.

Fixpoint countChar (c : ascii) (s : string) : nat :=
  match s with
  | EmptyString => 0
  | String d r => (if Ascii.eqb d c then 1 else 0) + countChar c r
  end.

(** The URL the handler navigates to, for a request body. *)
Definition targetOf (reqBody : list (string * value)) : string :=
  match get reqBody "url" with
  | Str url => normalizeUrl url
  | _ => EmptyString
  end.

End Order.

(* ================================================================== *)
(** ** The application: middleware and routes, lines 7-21 and 67-219

    The handlers are those of the source, in the order in which the source
    registers them.  What belongs to the framework and to the middleware
    packages is a parameter: how a route path is compared with the path of
    a request ([pathIs] for [app.get], [app.post] and [app.all],
    [pathUnder] for [app.use]), what [helmet], [cors] and the rate limiter
    do with a request (answer it, pass it on, or fail), what [express.json()]
    makes of its body ([parsedBody], a field of the request: the object it
    leaves in [req.body], the empty one when there was nothing to parse,
    or the error it passes on) and what
    happens to a handler whose promise is rejected.  [dispatch] is the
    router of the framework: the layers are tried in order; a layer that
    applies answers, passes the request on, passes an error on (only
    error handlers apply from then on) or does neither. *)

Module App.
Import Js Audit.

Inductive Payload : Type :=
| AuditBody (b : Body)                       (* [{success, ...}] *)
| Health (status service : string)           (* [{status, service}] *)
| ErrorOnly (error : string).                (* [{error}] *)

(** [res.status(code).json(payload)] *)
Record Response : Type := send { code : nat; payload : Payload }.

Record Request : Type := mkRequest {
  method : string;                                   (* [req.method] *)
  path : string;                                     (* [req.path] *)
  parsedBody : outcome (list (string * value))       (* [express.json()] *)
}.

Inductive Step : Type :=
| Respond (r : Response)
| Next                                (* [next()] *)
| NextError (e : Js.error)            (* [next(err)] *)
| Silent.                             (* neither answers nor passes on *)

(** What is seen of a request being served: the events of the audit
    handler, and the line the error handler logs. *)
Inductive AppEvent : Type :=
| FromAudit (e : Event)
| UnhandledError (e : Js.error).      (* [console.error('Unhandled error:', error)] *)

Definition Handler : Type := Request -> Step * list AppEvent.

(** What a middleware of a package does with a request. *)
Inductive Verdict : Type :=
| Answers (r : Response)
| Passes                              (* [next()] *)
| Fails (e : Js.error).               (* [next(err)] *)

Inductive Verb : Type := GET | POST | ALL.

Inductive Layer : Type :=
| UseAll (h : Handler)                                  (* [app.use(h)] *)
| Use (mount : string) (h : Handler)                    (* [app.use(mount, h)] *)
| Route (verb : Verb) (route : string) (h : Handler)    (* [app.get(route, h)], ... *)
| OnError (h : Js.error -> Handler).                    (* [app.use((error, req, res, next) => ...)] *)

(** A [get] route also serves HEAD. *)
Definition verbMatches (v : Verb) (method : string) : bool :=
  match v with
  | GET => String.eqb method "GET" || String.eqb method "HEAD"
  | POST => String.eqb method "POST"
  | ALL => true
  end.

Inductive Outcome : Type :=
| Answered (r : Response)
| Pending                                  (* the request is left open *)
| Unhandled (err : option Js.error).       (* no layer took it *)

Section Application.

Variable pathIs : string -> string -> bool.
Variable pathUnder : string -> string -> bool.
Variables helmet cors limiter : Request -> Verdict.
Variable onRejection : Js.error -> Step.
Variable URL : string -> bool.
Variable W : World.

Definition applies (l : Layer) (req : Request) (err : option Js.error)
  : option (Step * list AppEvent) :=
  match l, err with
  | UseAll h, None => Some (h req)
  | Use mount h, None =>
      if pathUnder mount (path req) then Some (h req) else None
  | Route v route h, None =>
      if verbMatches v (method req) && pathIs route (path req)
      then Some (h req) else None
  | OnError h, Some e => Some (h e req)
  | _, _ => None
  end.

Fixpoint dispatch (layers : list Layer) (req : Request) (err : option Js.error)
  : Outcome * list AppEvent :=
  match layers with
  | [] => (Unhandled err, [])
  | l :: rest =>
      match applies l req err with
      | None => dispatch rest req err
      | Some (Respond r, evs) => (Answered r, evs)
      | Some (Next, evs) =>
          let (o, evs') := dispatch rest req err in (o, (evs ++ evs')%list)
      | Some (NextError e, evs) =>
          let (o, evs') := dispatch rest req (Some e) in (o, (evs ++ evs')%list)
      | Some (Silent, evs) => (Pending, evs)
      end
  end.

(** A middleware of a package, as a handler. *)
Definition external (mw : Request -> Verdict) : Handler :=
  fun req =>
    match mw req with
    | Answers r => (Respond r, [])
    | Passes => (Next, [])
    | Fails e => (NextError e, [])
    end.

(** Lines 68-70 *)
Definition health : Handler :=
  fun _ => (Respond (send 200 (Health "healthy" "puppeteer-audit-api")), []).

(** Line 73: [express.json()], then the handler of the audit. *)
Definition auditRoute : Handler :=
  fun req =>
    match parsedBody req with
    | Throws e => (NextError e, [])
    | Returns reqBody =>
        match run URL W reqBody with
        | (Returns reply, st) =>
            (Respond (send (status reply) (AuditBody (body reply))),
             map FromAudit (trace st))
        | (Throws e, st) => (onRejection e, map FromAudit (trace st))
        end
    end.

(** Lines 196-203 *)
Definition methodNotAllowed : Handler :=
  fun req =>
    if negb (String.eqb (method req) "POST") then
      (Respond (send 405 (AuditBody (Failure "Method not allowed. Use POST."))), [])
    else (Silent, []).

(** Lines 206-210 *)
Definition notFound : Handler :=
  fun _ => (Respond (send 404 (ErrorOnly "Endpoint not found")), []).

(** Lines 213-219 *)
Definition errorHandler (error : Js.error) : Handler :=
  fun _ => (Respond (send 500 (AuditBody (Failure "Internal server error"))),
            [UnhandledError error]).

(** The stack, in the order of registration. *)
Definition app : list Layer :=
  [ UseAll (external helmet);
    UseAll (external cors);
    Use "/audit" (external limiter);
    Route GET "/health" health;
    Route POST "/audit" auditRoute;
    Route ALL "/audit" methodNotAllowed;
    Use "*" notFound;
    OnError errorHandler ].

Definition serve (req : Request) : Outcome * list AppEvent :=
  dispatch app req None.

(** The middleware of the packages lets the request through. *)
Definition letThrough (req : Request) : Prop :=
  helmet req = Passes /\ cors req = Passes
  /\ (pathUnder "/audit" (path req) = true -> limiter req = Passes).

End Application.

Definition isFromAudit (e : AppEvent) : bool :=
  match e with FromAudit _ => true | UnhandledError _ => false end.

End App.

(* ================================================================== *)
(** ** A reference instance of the parameters of the application

    Paths compared as they are spelt (a request that spells the route as
    the source does is matched by the framework too), [*] mounted on every
    path, middleware that passes every request on. *)

Module AppRef.
Import Js Audit App.

Definition pathIs (route p : string) : bool := String.eqb route p.
Definition pathUnder (mount p : string) : bool :=
  String.eqb mount "*" || String.eqb mount p || String.prefix (mount ++ "/") p.
Definition pass (req : Request) : Verdict := Passes.
Definition leftOpen (e : Js.error) : Step := Silent.

Definition serve (W : World) (req : Request) : Outcome * list AppEvent :=
  App.serve pathIs pathUnder pass pass pass leftOpen UrlRef.hostPresent W req.

End AppRef.

(* ================================================================== *)
(** ** More sample runs *)

Module Examples2.
Import Js Audit App.

Definition notLaunched : Js.error :=
  Error "TypeError" "Cannot read properties of undefined (reading 'newPage')".

(** The browser is not launched yet: [browser.newPage()] throws. *)
Definition notLaunchedWorld : World :=
  mkWorld (Throws notLaunched) (Returns tt) (Returns tt)
          (fun n => (1700000000000 + Z.of_nat n)%Z)
          []
          (fun _ => Returns None)
          (Returns "") (Returns 0)
          (fun _ => Returns tt).

(** A quiet browser in which one sub-request failed on SSL. *)
Definition oneSslFailureWorld : World :=
  Order.withFailures (Examples.quietWorld "<h1>Hello</h1>")
                     ["net::ERR_SSL_PROTOCOL_ERROR"].

Definition syntaxError : Js.error :=
  Error "SyntaxError" "Unexpected token } in JSON at position 12".

Definition postAudit : Request :=
  mkRequest "POST" "/audit" (Returns [("url", Str "example.com")]).
Definition postMalformed : Request :=
  mkRequest "POST" "/audit" (Throws syntaxError).
Definition getAudit : Request := mkRequest "GET" "/audit" (Returns []).
Definition headHealth : Request := mkRequest "HEAD" "/health" (Returns []).
Definition getElsewhere : Request := mkRequest "GET" "/metrics" (Returns []).

End Examples2.

(* ================================================================== *)
(** ** White space, letter case, character sets and greedy matching

    The notions in which the properties of the normalized URL and of the
    extracted emails are stated, written out without the definitions of
    the handler: the white space that trimming removes, by code point;
    letters and digits, by their alphabets; the match of a sequence of
    quantified character sets, by the rule that each set takes the longest
    run after which the rest of the sequence still matches. *)

Module Meaning.
Import Spec.

(** [c] is one of the characters of [s]. *)
Fixpoint member (c : ascii) (s : string) : Prop :=
  match s with
  | EmptyString => False
  | String d r => c = d \/ member c r
  end.

(** *** White space *)

(** The code points of [WhiteSpace] and [LineTerminator]: TAB, LF, VT, FF,
    CR, SP and NBSP, and then, beyond the code units that a [string]
    holds, U+1680, U+2000 to U+200A, U+2028, U+2029, U+202F, U+205F,
    U+3000 and U+FEFF. *)
Definition whiteSpaceCodes : list N :=
  [ 9; 10; 11; 12; 13; 32; 160; 5760;
    8192; 8193; 8194; 8195; 8196; 8197; 8198; 8199; 8200; 8201; 8202;
    8232; 8233; 8239; 8287; 12288; 65279 ]%N.

Definition IsWhite (c : ascii) : Prop := In (N_of_ascii c) whiteSpaceCodes.

Definition AllWhite (s : string) : Prop := forall c, member c s -> IsWhite c.

(** [t] is [s] without the white space at its two ends. *)
Definition TrimOf (s t : string) : Prop :=
  (exists l r, s = (l ++ t ++ r)%string /\ AllWhite l /\ AllWhite r)
  /\ (forall c, firstChar t = Some c -> ~ IsWhite c)
  /\ (forall c, lastChar t = Some c -> ~ IsWhite c).

(** *** Letter case *)

Definition lowerLetters : string := "abcdefghijklmnopqrstuvwxyz".
Definition upperLetters : string := "ABCDEFGHIJKLMNOPQRSTUVWXYZ".
Definition digits : string := "0123456789".

(** The letter of [lowers] at the place where [c] stands in [uppers];
    [c] itself when it does not stand there. *)
Fixpoint lowerIn (uppers lowers : string) (c : ascii) : ascii :=
  match uppers, lowers with
  | String u us, String l ls => if Ascii.eqb c u then l else lowerIn us ls c
  | _, _ => c
  end.

Definition lowerCase (c : ascii) : ascii := lowerIn upperLetters lowerLetters c.

Fixpoint lower (s : string) : string :=
  match s with
  | EmptyString => EmptyString
  | String c r => String (lowerCase c) (lower r)
  end.

(** [s] begins with [http://] or [https://], the case of the letters
    set aside. *)
Definition Schemed (s : string) : Prop :=
  BeginsWith (lower s) "http://" \/ BeginsWith (lower s) "https://".

(** *** Character sets and their runs *)

Definition IsLetter (c : ascii) : Prop :=
  member c lowerLetters \/ member c upperLetters.
Definition IsDigit (c : ascii) : Prop := member c digits.
(** letters, digits and [._%+-] *)
Definition IsLocal (c : ascii) : Prop :=
  IsLetter c \/ IsDigit c \/ member c "._%+-".
(** letters, digits and [.-] *)
Definition IsDomain (c : ascii) : Prop :=
  IsLetter c \/ IsDigit c \/ member c ".-".
Definition Is (d : ascii) (c : ascii) : Prop := c = d.

(** A character set with the number of characters it may take. *)
Record block : Type := Block {
  chars : ascii -> Prop;
  atLeast : nat;
  atMost : option nat
}.

(** Local part, [@], domain, [.], top-level domain of two letters or
    more. *)
Definition emailPattern : list block :=
  [ Block IsLocal 1 None; Block (Is "@") 1 (Some 1);
    Block IsDomain 1 None; Block (Is ".") 1 (Some 1);
    Block IsLetter 2 None ].

(** [w] is a run of [b]. *)
Definition Run (b : block) (w : string) : Prop :=
  (forall c, member c w -> chars b c)
  /\ atLeast b <= String.length w
  /\ withinMax (atMost b) (String.length w).

(** [e] is a word of the pattern: a run of each block, in order. *)
Inductive Word : list block -> string -> Prop :=
| WordNil : Word [] EmptyString
| WordCons (b : block) (bs : list block) (w v : string) :
    Run b w -> Word bs v -> Word (b :: bs) (w ++ v).

(** Some word of the pattern stands at the head of [s]. *)
Definition MatchesAtHead (bs : list block) (s : string) : Prop :=
  exists e rest, s = (e ++ rest)%string /\ Word bs e.

(** *** The match at a position

    [Greedy bs s e]: [e] is the match of the pattern at the head of [s].
    Every block takes the longest of its runs after which the rest of the
    pattern still matches; the blocks that follow do the same in what is
    left. *)
Inductive Greedy : list block -> string -> string -> Prop :=
| GreedyNil (s : string) : Greedy [] s EmptyString
| GreedyCons (b : block) (bs : list block) (s w rest v : string) :
    s = (w ++ rest)%string ->
    Run b w ->
    Greedy bs rest v ->
    (forall w' rest',
        s = (w' ++ rest')%string -> Run b w' ->
        String.length w < String.length w' -> ~ MatchesAtHead bs rest') ->
    Greedy (b :: bs) s (w ++ v).

(** *** The matches of a global search

    The search position moves through the string.  Where the pattern
    matches, the match is recorded and the search resumes behind it (one
    character further after an empty match); where it does not, the
    position advances by one. *)
Inductive Found (bs : list block) : string -> list string -> Prop :=
| FoundEndMiss :
    ~ MatchesAtHead bs EmptyString -> Found bs EmptyString []
| FoundEndHit :
    Greedy bs EmptyString EmptyString -> Found bs EmptyString [EmptyString]
| FoundMiss (c : ascii) (r : string) (ms : list string) :
    ~ MatchesAtHead bs (String c r) ->
    Found bs r ms ->
    Found bs (String c r) ms
| FoundEmpty (c : ascii) (r : string) (ms : list string) :
    Greedy bs (String c r) EmptyString ->
    Found bs r ms ->
    Found bs (String c r) (EmptyString :: ms)
| FoundHit (s e rest : string) (ms : list string) :
    Greedy bs s e -> e <> EmptyString ->
    s = (e ++ rest)%string ->
    Found bs rest ms ->
    Found bs s (e :: ms).

(** *** The patterns of the handler, read as blocks *)

(** An atom of a pattern of the handler and a block say the same. *)
Definition Reads (a : Regex.atom) (b : block) : Prop :=
  (forall c, Regex.cls a c = true <-> chars b c)
  /\ Regex.rmin a = atLeast b
  /\ Regex.rmax a = atMost b.

End Meaning.

(* ================================================================== *)
(** ** Facts about the string primitives *)

Module StrFacts.
Import Spec.

Lemma prefix_begins (p s : string) :
  String.prefix p s = true <-> BeginsWith s p.
Proof.
  revert s. induction p as [|c p IH]; intros s; simpl.
  - split; [intros _; now exists s | intros _; now destruct s].
  - destruct s as [|d s]; simpl.
    + split; [discriminate | intros [r H]; discriminate].
    + destruct (ascii_dec c d) as [->|Hne].
      * rewrite IH. split; intros [r H]; exists r.
        -- now rewrite H.
        -- now inversion H.
      * split; [discriminate | intros [r H]; inversion H; congruence].
Qed.

Lemma includes_contains (s needle : string) :
  Str.includes s needle = true <-> Contains s needle.
Proof.
  induction s as [|c s IH]; cbn [Str.includes].
  - rewrite orb_false_r, prefix_begins. split.
    + intros [r H]. exists EmptyString, r. exact H.
    + intros [a [b H]]. destruct a; simpl in H.
      * now exists b.
      * discriminate.
  - rewrite orb_true_iff, prefix_begins, IH. split.
    + intros [[r H] | [a [b H]]].
      * exists EmptyString, r. exact H.
      * exists (String c a), b. simpl. now rewrite H.
    + intros [a [b H]]. destruct a as [|d a]; simpl in H.
      * left. now exists b.
      * right. inversion H. now exists a, b.
Qed.

Lemma includes_false (s needle : string) :
  Str.includes s needle = false <-> ~ Contains s needle.
Proof.
  rewrite <- includes_contains. destruct (Str.includes s needle); split;
    congruence.
Qed.

Lemma trimStart_idem (s : string) :
  Str.trimStart (Str.trimStart s) = Str.trimStart s.
Proof.
  induction s as [|c s IH]; simpl; [reflexivity|].
  destruct (Str.isWhiteSpace c) eqn:E; [exact IH|]. simpl. now rewrite E.
Qed.

Lemma trimStart_first (s : string) : notSpace (firstChar (Str.trimStart s)).
Proof.
  induction s as [|c s IH]; simpl; [exact I|].
  destruct (Str.isWhiteSpace c) eqn:E; [exact IH | exact E].
Qed.

Lemma trimStart_split (s : string) :
  exists l, s = (l ++ Str.trimStart s)%string /\ Str.all Str.isWhiteSpace l = true.
Proof.
  induction s as [|c s [l [H1 H2]]]; simpl.
  - now exists EmptyString.
  - destruct (Str.isWhiteSpace c) eqn:E.
    + exists (String c l). cbn [append Str.all]. rewrite E, H2. now rewrite <- H1.
    + now exists EmptyString.
Qed.

Lemma trimEnd_cons (c : ascii) (s : string) :
  Str.isWhiteSpace c = false ->
  Str.trimEnd (String c s) = String c (Str.trimEnd s).
Proof.
  intros E. simpl. destruct (Str.trimEnd s); [now rewrite E | reflexivity].
Qed.

Lemma trimEnd_idem (s : string) : Str.trimEnd (Str.trimEnd s) = Str.trimEnd s.
Proof.
  induction s as [|c s IH]; [reflexivity|].
  simpl. destruct (Str.trimEnd s) as [|d t] eqn:E.
  - destruct (Str.isWhiteSpace c) eqn:W; [reflexivity|]. simpl. now rewrite W.
  - change (Str.trimEnd (String c (String d t)) = String c (String d t)).
    simpl in IH |- *. destruct (Str.trimEnd t) eqn:T.
    + destruct (Str.isWhiteSpace d); [discriminate | now rewrite IH].
    + now rewrite IH.
Qed.

Lemma trimEnd_last (s : string) : notSpace (lastChar (Str.trimEnd s)).
Proof.
  induction s as [|c s IH]; simpl; [exact I|].
  destruct (Str.trimEnd s) as [|d t] eqn:E.
  - destruct (Str.isWhiteSpace c) eqn:W; simpl; [exact I | exact W].
  - exact IH.
Qed.

Lemma trimEnd_split (s : string) :
  exists r, s = (Str.trimEnd s ++ r)%string /\ Str.all Str.isWhiteSpace r = true.
Proof.
  induction s as [|c s [r [H1 H2]]]; simpl.
  - now exists EmptyString.
  - destruct (Str.trimEnd s) as [|d t] eqn:E.
    + destruct (Str.isWhiteSpace c) eqn:W.
      * exists (String c r). cbn [append] in H1. subst r. split.
        -- reflexivity.
        -- cbn [Str.all]. now rewrite W, H2.
      * exists r. cbn [append] in *. now subst r.
    + exists r. cbn [append] in *. split; [now rewrite <- H1 | exact H2].
Qed.

Lemma trimEnd_first (s : string) :
  notSpace (firstChar s) -> notSpace (firstChar (Str.trimEnd s)).
Proof.
  destruct s as [|c s]; simpl; [trivial|]. intros W.
  destruct (Str.trimEnd s); [rewrite W|]; exact W.
Qed.

End StrFacts.

(* ================================================================== *)
(** ** Facts about trimming and the scheme pattern *)

Module NormalizeFacts.
Import Spec StrFacts Audit.

Lemma trim_trimmed (s : string) : Trimmed s (Str.trim s).
Proof.
  unfold Trimmed, Str.trim. repeat split.
  - destruct (trimStart_split s) as [l [Hl Wl]].
    destruct (trimEnd_split (Str.trimStart s)) as [r [Hr Wr]].
    exists l, r. repeat split; try assumption.
    now rewrite <- Hr.
  - apply trimEnd_first, trimStart_first.
  - apply trimEnd_last.
Qed.

Lemma trimStart_fixed (t : string) :
  notSpace (firstChar t) -> Str.trimStart t = t.
Proof.
  destruct t as [|c t]; simpl; [reflexivity|]. now intros ->.
Qed.

Lemma trimEnd_fixed (t : string) :
  notSpace (lastChar t) -> Str.trimEnd t = t.
Proof.
  induction t as [|c t IH]; [reflexivity|].
  destruct t as [|d t].
  - simpl. now intros ->.
  - intros H. change (lastChar (String c (String d t))) with (lastChar (String d t)) in H.
    specialize (IH H). cbn [Str.trimEnd] in IH |- *.
    now rewrite IH.
Qed.

Lemma trim_fixed (t : string) :
  notSpace (firstChar t) -> notSpace (lastChar t) -> Str.trim t = t.
Proof.
  intros F L. unfold Str.trim. rewrite (trimStart_fixed t F). now apply trimEnd_fixed.
Qed.

Lemma trim_idem (s : string) : Str.trim (Str.trim s) = Str.trim s.
Proof.
  destruct (trim_trimmed s) as [_ [F L]]. now apply trim_fixed.
Qed.

Lemma lastChar_some (c : ascii) (s : string) :
  exists x, lastChar (String c s) = Some x.
Proof.
  revert c. induction s as [|d s IH]; intros c.
  - now exists c.
  - destruct (IH d) as [x Hx]. exists x. exact Hx.
Qed.

Lemma lastChar_cons (c : ascii) (s : string) :
  lastChar (String c s) = match lastChar s with Some x => Some x | None => Some c end.
Proof.
  destruct s as [|d s]; [reflexivity|].
  change (lastChar (String c (String d s))) with (lastChar (String d s)).
  now destruct (lastChar_some d s) as [x ->].
Qed.

Lemma lastChar_app (p t : string) :
  lastChar (p ++ t) = match lastChar t with Some c => Some c | None => lastChar p end.
Proof.
  induction p as [|c p IH].
  - simpl. now destruct (lastChar t).
  - cbn [append]. rewrite !lastChar_cons, IH.
    now destruct (lastChar t), (lastChar p).
Qed.

Lemma run_at_cap (a : Regex.atom) (n : nat) (s : string) :
  Regex.capped (Regex.rmax a) n = true -> Regex.run a n s = n.
Proof. destruct s; simpl; [reflexivity|]. now intros ->. Qed.

Lemma matchHere_one (f : ascii -> bool) (p : Regex.pattern) (s : string) :
  Regex.matchHere (Regex.one f :: p) s =
  match s with
  | String c r =>
      if f c then option_map S (Regex.matchHere p r) else None
  | EmptyString => None
  end.
Proof.
  destruct s as [|c r]; [reflexivity|].
  cbn [Regex.matchHere Regex.run Regex.one Regex.rmax Regex.rmin Regex.cls Regex.capped].
  change (1 <=? 0) with false. cbv iota.
  destruct (f c).
  - rewrite run_at_cap by reflexivity.
    cbn. now destruct (Regex.matchHere p r).
  - reflexivity.
Qed.

(** One step of the matcher on an optional atom. *)
Lemma matchHere_opt (f : ascii -> bool) (p : Regex.pattern) (s : string) :
  Regex.matchHere (Regex.opt f :: p) s =
  match s with
  | String c r =>
      if f c then
        match Regex.matchHere p r with
        | Some m => Some (S m)
        | None => Regex.matchHere p s
        end
      else Regex.matchHere p s
  | EmptyString => Regex.matchHere p s
  end.
Proof.
  destruct s as [|c r].
  - cbn. now destruct (Regex.matchHere p "").
  - cbn [Regex.matchHere Regex.run Regex.opt Regex.rmax Regex.rmin Regex.cls Regex.capped].
    change (1 <=? 0) with false. cbv iota.
    destruct (f c).
    + rewrite run_at_cap by reflexivity.
      cbn. destruct (Regex.matchHere p r); [reflexivity|].
      now destruct (Regex.matchHere p (String c r)).
    + cbn. now destruct (Regex.matchHere p (String c r)).
Qed.

Lemma chrI_dec (x c : ascii) :
  Regex.chrI x c = if ascii_dec (Str.toUpper x) (Str.toUpper c) then true else false.
Proof.
  unfold Regex.chrI. destruct (Ascii.eqb_spec (Str.toUpper c) (Str.toUpper x));
    destruct (ascii_dec (Str.toUpper x) (Str.toUpper c)); congruence.
Qed.


Lemma isSome_map (x : option nat) :
  match option_map S x with Some _ => true | None => false end =
  match x with Some _ => true | None => false end.
Proof. now destruct x. Qed.

Ltac upcase_literal x :=
  let v := eval vm_compute in (Str.toUpper x) in
  change (Str.toUpper x) with v.

(* one mandatory, case-insensitive literal [x] of the pattern against the
   head of [t] *)
Ltac literal x t :=
  destruct t as [|?c t]; [reflexivity|];
  rewrite matchHere_one, chrI_dec; cbn [upcase String.prefix];
  upcase_literal x;
  match goal with
  | |- context [ascii_dec ?a ?b] => destruct (ascii_dec a b); [|reflexivity]
  end;
  rewrite ?isSome_map.

Lemma scheme_tail (t : string) :
  Regex.matchesAtStart
    [Regex.one (Regex.chrI ":"); Regex.one (Regex.chrI "/");
     Regex.one (Regex.chrI "/")] t
  = String.prefix "://" (upcase t).
Proof.
  unfold Regex.matchesAtStart.
  literal ":"%char t. literal "/"%char t. literal "/"%char t.
  cbn. now destruct (upcase t).
Qed.

Lemma scheme_hasScheme (t : string) :
  Regex.matchesAtStart schemeRegex t = hasScheme t.
Proof.
  unfold Regex.matchesAtStart, schemeRegex, hasScheme.
  literal "h"%char t. literal "t"%char t. literal "t"%char t. literal "p"%char t.
  rewrite matchHere_opt.
  destruct t as [|x t]; [reflexivity|].
  rewrite chrI_dec. upcase_literal "s"%char.
  pose proof (scheme_tail t) as Ht. pose proof (scheme_tail (String x t)) as Hct.
  unfold Regex.matchesAtStart in Ht, Hct.
  cbn [upcase] in *. 
  destruct (ascii_dec "S" (Str.toUpper x)) as [eS|nS].
  - cbn [String.prefix]. rewrite <- eS in *. cbn [String.prefix] in Hct.
    destruct (ascii_dec ":" "S"); [discriminate|].
    destruct (ascii_dec "S" "S"); [|congruence].
    rewrite <- Ht. cbn [orb].
    destruct (Regex.matchHere _ t); [reflexivity|]. exact Hct.
  - rewrite Hct. cbn [String.prefix].
    destruct (ascii_dec "S" (Str.toUpper x)); [congruence|]. now rewrite orb_false_r.
Qed.

Lemma normalizeUrl_hasScheme (url : string) :
  normalizeUrl url =
  if hasScheme (Str.trim url) then Str.trim url
  else ("https://" ++ Str.trim url)%string.
Proof.
  unfold normalizeUrl. rewrite scheme_hasScheme. now destruct (hasScheme (Str.trim url)).
Qed.

Lemma normalizeUrl_fixed (t : string) :
  notSpace (firstChar t) -> notSpace (lastChar t) -> hasScheme t = true ->
  normalizeUrl t = t.
Proof.
  intros F L H. rewrite normalizeUrl_hasScheme, (trim_fixed t F L). now rewrite H.
Qed.

Lemma normalizeUrl_idem (url : string) :
  normalizeUrl (normalizeUrl url) = normalizeUrl url.
Proof.
  destruct (trim_trimmed url) as [_ [F L]].
  rewrite (normalizeUrl_hasScheme url).
  destruct (hasScheme (Str.trim url)) eqn:H.
  - now apply normalizeUrl_fixed.
  - apply normalizeUrl_fixed.
    + reflexivity.
    + rewrite lastChar_app. destruct (lastChar (Str.trim url)); [exact L | reflexivity].
    + unfold hasScheme. apply orb_true_iff. right.
      apply prefix_begins. now exists (upcase (Str.trim url)).
Qed.

End NormalizeFacts.

(* ================================================================== *)
(** ** Soundness of the matcher *)

Module RegexFacts.
Import Spec StrFacts.

Lemma length_take (n : nat) (s : string) :
  n <= String.length s -> String.length (Str.take n s) = n.
Proof.
  revert s. induction n as [|n IH]; intros [|c s] H; simpl in *; try lia.
  rewrite IH; lia.
Qed.

Lemma length_drop (n : nat) (s : string) :
  String.length (Str.drop n s) = String.length s - n.
Proof.
  revert s. induction n as [|n IH]; intros [|c s]; simpl; try lia. apply IH.
Qed.

Lemma length_app (s t : string) :
  String.length (s ++ t) = String.length s + String.length t.
Proof. induction s as [|c s IH]; simpl; [reflexivity | now rewrite IH]. Qed.

Lemma take_add (j m : nat) (s : string) :
  Str.take (j + m) s = (Str.take j s ++ Str.take m (Str.drop j s))%string.
Proof.
  revert s. induction j as [|j IH]; intros s.
  - simpl. now destruct s.
  - destruct s as [|c s]; simpl.
    + now destruct m.
    + now rewrite IH.
Qed.

Lemma all_take_le (f : ascii -> bool) (j n : nat) (s : string) :
  j <= n -> Str.all f (Str.take n s) = true -> Str.all f (Str.take j s) = true.
Proof.
  revert n s. induction j as [|j IH]; intros n s H A.
  - now destruct s.
  - destruct n as [|n]; [lia|]. destruct s as [|c s]; [reflexivity|].
    simpl in *. apply andb_true_iff in A. destruct A as [A1 A2].
    rewrite A1. simpl. apply (IH n); [lia | exact A2].
Qed.

Section Run.
Variable a : Regex.atom.

Lemma run_ge (n : nat) (s : string) : n <= Regex.run a n s.
Proof.
  revert n. induction s as [|c s IH]; intros n; simpl; [lia|].
  destruct (Regex.capped (Regex.rmax a) n); [lia|].
  destruct (Regex.cls a c); [|lia]. specialize (IH (S n)). lia.
Qed.

Lemma run_length (n : nat) (s : string) :
  Regex.run a n s <= n + String.length s.
Proof.
  revert n. induction s as [|c s IH]; intros n; simpl; [lia|].
  destruct (Regex.capped (Regex.rmax a) n); [lia|].
  destruct (Regex.cls a c); [|lia]. specialize (IH (S n)). lia.
Qed.

Lemma run_chars (n : nat) (s : string) :
  Str.all (Regex.cls a) (Str.take (Regex.run a n s - n) s) = true.
Proof.
  revert n. induction s as [|c s IH]; intros n; simpl.
  - now destruct (n - n).
  - destruct (Regex.capped (Regex.rmax a) n).
    + now replace (n - n) with 0 by lia.
    + destruct (Regex.cls a c) eqn:E.
      * pose proof (run_ge (S n) s).
        replace (Regex.run a (S n) s - n) with (S (Regex.run a (S n) s - S n)) by lia.
        simpl. now rewrite E, IH.
      * now replace (n - n) with 0 by lia.
Qed.

Lemma run_max (n : nat) (s : string) :
  withinMax (Regex.rmax a) n -> withinMax (Regex.rmax a) (Regex.run a n s).
Proof.
  revert n. induction s as [|c s IH]; intros n W; simpl; [exact W|].
  destruct (Regex.capped (Regex.rmax a) n) eqn:C; [exact W|].
  destruct (Regex.cls a c); [|exact W]. apply IH.
  unfold withinMax, Regex.capped in *. destruct (Regex.rmax a) as [m|]; [|exact I].
  apply Nat.leb_gt in C. lia.
Qed.

End Run.

Lemma giveBack_some (k : nat -> option nat) (lo n r : nat) :
  Regex.giveBack k lo n = Some r ->
  exists j m, lo <= j /\ j <= n /\ k j = Some m /\ r = j + m.
Proof.
  induction n as [|n IH]; simpl.
  - destruct (0 <? lo) eqn:L; [discriminate|]. apply Nat.ltb_ge in L.
    destruct (k 0) as [m|] eqn:K; [|discriminate].
    intros [= <-]. exists 0, m. repeat split; try lia. exact K.
  - destruct (S n <? lo) eqn:L; [discriminate|]. apply Nat.ltb_ge in L.
    destruct (k (S n)) as [m|] eqn:K.
    + intros [= <-]. exists (S n), m. repeat split; try lia. exact K.
    + intros H. destruct (IH H) as [j [m [H1 [H2 [H3 H4]]]]].
      exists j, m. repeat split; try lia. exact H3.
Qed.

Lemma withinMax_le (lim : option nat) (j n : nat) :
  j <= n -> withinMax lim n -> withinMax lim j.
Proof. destruct lim; simpl; [lia | trivial]. Qed.

(** A match reported by the matcher is a word of the pattern, and lies
    within the string. *)
Lemma matchHere_sound (p : Regex.pattern) (s : string) (n : nat) :
  Regex.matchHere p s = Some n ->
  Matches p (Str.take n s) /\ n <= String.length s.
Proof.
  revert s n. induction p as [|a p IH]; intros s n; simpl.
  - intros [= <-]. split; [|lia]. destruct s; constructor.
  - intros H. apply giveBack_some in H.
    destruct H as [j [m [Hlo [Hhi [Hk ->]]]]].
    apply IH in Hk. destruct Hk as [Hm Hlen].
    pose proof (run_length a 0 s) as Hr. simpl in Hr.
    rewrite length_drop in Hlen.
    assert (Hj : j <= String.length s) by lia.
    split; [|lia]. rewrite take_add. constructor.
    + apply (all_take_le _ j (Regex.run a 0 s)); [exact Hhi|].
      pose proof (run_chars a 0 s) as Hc. now rewrite Nat.sub_0_r in Hc.
    + rewrite length_take; assumption.
    + rewrite length_take by assumption.
      apply (withinMax_le _ j (Regex.run a 0 s)); [exact Hhi|].
      apply run_max. destruct (Regex.rmax a); simpl; [lia | exact I].
    + exact Hm.
Qed.

(** The accumulating search collects the matches of a global search. *)
Lemma scan_global (p : Regex.pattern) (s : string) (skip : nat) :
  skip <= String.length s ->
  GlobalMatches p (Str.drop skip s) (Regex.scan p s skip).
Proof.
  revert skip. induction s as [|c s IH]; intros skip H.
  - simpl in H. replace skip with 0 by lia. simpl.
    destruct (Regex.matchHere p "") as [n|] eqn:E.
    + now apply (GlobalEndHit p n).
    + now apply GlobalEndMiss.
  - destruct skip as [|k].
    + cbn [Str.drop Regex.scan].
      destruct (Regex.matchHere p (String c s)) as [n|] eqn:E.
      * destruct n as [|n].
        -- cbn [Str.take Nat.sub]. apply GlobalEmpty; [exact E|].
           specialize (IH 0). simpl in IH. replace (Str.drop 0 s) with s in IH by now destruct s.
           apply IH. lia.
        -- apply GlobalHit; [exact E|].
           replace (S n - 1) with n by lia. cbn [Str.drop]. apply IH.
           apply matchHere_sound in E. simpl in E. lia.
      * apply GlobalMiss; [exact E|].
        specialize (IH 0). replace (Str.drop 0 s) with s in IH by now destruct s.
        apply IH. lia.
    + cbn [Str.drop Regex.scan]. apply IH. simpl in H. lia.
Qed.

Lemma matchAll_global (p : Regex.pattern) (s : string) :
  GlobalMatches p s (Js.orElse (Regex.matchAll p s) []).
Proof.
  pose proof (scan_global p s 0 ltac:(lia)) as H.
  replace (Str.drop 0 s) with s in H by now destruct s.
  unfold Regex.matchAll. now destruct (Regex.scan p s 0).
Qed.

End RegexFacts.

(* ================================================================== *)
(** ** Email tokens and the insertion-ordered set *)

Module EmailFacts.
Import Spec StrFacts RegexFacts Js Audit.

Lemma single_chr (c : ascii) (w : string) :
  Str.all (Regex.chr c) w = true -> 1 <= String.length w ->
  String.length w <= 1 -> w = String c EmptyString.
Proof.
  destruct w as [|d [|e w]]; simpl; intros A L U; try lia.
  rewrite andb_true_r in A. unfold Regex.chr in A.
  apply Ascii.eqb_eq in A. now subst.
Qed.

(** A word of the email pattern has the shape of an email token. *)
Lemma email_word_shape (e : string) : Matches emailRegex e -> EmailShape e.
Proof.
  unfold emailRegex. intros H.
  inversion H as [|a1 p1 l v1 Al Ll Ml H1]; subst; clear H.
  inversion H1 as [|a2 p2 w2 v2 A2 L2 M2 H2]; subst; clear H1.
  inversion H2 as [|a3 p3 d v3 Ad Ld Md H3]; subst; clear H2.
  inversion H3 as [|a4 p4 w4 v4 A4 L4 M4 H4]; subst; clear H3.
  inversion H4 as [|a5 p5 t v5 At Lt Mt H5]; subst; clear H4.
  inversion H5; subst; clear H5.
  simpl in *.
  rewrite (single_chr _ _ A2 L2 M2), (single_chr _ _ A4 L4 M4).
  exists l, d, t. repeat split; try assumption.
  replace (t ++ "")%string with t; [reflexivity|].
  clear. induction t as [|c t IH]; simpl; [reflexivity | now rewrite <- IH].
Qed.

Lemma email_shape_length (e : string) : EmailShape e -> 5 <= String.length e.
Proof.
  intros [l [d [t [-> [_ [Hl [_ [Hd [_ Ht]]]]]]]]].
  rewrite !length_app. simpl. lia.
Qed.

(** Every match collected from a page has the shape of an email token. *)
Lemma global_emails_shape (content : string) (ms : list string) :
  GlobalMatches emailRegex content ms -> Forall EmailShape ms.
Proof.
  induction 1 as [n H | H | c r ms H _ IH | c r ms H _ IH | c r n ms H _ IH].
  - vm_compute in H. discriminate.
  - constructor.
  - exact IH.
  - apply matchHere_sound in H. destruct H as [H _].
    apply email_word_shape, email_shape_length in H. simpl in H. lia.
  - constructor; [|exact IH].
    apply matchHere_sound in H. destruct H as [H _]. now apply email_word_shape.
Qed.

(** *** The set *)

Lemma existsb_eqb_In (x : string) (l : list string) :
  existsb (String.eqb x) l = true <-> In x l.
Proof.
  rewrite existsb_exists. split.
  - intros [y [Hy E]]. apply String.eqb_eq in E. now subst.
  - intros H. exists x. split; [exact H | apply String.eqb_refl].
Qed.

Lemma remove_filter (x : string) (l : list string) :
  remove string_dec x l = filter (fun y => negb (String.eqb y x)) l.
Proof.
  induction l as [|y l IH]; simpl; [reflexivity|].
  destruct (string_dec x y) as [->|N].
  - now rewrite String.eqb_refl.
  - destruct (String.eqb_spec y x) as [->|_]; [congruence|]. simpl. now rewrite IH.
Qed.

Lemma without_remove_in (seen : list string) (x : string) (l : list string) :
  In x seen -> without seen (remove string_dec x l) = without seen l.
Proof.
  intros Hin. unfold without. induction l as [|y l IH]; simpl; [reflexivity|].
  destruct (string_dec x y) as [->|N]; simpl.
  - apply existsb_eqb_In in Hin. now rewrite Hin.
  - now rewrite IH.
Qed.

Lemma without_snoc (seen : list string) (x : string) (l : list string) :
  without (seen ++ [x])%list l = without seen (remove string_dec x l).
Proof.
  unfold without. rewrite remove_filter. induction l as [|y l IH]; simpl; [reflexivity|].
  rewrite existsb_app. simpl. rewrite orb_false_r.
  destruct (String.eqb y x) eqn:E; simpl.
  - rewrite orb_true_r. simpl. exact IH.
  - rewrite orb_false_r.
    destruct (existsb (String.eqb y) seen); simpl; now rewrite IH.
Qed.

Lemma fold_setAdd (xs seen : list string) :
  fold_left setAdd xs seen = (seen ++ without seen (dedupFirst xs))%list.
Proof.
  revert seen. induction xs as [|x xs IH]; intros seen; simpl.
  - now rewrite app_nil_r.
  - rewrite IH. unfold setAdd.
    destruct (existsb (String.eqb x) seen) eqn:E; simpl.
    + apply existsb_eqb_In in E. now rewrite without_remove_in.
    + rewrite without_snoc, <- app_assoc. reflexivity.
Qed.

(** Spreading the set gives the elements in order of first occurrence. *)
Lemma spreadSet_dedupFirst (xs : list string) : spreadSet xs = dedupFirst xs.
Proof.
  unfold spreadSet. rewrite fold_setAdd. simpl. unfold without. simpl.
  induction (dedupFirst xs) as [|y l IH]; simpl; [reflexivity | now rewrite IH].
Qed.

Lemma dedupFirst_In (x : string) (xs : list string) :
  In x (dedupFirst xs) <-> In x xs.
Proof.
  induction xs as [|y xs IH]; simpl; [tauto|].
  split.
  - intros [->|H]; [now left|]. apply in_remove in H. right. now apply IH.
  - intros [->|H]; [now left|].
    destruct (string_dec y x) as [->|N]; [now left|].
    right. apply in_in_remove; [congruence | now apply IH].
Qed.

Lemma NoDup_remove_all (x : string) (l : list string) :
  NoDup l -> NoDup (remove string_dec x l).
Proof.
  induction 1 as [|y l Hy Hl IH]; simpl; [constructor|].
  destruct (string_dec x y); [exact IH|].
  constructor; [|exact IH]. intros H. apply in_remove in H. tauto.
Qed.

Lemma dedupFirst_NoDup (xs : list string) : NoDup (dedupFirst xs).
Proof.
  induction xs as [|x xs IH]; simpl; constructor.
  - apply remove_In.
  - now apply NoDup_remove_all.
Qed.

Lemma NoDup_firstn (n : nat) (l : list string) : NoDup l -> NoDup (firstn n l).
Proof.
  revert l. induction n as [|n IH]; intros l H; simpl; [constructor|].
  destruct l as [|x l]; [constructor|]. inversion H; subst.
  constructor; [|now apply IH].
  intros Hin. apply (In_nth _ _ x) in Hin. destruct Hin as [i [Hi Hx]].
  rewrite length_firstn in Hi.
  assert (In x l); [|contradiction].
  rewrite <- Hx. rewrite nth_firstn.
  destruct (i <? n) eqn:L; [|apply Nat.ltb_ge in L; lia].
  apply nth_In. lia.
Qed.

End EmailFacts.

(* ================================================================== *)
(** ** Bounds on [load_time] *)

Module NumFacts.
Local Open Scope Z_scope.

Lemma roundHalfEven_error (num den : Z) :
  0 < den -> Z.abs (2 * (den * Num.roundHalfEven num den - num)) <= den.
Proof.
  intros Hd. unfold Num.roundHalfEven.
  pose proof (Z.div_mod num den ltac:(lia)) as E.
  pose proof (Z.mod_pos_bound num den Hd) as B.
  destruct (2 * (num mod den) <? den) eqn:C1.
  - apply Z.ltb_lt in C1. lia.
  - apply Z.ltb_ge in C1.
    destruct (den <? 2 * (num mod den)) eqn:C2.
    + apply Z.ltb_lt in C2. lia.
    + apply Z.ltb_ge in C2. destruct (Z.even (num / den)); lia.
Qed.

Lemma roundHalfEven_nonneg (num den : Z) :
  0 <= num -> 0 < den -> 0 <= Num.roundHalfEven num den.
Proof.
  intros Hn Hd. unfold Num.roundHalfEven.
  pose proof (Z.div_pos num den Hn Hd).
  repeat match goal with |- context [if ?b then _ else _] => destruct b end; lia.
Qed.

Lemma quotientExponent_le (a b : Z) :
  Num.quotientExponent a b <= Z.log2 a - Z.log2 b.
Proof.
  unfold Num.quotientExponent.
  destruct (_ <=? _); lia.
Qed.

(** The exponent of [loadTime / 1000], for a [loadTime] below [2^53]. *)
Lemma divide_exponent (L : Z) :
  0 < L < 2 ^ 53 -> snd (Num.divide L 1000) <= -9.
Proof.
  intros H. unfold Num.divide. cbn [snd].
  pose proof (quotientExponent_le L 1000) as Q.
  change (Z.log2 1000) with 9 in Q.
  assert (Z.log2 L < 53) by (apply Z.log2_lt_pow2; lia).
  lia.
Qed.

(** For a positive [loadTime] the hundredths are within half a hundredth
    of [loadTime / 1000]. *)
Lemma loadTime_positive (L : Z) :
  0 < L < 2 ^ 53 ->
  let n := Num.toFixed2 (Num.divide L 1000) in
  0 <= n /\ Z.abs (10 * n - L) <= 5.
Proof.
  intros H. pose proof (divide_exponent L H) as He.
  unfold Num.divide in *. cbn [snd] in He.
  set (e := Num.quotientExponent L 1000 - 52) in *.
  cbv zeta. unfold Num.toFixed2.
  replace (Z.max e 0) with 0 by lia. replace (Z.max (- e) 0) with (- e) by lia.
  change (2 ^ 0) with 1. rewrite !Z.mul_1_r.
  assert (HP : 2 ^ 9 <= 2 ^ (- e)) by (apply Z.pow_le_mono_r; lia).
  change (2 ^ 9) with 512 in HP.
  set (P := 2 ^ (- e)) in *.
  pose proof (roundHalfEven_error (L * P) 1000 ltac:(lia)) as R.
  pose proof (roundHalfEven_nonneg (L * P) 1000 ltac:(nia) ltac:(lia)) as M.
  set (m := Num.roundHalfEven (L * P) 1000) in *.
  pose proof (Z.div_mod (2 * 100 * m + P) (2 * P) ltac:(lia)) as D.
  pose proof (Z.mod_pos_bound (2 * 100 * m + P) (2 * P) ltac:(lia)) as B.
  set (n := (2 * 100 * m + P) / (2 * P)) in *.
  split.
  - apply Z.div_pos; lia.
  - assert (2 * P * (10 * n - L - 5) < 2 * P) by nia.
    assert (- (2 * P) < 2 * P * (10 * n - L + 5)) by nia.
    nia.
Qed.

Lemma loadTimeOf_bounds (L : Z) :
  - 2 ^ 53 < L < 2 ^ 53 ->
  Z.abs (10 * Num.loadTimeOf L - L) <= 5
  /\ (0 <= L -> 0 <= Num.loadTimeOf L)
  /\ (L <= 0 -> Num.loadTimeOf L <= 0).
Proof.
  intros H. unfold Num.loadTimeOf.
  destruct (Z.eqb_spec L 0) as [->|N]; [cbn; lia|].
  pose proof (loadTime_positive (Z.abs L) ltac:(lia)) as [P1 P2].
  cbv zeta in P1, P2.
  set (n := Num.toFixed2 (Num.divide (Z.abs L) 1000)) in *.
  destruct (Z.lt_total L 0) as [Neg|[Zero|Pos]]; [|lia|].
  - rewrite (Z.sgn_neg L Neg). rewrite (Z.abs_neq L) in P2 by lia. lia.
  - rewrite (Z.sgn_pos L Pos). rewrite (Z.abs_eq L) in P2 by lia. lia.
Qed.

(** [x * 2^z <= y] and [y < x * 2^z] for an exponent [z] of any sign,
    brought to a common scale [t]. *)
Lemma scaled_le (x y z t : Z) :
  0 <= t -> 0 <= t + z ->
  (x * 2 ^ Z.max z 0 <= y * 2 ^ Z.max (- z) 0 <-> x * 2 ^ (t + z) <= y * 2 ^ t).
Proof.
  intros Ht Htz. destruct (Z.le_gt_cases 0 z) as [Hz|Hz].
  - replace (Z.max z 0) with z by lia. replace (Z.max (- z) 0) with 0 by lia.
    rewrite Z.pow_add_r by lia. change (2 ^ 0) with 1.
    pose proof (Z.pow_pos_nonneg 2 t ltac:(lia) Ht). nia.
  - replace (Z.max z 0) with 0 by lia. replace (Z.max (- z) 0) with (- z) by lia.
    replace t with ((t + z) + (- z)) at 2 by lia.
    rewrite (Z.pow_add_r 2 (t + z) (- z)) by lia. change (2 ^ 0) with 1.
    pose proof (Z.pow_pos_nonneg 2 (t + z) ltac:(lia) Htz). nia.
Qed.

Lemma scaled_lt (x y z t : Z) :
  0 <= t -> 0 <= t + z ->
  (y * 2 ^ Z.max (- z) 0 < x * 2 ^ Z.max z 0 <-> y * 2 ^ t < x * 2 ^ (t + z)).
Proof.
  intros Ht Htz. pose proof (scaled_le x y z t Ht Htz). lia.
Qed.

(** [quotientExponent a b] is the binary exponent of [a / b]. *)
Lemma quotientExponent_spec (a b t : Z) :
  0 < a -> 0 < b ->
  0 <= t -> 0 <= t + Num.quotientExponent a b ->
  b * 2 ^ (t + Num.quotientExponent a b) <= a * 2 ^ t
  /\ a * 2 ^ t < b * 2 ^ (t + Num.quotientExponent a b + 1).
Proof.
  intros Ha Hb Ht.
  pose proof (Z.log2_spec a Ha) as [La Ua].
  pose proof (Z.log2_spec b Hb) as [Lb Ub].
  pose proof (Z.log2_nonneg a). pose proof (Z.log2_nonneg b).
  unfold Num.quotientExponent.
  set (la := Z.log2 a) in *. set (lb := Z.log2 b) in *.
  pose proof (Z.pow_pos_nonneg 2 t ltac:(lia) Ht) as Pt.
  destruct (_ <=? _) eqn:C; intros Hz.
  - apply Z.leb_le in C. apply (scaled_le b a (la - lb) t Ht Hz) in C.
    split; [exact C|].
    assert (a * 2 ^ t < 2 ^ (la + 1 + t)).
    { rewrite (Z.pow_add_r 2 (la + 1) t) by lia. unfold Z.succ in Ua. nia. }
    assert (2 ^ (la + 1 + t) <= b * 2 ^ (t + (la - lb) + 1)).
    { replace (la + 1 + t) with (lb + (t + (la - lb) + 1)) by lia.
      rewrite (Z.pow_add_r 2 lb) by lia.
      pose proof (Z.pow_pos_nonneg 2 (t + (la - lb) + 1) ltac:(lia) ltac:(lia)). nia. }
    lia.
  - apply Z.leb_gt in C.
    assert (Hz' : 0 <= t + (la - lb)) by lia.
    apply (scaled_lt b a (la - lb) t Ht Hz') in C.
    replace (t + (la - lb - 1) + 1) with (t + (la - lb)) by lia.
    split; [|exact C].
    assert (b * 2 ^ (t + (la - lb - 1)) < 2 ^ (la + t)).
    { replace (la + t) with ((lb + 1) + (t + (la - lb - 1))) by lia.
      rewrite (Z.pow_add_r 2 (lb + 1)) by lia.
      pose proof (Z.pow_pos_nonneg 2 (t + (la - lb - 1)) ltac:(lia) ltac:(lia)).
      unfold Z.succ in Ub. nia. }
    assert (2 ^ (la + t) <= a * 2 ^ t).
    { rewrite (Z.pow_add_r 2 la t) by lia. nia. }
    lia.
Qed.

(** [divide a b] is the quotient correctly rounded to 53 bits: its
    significand lies between [2^52] and [2^53], and it is within half a
    unit in the last place of [a / b]. *)
Lemma divide_rounded (a b : Z) :
  0 < a -> 0 < b ->
  let m := fst (Num.divide a b) in
  let e := snd (Num.divide a b) in
  2 ^ 52 <= m <= 2 ^ 53
  /\ Z.abs (2 * (b * 2 ^ Z.max e 0 * m - a * 2 ^ Z.max (- e) 0)) <= b * 2 ^ Z.max e 0.
Proof.
  intros Ha Hb. unfold Num.divide. cbn [fst snd]. cbv zeta.
  set (E := Num.quotientExponent a b).
  set (e := E - 52).
  set (num := a * 2 ^ Z.max (- e) 0). set (den := b * 2 ^ Z.max e 0).
  assert (Hden : 0 < den).
  { unfold den. pose proof (Z.pow_pos_nonneg 2 (Z.max e 0) ltac:(lia) ltac:(lia)). nia. }
  split; [|apply roundHalfEven_error; exact Hden].
  set (t := Z.abs E + 53).
  destruct (quotientExponent_spec a b t Ha Hb ltac:(lia) ltac:(lia)) as [Lo Hi].
  fold E in Lo, Hi.
  assert (B1 : 2 ^ 52 * den <= num).
  { unfold den, num.
    replace (2 ^ 52 * (b * 2 ^ Z.max e 0)) with ((2 ^ 52 * b) * 2 ^ Z.max e 0) by ring.
    apply (scaled_le (2 ^ 52 * b) a e t); [lia | lia |].
    replace (2 ^ 52 * b * 2 ^ (t + e)) with (b * 2 ^ (t + E)); [exact Lo|].
    replace (t + E) with (52 + (t + e)) by lia.
    rewrite (Z.pow_add_r 2 52) by lia. ring. }
  assert (B2 : num < 2 ^ 53 * den).
  { unfold den, num.
    replace (2 ^ 53 * (b * 2 ^ Z.max e 0)) with ((2 ^ 53 * b) * 2 ^ Z.max e 0) by ring.
    apply (scaled_lt (2 ^ 53 * b) a e t); [lia | lia |].
    replace (2 ^ 53 * b * 2 ^ (t + e)) with (b * 2 ^ (t + E + 1)); [exact Hi|].
    replace (t + E + 1) with (53 + (t + e)) by lia.
    rewrite (Z.pow_add_r 2 53) by lia. ring. }
  unfold Num.roundHalfEven.
  pose proof (Z.div_mod num den ltac:(lia)) as D.
  pose proof (Z.mod_pos_bound num den Hden) as R.
  assert (2 ^ 52 <= num / den) by (apply Z.div_le_lower_bound; lia).
  assert (num / den < 2 ^ 53) by (apply Z.div_lt_upper_bound; lia).
  repeat match goal with |- context [if ?c then _ else _] => destruct c end; lia.
Qed.

(** On sample operands the quotient agrees with the binary64 division of
    the proof assistant: the first three thousand milliseconds, and some
    large differences. *)
Fact divide_agrees_with_primitive :
  forallb (fun a => Num.sameValue (Num.divide a 1000) (Num.primitiveDivide a 1000))
          (map Z.of_nat (seq 1 3000)
           ++ [29999; 30000; 30001; 123456789; 1700000000000; 8640000000000000;
               9007199254740991])
  = true.
Proof. vm_compute. reflexivity. Qed.

End NumFacts.

(* ================================================================== *)
(** ** The handler, block by block *)

Module HandlerFacts.
Import Spec StrFacts Js Audit.

Lemma find_app {A} (f : A -> bool) (a b : list A) :
  find f (a ++ b) = match find f a with Some y => Some y | None => find f b end.
Proof. induction a as [|x a IH]; simpl; [reflexivity|]. now destruct (f x). Qed.

Lemma forEach_listener (l : list string) (st : State) :
  forEach onRequestFailed l st =
  (Returns tt, mkState (page st) (latch l (sslError st)) (clockReads st) (trace st)).
Proof.
  revert st. induction l as [|x l IH]; intros st.
  - now destruct st.
  - cbn [forEach]. unfold bind at 1. unfold onRequestFailed at 1.
    unfold latch, lastSslFailure. cbn [rev]. rewrite find_app. cbn [find].
    fold (isSslText x). destruct (isSslText x) eqn:E.
    + cbn. rewrite IH. cbn. unfold latch, lastSslFailure.
      now destruct (find isSslText (rev l)).
    + cbn. rewrite IH. unfold latch, lastSslFailure.
      now destruct (find isSslText (rev l)).
Qed.

Lemma latch_truthy (l : list string) :
  truthyStr (latch l None) = existsb isSslText l.
Proof.
  unfold latch, lastSslFailure.
  destruct (find isSslText (rev l)) as [t|] eqn:E.
  - pose proof (find_some _ _ E) as [Hin Ht].
    simpl. destruct (String.eqb_spec t "") as [->|_]; [discriminate|].
    symmetry. apply existsb_exists. exists t. split; [|exact Ht].
    now apply in_rev.
  - simpl. symmetry. apply not_true_is_false. intros H.
    apply existsb_exists in H. destruct H as [t [Hin Ht]].
    pose proof (find_none _ _ E t (proj1 (in_rev _ _) Hin)). congruence.
Qed.

Lemma closeCalls_snoc (p : option unit) (s : option string) (c : nat)
      (t : list Event) (e : Event) :
  closeCalls (mkState p s c (t ++ [e])) =
  closeCalls (mkState p s c t) + (if isClose e then 1 else 0).
Proof.
  unfold closeCalls. cbn [trace]. rewrite filter_app, length_app. cbn [filter].
  now destruct (isClose e).
Qed.

(** Lines 126-137 compute the policy of step 6, on the latch as it stands,
    and read the security details only on the branch that needs them. *)
Lemma sslStatusOf_result (u : string) (resp : option HTTPResponse) (st : State) :
  sslStatusOf u resp st =
  (Returns (sslPolicy u (truthyStr (sslError st)) (detailsRead resp)),
   mkState (page st) (sslError st) (clockReads st)
     (trace st ++ if isSSL u && negb (truthyStr (sslError st)) && isNotNull resp
                  then [EvSecurityDetails] else [])).
Proof.
  unfold sslStatusOf, sslPolicy, bind, getSslError, tryCatch, ret,
    readSecurityDetails, call, isSSL, Str.startsWith.
  destruct (String.prefix "https://" u); cbn.
  - destruct (truthyStr (sslError st)); cbn.
    + destruct st; cbn. now rewrite app_nil_r.
    + destruct resp as [r|]; cbn.
      * destruct (securityDetails r) as [[d|]|e]; reflexivity.
      * destruct st; cbn. now rewrite app_nil_r.
  - destruct st; cbn. now rewrite app_nil_r.
Qed.

Ltac unfold_monad :=
  unfold goto, closePage, dateNow, consoleError, call, emit, setPage, getPage,
    setSslError, tryCatch, ret, bind in *.

(** What a completed [try] block has seen and done. *)
Lemma tryBlock_returns (W : World) (u : string) (st st' : State) (reply : Reply) :
  tryBlock W u st = (Returns reply, st') ->
  exists resp content h1,
    w_newPage W = Returns tt
    /\ w_goto W u = Returns resp
    /\ w_content W = Returns content
    /\ w_h1 W = Returns h1
    /\ w_close W (closeCalls st) = Returns tt
    /\ reply =
       json 200
         (Success
            (mkData (extractEmails content)
               (Num.loadTimeOf (w_now W (S (clockReads st)) - w_now W (clockReads st)))
               (sslPolicy u (existsb isSslText (w_requestfailed W)) (detailsRead resp))
               h1))
    /\ trace st' =
       (trace st ++ successTrace u (existsb isSslText (w_requestfailed W)) resp)%list
    /\ page st' = Some tt.
Proof.
  unfold tryBlock. unfold_monad. cbn -[extractEmails sslStatusOf closeCalls].
  destruct (w_newPage W) as [[]|e0]; [|discriminate].
  destruct (w_setUserAgent W) as [[]|e1]; [|discriminate].
  destruct (w_setRequestInterception W) as [[]|e2]; [|discriminate].
  rewrite forEach_listener. cbn -[extractEmails sslStatusOf closeCalls].
  destruct (w_goto W u) as [resp|e3]; [|discriminate].
  rewrite sslStatusOf_result. cbn -[extractEmails closeCalls].
  rewrite latch_truthy.
  destruct (w_content W) as [content|e4]; [|discriminate].
  destruct (w_h1 W) as [h1|e5]; [|discriminate].
  set (sd := isSSL u && negb (existsb isSslText (w_requestfailed W)) && isNotNull resp).
  replace (closeCalls _) with (closeCalls st).
  2:{ unfold closeCalls. cbn [trace]. rewrite ?filter_app, ?length_app.
      destruct sd; cbn; lia. }
  destruct (w_close W (closeCalls st)) as [[]|e6]; [|discriminate].
  intros [= <- <-]. exists resp, content, h1. cbn [trace page].
  repeat split. unfold successTrace. fold sd. now rewrite <- !app_assoc.
Qed.

(** On a caught [Error] the [catch] block always replies, with status 200
    and the message of the classification; it closes the page when there
    is one, and a close that throws there is logged and goes no further. *)
Lemma catchBlock_replies (W : World) (u : string) (e : Js.error) (st : State) :
  exists st',
    catchBlock W u e st = (Returns (json 200 (Failure (errorMessageOf e))), st')
    /\ page st' = page st
    /\ closeCalls st' = closeCalls st + (if isNotNull (page st) then 1 else 0)
    /\ (forall ce, page st = Some tt -> w_close W (closeCalls st) = Throws ce ->
        In (EvConsoleError ["Failed to close page:"; message ce]) (trace st')).
Proof.
  unfold catchBlock. unfold_monad. cbn -[errorMessageOf closeCalls].
  destruct (page st) as [[]|] eqn:P; cbn -[errorMessageOf closeCalls].
  - rewrite closeCalls_snoc. cbn [isClose]. rewrite Nat.add_0_r.
    replace (closeCalls {| page := Some tt; sslError := sslError st;
                           clockReads := clockReads st; trace := trace st |})
      with (closeCalls st) by reflexivity.
    destruct (w_close W (closeCalls st)) as [[]|ce]; eexists; (split; [reflexivity|]);
      cbn [page trace]; rewrite ?closeCalls_snoc; cbn [isClose]; repeat split.
    + unfold closeCalls. cbn [trace]. rewrite ?filter_app, ?length_app. cbn. lia.
    + intros ce' _ [=].
    + unfold closeCalls. cbn [trace]. rewrite ?filter_app, ?length_app. cbn. lia.
    + intros ce' _ [= <-]. apply in_or_app. right. now left.
  - eexists. split; [reflexivity|]. cbn [page]. repeat split.
    + rewrite closeCalls_snoc. cbn [isClose]. unfold closeCalls. cbn [trace]. lia.
    + intros ce' [=].
Qed.

Ltac count_closes :=
  repeat split; cbn [page trace]; try reflexivity;
  unfold closeCalls; cbn [trace];
  rewrite ?filter_app, ?length_app;
  repeat match goal with
         | |- context [if ?b then [EvSecurityDetails] else []] => destruct b
         end;
  cbn; lia.

(** The [try] block that throws: how far the page got. *)
Lemma tryBlock_throws (W : World) (u : string) (st st' : State) (e : Js.error) :
  tryBlock W u st = (Throws e, st') ->
  (w_newPage W = Throws e /\ page st' = page st /\ closeCalls st' = closeCalls st)
  \/ (w_newPage W = Returns tt /\ page st' = Some tt
      /\ closeCalls st' = closeCalls st)
  \/ (w_newPage W = Returns tt /\ page st' = Some tt
      /\ closeCalls st' = S (closeCalls st)
      /\ w_close W (closeCalls st) = Throws e).
Proof.
  unfold tryBlock. unfold_monad. cbn -[extractEmails sslStatusOf closeCalls].
  destruct (w_newPage W) as [[]|e0].
  2:{ cbn -[closeCalls]. intros [= <- <-]. left. count_closes. }
  destruct (w_setUserAgent W) as [[]|e1].
  2:{ cbn -[closeCalls]. intros [= <- <-]. right. left. count_closes. }
  destruct (w_setRequestInterception W) as [[]|e2].
  2:{ cbn -[closeCalls]. intros [= <- <-]. right. left. count_closes. }
  rewrite forEach_listener. cbn -[extractEmails sslStatusOf closeCalls].
  destruct (w_goto W u) as [resp|e3].
  2:{ cbn -[closeCalls]. intros [= <- <-]. right. left. count_closes. }
  rewrite sslStatusOf_result. cbn -[extractEmails closeCalls].
  destruct (w_content W) as [content|e4].
  2:{ cbn -[closeCalls]. intros [= <- <-]. right. left. count_closes. }
  destruct (w_h1 W) as [h1|e5].
  2:{ cbn -[closeCalls]. intros [= <- <-]. right. left. count_closes. }
  replace (closeCalls _) with (closeCalls st) by count_closes.
  destruct (w_close W (closeCalls st)) as [[]|e6] eqn:Ec; [discriminate|].
  cbn -[closeCalls]. intros [= <- <-]. right. right. split; [reflexivity|]. split; [reflexivity|]. split; [|reflexivity].
  count_closes.
Qed.

End HandlerFacts.

(* ================================================================== *)
(** ** The request as a whole *)

Module RunFacts.
Import Spec StrFacts Js Audit HandlerFacts.

Section Run.
Variable URL : string -> bool.
Variable W : World.
Variable reqBody : list (string * value).

Lemma run_not_string :
  typeof (get reqBody "url") <> "string" ->
  run URL W reqBody = (Returns (json 400 (Failure requiredMessage)), initial).
Proof.
  unfold run, audit. intros H.
  destruct (get reqBody "url"); try reflexivity.
  - now destruct (truthy (Bool b)).
  - now destruct (truthy (Number x)).
  - now contradiction H.
Qed.

Lemma run_falsy :
  truthy (get reqBody "url") = false ->
  run URL W reqBody = (Returns (json 400 (Failure requiredMessage)), initial).
Proof.
  unfold run, audit. now intros ->.
Qed.

Lemma run_string (url : string) :
  get reqBody "url" = Str url -> url <> "" ->
  run URL W reqBody =
  if URL (normalizeUrl url)
  then tryCatch (tryBlock W (normalizeUrl url)) (catchBlock W (normalizeUrl url)) initial
  else (Returns (json 400 (Failure invalidMessage)), initial).
Proof.
  unfold run, audit. intros -> N. cbn [truthy typeof].
  destruct (String.eqb_spec url "") as [->|_]; [now contradiction N|].
  cbn. now destruct (URL (normalizeUrl url)).
Qed.

(** The failures of the browser being [Error]s, the handler always
    replies. *)
Lemma run_replies : exists reply st, run URL W reqBody = (Returns reply, st).
Proof.
  destruct (get reqBody "url") as [| |b|x|url|l|o] eqn:G.
  1-4,6-7: (eexists; eexists; apply run_not_string; rewrite G; discriminate).
  destruct (String.eqb_spec url "") as [->|N].
  - eexists; eexists. apply run_falsy. now rewrite G.
  - rewrite (run_string url G N). destruct (URL (normalizeUrl url)).
    + unfold tryCatch.
      destruct (tryBlock W (normalizeUrl url) initial) as [[reply|e] st1] eqn:T.
      * now exists reply, st1.
      * destruct (catchBlock_replies W (normalizeUrl url) e st1) as [st2 [C _]].
        eexists; eexists. exact C.
    + eexists; eexists. reflexivity.
Qed.

(** A successful reply comes from a [try] block that ran to its end. *)
Lemma run_success (data : AuditData) (st : State) :
  run URL W reqBody = (Returns (json 200 (Success data)), st) ->
  exists url,
    get reqBody "url" = Str url /\ url <> "" /\ URL (normalizeUrl url) = true
    /\ tryBlock W (normalizeUrl url) initial = (Returns (json 200 (Success data)), st).
Proof.
  intros H.
  destruct (get reqBody "url") as [| |b|x|url|l|o] eqn:G.
  1-4,6-7: (rewrite run_not_string in H by (rewrite G; discriminate); discriminate).
  destruct (String.eqb_spec url "") as [->|N].
  - rewrite run_falsy in H by now rewrite G. discriminate.
  - rewrite (run_string url G N) in H. exists url.
    destruct (URL (normalizeUrl url)); [|discriminate].
    repeat split; try assumption. unfold tryCatch in H.
    destruct (tryBlock W (normalizeUrl url) initial) as [[reply|e] st1] eqn:T.
    + exact H.
    + destruct (catchBlock_replies W (normalizeUrl url) e st1) as [st2 [C _]].
      rewrite C in H. discriminate.
Qed.

End Run.

End RunFacts.

(* ================================================================== *)
(** ** The primitives of the handler against their meaning *)

Module MeaningFacts.
Import Spec Meaning StrFacts NormalizeFacts RegexFacts Audit.

(** *** Characters *)

Lemma member_app (c : ascii) (l r : string) :
  member c (l ++ r) <-> member c l \/ member c r.
Proof.
  induction l as [|d l IH]; simpl; [tauto|]. rewrite IH. tauto.
Qed.

Lemma member_includes (c : ascii) (s : string) :
  member c s <-> Str.includes s (String c EmptyString) = true.
Proof.
  induction s as [|d s IH].
  - simpl. split; [tauto | discriminate].
  - cbn [member Str.includes String.prefix]. rewrite orb_true_iff, <- IH.
    destruct (ascii_dec c d) as [->|N].
    + split; [intros _; left; now destruct s | now left].
    + split; [intros [E|H]; [contradiction | now right]
             | intros [E|H]; [discriminate | now right]].
Qed.

Lemma white_code (c : ascii) :
  existsb (N.eqb (N_of_ascii c)) whiteSpaceCodes = Str.isWhiteSpace c.
Proof. destruct c as [[] [] [] [] [] [] [] []]; reflexivity. Qed.

(** The white space of the handler's [trim] is the white space of the
    language. *)
Lemma isWhiteSpace_white (c : ascii) :
  Str.isWhiteSpace c = true <-> IsWhite c.
Proof.
  rewrite <- white_code, existsb_exists. unfold IsWhite. split.
  - intros [n [Hin E]]. apply N.eqb_eq in E. now rewrite E.
  - intros H. exists (N_of_ascii c). split; [exact H | apply N.eqb_refl].
Qed.

Lemma isWhiteSpace_not_white (c : ascii) :
  Str.isWhiteSpace c = false <-> ~ IsWhite c.
Proof.
  rewrite <- isWhiteSpace_white. destruct (Str.isWhiteSpace c); split; congruence.
Qed.

Lemma all_white (s : string) :
  Str.all Str.isWhiteSpace s = true <-> AllWhite s.
Proof.
  unfold AllWhite. induction s as [|d s IH]; simpl.
  - split; [intros _ c [] | reflexivity].
  - rewrite andb_true_iff, IH, isWhiteSpace_white. split.
    + intros [Hd Hs] c [->|H]; [exact Hd | now apply Hs].
    + intros H. split; [apply H; now left | intros c Hc; apply H; now right].
Qed.

Lemma notSpace_white (o : option ascii) :
  notSpace o <-> (forall c, o = Some c -> ~ IsWhite c).
Proof.
  destruct o as [d|]; simpl.
  - rewrite isWhiteSpace_not_white. split.
    + now intros H c [= <-].
    + intros H. now apply H.
  - split; [discriminate | trivial].
Qed.

(** *** Trimming *)

Lemma trim_of (s : string) : TrimOf s (Str.trim s).
Proof.
  destruct (trim_trimmed s) as [[l [r [E [Hl Hr]]]] [F L]].
  split; [|split].
  - exists l, r. now rewrite <- !all_white.
  - now apply notSpace_white.
  - now apply notSpace_white.
Qed.

Lemma trimStart_white (l u : string) :
  AllWhite l -> Str.trimStart (l ++ u) = Str.trimStart u.
Proof.
  intros H. apply all_white in H. induction l as [|c l IH]; [reflexivity|].
  simpl in *. apply andb_true_iff in H. destruct H as [Hc Hl].
  rewrite Hc. now apply IH.
Qed.

Lemma trimStart_all_white (r : string) :
  AllWhite r -> Str.trimStart r = EmptyString.
Proof.
  intros H. apply all_white in H. induction r as [|c r IH]; [reflexivity|].
  simpl in *. apply andb_true_iff in H. destruct H as [Hc Hr].
  rewrite Hc. now apply IH.
Qed.

Lemma trimEnd_all_white (r : string) : AllWhite r -> Str.trimEnd r = EmptyString.
Proof.
  intros H. apply all_white in H. induction r as [|c r IH]; [reflexivity|].
  simpl in *. apply andb_true_iff in H. destruct H as [Hc Hr].
  rewrite (IH Hr). now rewrite Hc.
Qed.

Lemma trimEnd_white (t r : string) :
  AllWhite r -> Str.trimEnd (t ++ r) = Str.trimEnd t.
Proof.
  intros H. induction t as [|c t IH]; simpl.
  - now apply trimEnd_all_white.
  - now rewrite IH.
Qed.

(** What [trim] returns is the only string that is the input without the
    white space at its two ends. *)
Lemma trim_of_unique (s t : string) : TrimOf s t -> t = Str.trim s.
Proof.
  intros [[l [r [-> [Hl Hr]]]] [F L]].
  apply notSpace_white in F, L.
  unfold Str.trim. rewrite trimStart_white by exact Hl.
  destruct t as [|c t].
  - cbn [append]. now rewrite trimStart_all_white.
  - simpl in F. cbn [append Str.trimStart]. rewrite F.
    change (String c (t ++ r)) with (String c t ++ r)%string.
    rewrite trimEnd_white by exact Hr. symmetry. now apply trimEnd_fixed.
Qed.

(** *** Letter case *)

Lemma lowerCase_toUpper (c : ascii) : lowerCase (Str.toUpper c) = lowerCase c.
Proof. destruct c as [[] [] [] [] [] [] [] []]; reflexivity. Qed.

Lemma toUpper_lowerCase (c : ascii) : Str.toUpper (lowerCase c) = Str.toUpper c.
Proof. destruct c as [[] [] [] [] [] [] [] []]; reflexivity. Qed.

(** Two characters that the [i] flag identifies are the same letter. *)
Lemma same_case (x y : ascii) :
  Str.toUpper x = Str.toUpper y <-> lowerCase x = lowerCase y.
Proof.
  split; intros H.
  - now rewrite <- (lowerCase_toUpper x), H, lowerCase_toUpper.
  - now rewrite <- (toUpper_lowerCase x), H, toUpper_lowerCase.
Qed.

Lemma prefix_case (p s : string) :
  String.prefix (upcase p) (upcase s) = String.prefix (lower p) (lower s).
Proof.
  revert p. induction s as [|b s IH]; intros [|a p]; try reflexivity.
  cbn [upcase lower String.prefix].
  destruct (ascii_dec (Str.toUpper a) (Str.toUpper b)) as [E|N];
    destruct (ascii_dec (lowerCase a) (lowerCase b)) as [E'|N'].
  - apply IH.
  - apply same_case in E. contradiction.
  - apply same_case in E'. contradiction.
  - reflexivity.
Qed.

(** The scheme test of the handler is the test for a scheme, the case of
    the letters set aside. *)
Lemma hasScheme_schemed (s : string) : hasScheme s = true <-> Schemed s.
Proof.
  unfold hasScheme, Schemed.
  change "HTTP://" with (upcase "http://").
  change "HTTPS://" with (upcase "https://").
  rewrite !prefix_case, orb_true_iff, !prefix_begins. reflexivity.
Qed.

Lemma matches_schemed (s : string) :
  Regex.matchesAtStart schemeRegex s = true <-> Schemed s.
Proof. rewrite scheme_hasScheme. apply hasScheme_schemed. Qed.

End MeaningFacts.

(* ================================================================== *)
(** ** The matcher finds the greedy match, and misses none *)

Module GreedyFacts.
Import Spec Meaning StrFacts RegexFacts MeaningFacts Audit.

(** *** Strings *)

Lemma split_at (n : nat) (s : string) : s = (Str.take n s ++ Str.drop n s)%string.
Proof.
  revert s. induction n as [|n IH]; intros [|c s]; simpl; try reflexivity.
  now rewrite <- IH.
Qed.

Lemma take_zero (s : string) : Str.take 0 s = EmptyString.
Proof. now destruct s. Qed.

Lemma drop_app (w rest : string) : Str.drop (String.length w) (w ++ rest) = rest.
Proof. induction w as [|c w IH]; simpl; [now destruct rest | exact IH]. Qed.

Lemma append_assoc_r (u v w : string) : ((u ++ v) ++ w = u ++ (v ++ w))%string.
Proof. induction u as [|c u IH]; simpl; [reflexivity | now rewrite IH]. Qed.

Lemma append_same_length (w w' r r' : string) :
  (w ++ r = w' ++ r')%string -> String.length w = String.length w' ->
  w = w' /\ r = r'.
Proof.
  revert w'. induction w as [|c w IH]; intros [|c' w'] E L; simpl in *;
    try discriminate.
  - now split.
  - injection E as -> E. injection L as L.
    destruct (IH w' E L) as [-> ->]. now split.
Qed.

Lemma all_member (f : ascii -> bool) (w : string) :
  Str.all f w = true <-> (forall c, member c w -> f c = true).
Proof.
  induction w as [|d w IH]; simpl.
  - split; [intros _ c [] | reflexivity].
  - rewrite andb_true_iff, IH. split.
    + intros [Hd Hw] c [->|H]; [exact Hd | now apply Hw].
    + intros H. split; [apply H; now left | intros c Hc; apply H; now right].
Qed.

(** *** Runs *)

Section Runs.
Variable a : Regex.atom.
Variable b : block.
Hypothesis R : Reads a b.

(** No run of the block is longer than what the atom takes first. *)
Lemma run_longest (w rest : string) (taken : nat) :
  (forall c, member c w -> chars b c) ->
  withinMax (atMost b) (taken + String.length w) ->
  taken + String.length w <= Regex.run a taken (w ++ rest).
Proof.
  destruct R as [Rc [_ Rmax]]. revert taken.
  induction w as [|c w IH]; intros taken Hc Hm;
    cbn [append String.length Regex.run] in *.
  - rewrite Nat.add_0_r. apply run_ge.
  - assert (Hcap : Regex.capped (Regex.rmax a) taken = false).
    { unfold Regex.capped. rewrite Rmax.
      destruct (atMost b) as [m|]; [|reflexivity].
      simpl in Hm. apply Nat.leb_gt. lia. }
    assert (Hcc : Regex.cls a c = true) by (apply Rc, Hc; now left).
    rewrite Hcap, Hcc.
    replace (taken + S (String.length w)) with (S taken + String.length w) in * by lia.
    apply IH; [|exact Hm]. intros d Hd. apply Hc. now right.
Qed.

Lemma run_covers (w rest : string) :
  Run b w -> String.length w <= Regex.run a 0 (w ++ rest).
Proof.
  intros [Hc [_ Hm]]. now apply (run_longest w rest 0).
Qed.

(** Whatever the atom may take is a run of the block. *)
Lemma taken_is_run (j : nat) (s : string) :
  Regex.rmin a <= j -> j <= Regex.run a 0 s ->
  Run b (Str.take j s) /\ String.length (Str.take j s) = j.
Proof.
  destruct R as [Rc [Rmin Rmax]]. intros Hlo Hhi.
  pose proof (run_length a 0 s) as Hr. simpl in Hr.
  assert (L : String.length (Str.take j s) = j) by (apply length_take; lia).
  split; [|exact L]. split; [|split].
  - assert (A : Str.all (Regex.cls a) (Str.take j s) = true).
    { apply (all_take_le _ j (Regex.run a 0 s)); [exact Hhi|].
      pose proof (run_chars a 0 s) as Hc. now rewrite Nat.sub_0_r in Hc. }
    intros c Hc. apply Rc. revert c Hc. now apply all_member.
  - rewrite L, <- Rmin. exact Hlo.
  - rewrite L, <- Rmax. apply (withinMax_le _ j (Regex.run a 0 s)); [exact Hhi|].
    apply run_max. destruct (Regex.rmax a); simpl; [lia | exact I].
Qed.

End Runs.

(** *** Giving back *)

Lemma giveBack_none (k : nat -> option nat) (lo n : nat) :
  Regex.giveBack k lo n = None -> forall j, lo <= j -> j <= n -> k j = None.
Proof.
  induction n as [|n IH]; simpl.
  - destruct (0 <? lo) eqn:L.
    + apply Nat.ltb_lt in L. intros _ j H1 H2. lia.
    + destruct (k 0) as [m|] eqn:K; [discriminate|].
      intros _ j H1 H2. now replace j with 0 by lia.
  - destruct (S n <? lo) eqn:L.
    + apply Nat.ltb_lt in L. intros _ j H1 H2. lia.
    + destruct (k (S n)) as [m|] eqn:K; [discriminate|].
      intros H j H1 H2. destruct (Nat.eq_dec j (S n)) as [->|N]; [exact K|].
      apply IH; [exact H | exact H1 | lia].
Qed.

Lemma giveBack_first (k : nat -> option nat) (lo n r : nat) :
  Regex.giveBack k lo n = Some r ->
  exists j m, lo <= j /\ j <= n /\ k j = Some m /\ r = j + m
              /\ forall j', j < j' -> j' <= n -> k j' = None.
Proof.
  induction n as [|n IH]; simpl.
  - destruct (0 <? lo) eqn:L; [discriminate|]. apply Nat.ltb_ge in L.
    destruct (k 0) as [m|] eqn:K; [|discriminate].
    intros [= <-]. exists 0, m. repeat split; try lia. exact K.
  - destruct (S n <? lo) eqn:L; [discriminate|]. apply Nat.ltb_ge in L.
    destruct (k (S n)) as [m|] eqn:K.
    + intros [= <-]. exists (S n), m. repeat split; try lia. exact K.
    + intros H. destruct (IH H) as [j [m [H1 [H2 [H3 [H4 H5]]]]]].
      exists j, m. repeat split; try lia; try exact H3.
      intros j' Hj Hn. destruct (Nat.eq_dec j' (S n)) as [->|N]; [exact K|].
      apply H5; lia.
Qed.

(** *** The match at a position *)

(** The matcher returns the greedy match when there is one, and reports
    a miss only where no word of the pattern stands. *)
Lemma matchHere_greedy (p : Regex.pattern) (bs : list block) :
  Forall2 Reads p bs ->
  forall s,
    match Regex.matchHere p s with
    | Some n => n <= String.length s /\ Greedy bs s (Str.take n s)
    | None => ~ MatchesAtHead bs s
    end.
Proof.
  induction 1 as [|a b p bs R _ IH]; intros s.
  - cbn [Regex.matchHere]. split; [lia|]. rewrite take_zero. constructor.
  - cbn [Regex.matchHere].
    destruct (Regex.giveBack (fun n => Regex.matchHere p (Str.drop n s))
                (Regex.rmin a) (Regex.run a 0 s)) as [r|] eqn:G.
    + apply giveBack_first in G.
      destruct G as [j [m [Hlo [Hhi [Hk [-> Hmax]]]]]].
      pose proof (IH (Str.drop j s)) as Hrest. rewrite Hk in Hrest.
      destruct Hrest as [Hm Hg].
      destruct (taken_is_run a b R j s Hlo Hhi) as [Hrun Hlen].
      pose proof (run_length a 0 s) as Hr. simpl in Hr.
      rewrite length_drop in Hm. split; [lia|].
      rewrite take_add.
      apply GreedyCons with (rest := Str.drop j s).
      * apply split_at.
      * exact Hrun.
      * exact Hg.
      * intros w' rest' E Hrun' Hlt. rewrite Hlen in Hlt.
        assert (Hle : String.length w' <= Regex.run a 0 s).
        { rewrite E. now apply (run_covers a b R). }
        pose proof (Hmax (String.length w') Hlt Hle) as Hnone.
        rewrite E, drop_app in Hnone.
        pose proof (IH rest') as Hmiss. now rewrite Hnone in Hmiss.
    + intros [e [rest [E Hw]]].
      inversion Hw as [|b' bs' w v Hrun Hv]; subst.
      rewrite append_assoc_r in G.
      assert (Hle : String.length w <= Regex.run a 0 (w ++ v ++ rest)).
      { now apply (run_covers a b R). }
      assert (Hlo : Regex.rmin a <= String.length w).
      { destruct R as [_ [-> _]]. now destruct Hrun as [_ [Hl _]]. }
      pose proof (giveBack_none _ _ _ G (String.length w) Hlo Hle) as Hnone.
      cbv beta in Hnone. rewrite drop_app in Hnone.
      pose proof (IH (v ++ rest)%string) as Hmiss. rewrite Hnone in Hmiss.
      apply Hmiss. now exists v, rest.
Qed.

(** The greedy match is a word of the pattern at the head of the string. *)
Lemma greedy_word (bs : list block) (s e : string) :
  Greedy bs s e -> exists rest, s = (e ++ rest)%string /\ Word bs e.
Proof.
  induction 1 as [s | b bs s w rest v E Hrun _ IH _].
  - exists s. split; [reflexivity | constructor].
  - destruct IH as [rest' [E' Hw]]. exists rest'. split.
    + now rewrite E, E', append_assoc_r.
    + now constructor.
Qed.

Lemma greedy_matches (bs : list block) (s e : string) :
  Greedy bs s e -> MatchesAtHead bs s.
Proof.
  intros H. apply greedy_word in H. destruct H as [rest [E Hw]].
  now exists e, rest.
Qed.

(** There is one greedy match at most. *)
Lemma greedy_unique (bs : list block) (s e e' : string) :
  Greedy bs s e -> Greedy bs s e' -> e = e'.
Proof.
  intros H. revert e'.
  induction H as [s | b bs s w rest v E Hrun Hg IH Hmax]; intros e' H'.
  - now inversion H'.
  - inversion H' as [|b0 bs0 s0 w0 rest0 v0 E0 Hrun0 Hg0 Hmax0]; subst.
    destruct (Nat.lt_trichotomy (String.length w) (String.length w0)) as [L|[L|L]].
    + exfalso. apply (Hmax w0 rest0 E0 Hrun0 L). now apply greedy_matches in Hg0.
    + destruct (append_same_length _ _ _ _ E0 L) as [-> ->].
      now rewrite (IH v0 Hg0).
    + exfalso. apply (Hmax0 w rest eq_refl Hrun L). now apply greedy_matches in Hg.
Qed.

(** *** The global search *)

Lemma global_found (p : Regex.pattern) (bs : list block) (s : string)
      (ms : list string) :
  Forall2 Reads p bs -> GlobalMatches p s ms -> Found bs s ms.
Proof.
  intros R. induction 1 as [n H | H | c r ms H _ IH | c r ms H _ IH | c r n ms H _ IH].
  - pose proof (matchHere_greedy p bs R EmptyString) as G. rewrite H in G.
    destruct G as [_ G]. apply FoundEndHit. now destruct n.
  - pose proof (matchHere_greedy p bs R EmptyString) as G. rewrite H in G.
    now apply FoundEndMiss.
  - pose proof (matchHere_greedy p bs R (String c r)) as G. rewrite H in G.
    now apply FoundMiss.
  - pose proof (matchHere_greedy p bs R (String c r)) as G. rewrite H in G.
    destruct G as [_ G]. now apply FoundEmpty.
  - pose proof (matchHere_greedy p bs R (String c r)) as G. rewrite H in G.
    destruct G as [_ G].
    apply FoundHit with (rest := Str.drop (S n) (String c r)).
    + exact G.
    + discriminate.
    + apply split_at.
    + exact IH.
Qed.

(** The matches of a global search are determined by the string. *)
Lemma found_unique (bs : list block) (s : string) (ms ms' : list string) :
  Found bs s ms -> Found bs s ms' -> ms = ms'.
Proof.
  intros H. revert ms'.
  induction H as [M | G | c r ms M _ IH | c r ms G _ IH | s e rest ms G Ne E _ IH];
    intros ms' H'.
  - inversion H' as [ | G' | | | s0 e0 rest0 ms0 G0 Ne0 E0 F0]; subst.
    + reflexivity.
    + exfalso. apply M. now apply greedy_matches in G'.
    + exfalso. apply M. now apply greedy_matches in G0.
  - inversion H' as [M' | | | | s0 e0 rest0 ms0 G0 Ne0 E0 F0]; subst.
    + exfalso. apply M'. now apply greedy_matches in G.
    + reflexivity.
    + exfalso. apply Ne0. now apply (greedy_unique bs EmptyString).
  - inversion H' as [ | | c0 r0 ms0 M0 F0 | c0 r0 ms0 G0 F0
                      | s0 e0 rest0 ms0 G0 Ne0 E0 F0]; subst.
    + now apply IH.
    + exfalso. apply M. now apply greedy_matches in G0.
    + exfalso. apply M. now apply greedy_matches in G0.
  - inversion H' as [ | | c0 r0 ms0 M0 F0 | c0 r0 ms0 G0 F0
                      | s0 e0 rest0 ms0 G0 Ne0 E0 F0]; subst.
    + exfalso. apply M0. now apply greedy_matches in G.
    + f_equal. now apply IH.
    + exfalso. apply Ne0. now apply (greedy_unique bs (String c r)).
  - assert (Same : forall e0 rest0 ms0,
               Greedy bs s e0 -> s = (e0 ++ rest0)%string -> Found bs rest0 ms0 ->
               e :: ms = e0 :: ms0).
    { intros e0 rest0 ms0 G0 E0 F0.
      pose proof (greedy_unique _ _ _ _ G G0) as <-.
      rewrite E in E0.
      destruct (append_same_length _ _ _ _ E0 eq_refl) as [_ <-].
      f_equal. now apply IH. }
    destruct s as [|c0 r0].
    + inversion H' as [M0 | G0 | | | s0 e0 rest0 ms0 G0 Ne0 E0 F0]; subst.
      * exfalso. apply M0. now apply greedy_matches in G.
      * exfalso. apply Ne. now apply (greedy_unique bs EmptyString).
      * now apply (Same e0 rest0).
    + inversion H' as [ | | c1 r1 ms0 M0 F0 | c1 r1 ms0 G0 F0
                        | s0 e0 rest0 ms0 G0 Ne0 E0 F0]; subst.
      * exfalso. apply M0. now apply greedy_matches in G.
      * exfalso. apply Ne. now apply (greedy_unique bs (String c0 r0)).
      * now apply (Same e0 rest0).
Qed.

End GreedyFacts.

(* ================================================================== *)
(** ** The email pattern of the handler, read as blocks *)

Module PatternFacts.
Import Spec Meaning StrFacts RegexFacts MeaningFacts GreedyFacts Js Audit.

Lemma lower_range (c : ascii) :
  Str.isLower c = Str.includes lowerLetters (String c EmptyString).
Proof. destruct c as [[] [] [] [] [] [] [] []]; reflexivity. Qed.

Lemma upper_range (c : ascii) :
  Str.isUpper c = Str.includes upperLetters (String c EmptyString).
Proof. destruct c as [[] [] [] [] [] [] [] []]; reflexivity. Qed.

Lemma digit_range (c : ascii) :
  Str.isDigit c = Str.includes digits (String c EmptyString).
Proof. destruct c as [[] [] [] [] [] [] [] []]; reflexivity. Qed.

Lemma oneOf_member (cs : string) (c : ascii) :
  Regex.oneOf cs c = true <-> member c cs.
Proof. unfold Regex.oneOf. symmetry. apply member_includes. Qed.

(** [[a-zA-Z]] is the set of the letters. *)
Lemma letterClass_letter (c : ascii) : letterClass c = true <-> IsLetter c.
Proof.
  unfold letterClass, IsLetter.
  rewrite orb_true_iff, lower_range, upper_range, <- !member_includes.
  reflexivity.
Qed.

(** [[a-zA-Z0-9._%+-]] is the set of the letters, the digits and
    [._%+-]. *)
Lemma localClass_local (c : ascii) : localClass c = true <-> IsLocal c.
Proof.
  unfold localClass, IsLocal, IsLetter, IsDigit.
  rewrite !orb_true_iff, lower_range, upper_range, digit_range, oneOf_member,
    <- !member_includes.
  tauto.
Qed.

(** [[a-zA-Z0-9.-]] is the set of the letters, the digits and [.-]. *)
Lemma domainClass_domain (c : ascii) : domainClass c = true <-> IsDomain c.
Proof.
  unfold domainClass, IsDomain, IsLetter, IsDigit.
  rewrite !orb_true_iff, lower_range, upper_range, digit_range, oneOf_member,
    <- !member_includes.
  tauto.
Qed.

Lemma chr_is (d c : ascii) : Regex.chr d c = true <-> Is d c.
Proof. unfold Regex.chr, Is. apply Ascii.eqb_eq. Qed.

Lemma emailRegex_reads : Forall2 Reads emailRegex emailPattern.
Proof.
  unfold emailRegex, emailPattern.
  repeat (apply Forall2_cons; [split; [|split; reflexivity]|]);
    [ apply localClass_local | apply chr_is | apply domainClass_domain
    | apply chr_is | apply letterClass_letter | apply Forall2_nil ].
Qed.

(** What the handler collects from a markup is what a global search for
    the email pattern finds in it, and nothing else is. *)
Lemma matchAll_found (content : string) (ms : list string) :
  Found emailPattern content ms
  <-> ms = orElse (Regex.matchAll emailRegex content) [].
Proof.
  assert (F : Found emailPattern content
                (orElse (Regex.matchAll emailRegex content) [])).
  { apply (global_found emailRegex); [apply emailRegex_reads|].
    apply matchAll_global. }
  split.
  - intros H. now apply (found_unique emailPattern content).
  - now intros ->.
Qed.

End PatternFacts.

(* ================================================================== *)
(** ** Properties of the audit endpoint *)

Module AuditProperties.
Import Spec StrFacts NormalizeFacts RegexFacts EmailFacts NumFacts Js Audit HandlerFacts RunFacts.
Import Meaning MeaningFacts GreedyFacts PatternFacts.

(** *** Error classification *)

Lemma classified_errorMessageOf (e : Js.error) : Classified e (errorMessageOf e).
Proof.
  unfold errorMessageOf.
  destruct (String.eqb_spec (name e) "TimeoutError") as [T|T];
    [now apply ClassTimeout|].
  destruct (Str.includes (message e) "net::ERR_NAME_NOT_RESOLVED") eqn:D.
  { apply ClassDomain; [exact T | now apply includes_contains]. }
  destruct (Str.includes (message e) "net::ERR_CONNECTION_REFUSED") eqn:R.
  { apply ClassRefused; [exact T | now apply includes_false
                         | now apply includes_contains]. }
  destruct (Str.includes (message e) "net::ERR_CERT") eqn:C.
  { apply ClassCert; [exact T | now apply includes_false | now apply includes_false
                      | now apply includes_contains]. }
  destruct (Str.includes (message e) "net::ERR_BLOCKED_BY_CLIENT") eqn:B.
  { apply ClassBlocked; [exact T | now apply includes_false | now apply includes_false
                         | now apply includes_false | now apply includes_contains]. }
  apply ClassUnknown; [exact T | now apply includes_false ..].
Qed.

Lemma classified_unique (e : Js.error) (m : string) :
  Classified e m -> m = errorMessageOf e.
Proof.
  unfold errorMessageOf.
  intros H; inversion H; subst;
    repeat match goal with
           | H : name e = _ |- _ => rewrite H; clear H
           | H : name e <> _ |- _ => apply String.eqb_neq in H; rewrite H; clear H
           | H : Contains _ _ |- _ => apply includes_contains in H; rewrite H; clear H
           | H : ~ Contains _ _ |- _ => apply includes_false in H; rewrite H; clear H
           end; reflexivity.
Qed.

Lemma errorMessageOf_six (e : Js.error) : In (errorMessageOf e) sixMessages.
Proof.
  unfold errorMessageOf, sixMessages.
  repeat match goal with
         | |- context [if ?b then _ else _] => destruct b
         end; simpl; tauto.
Qed.

(** C1.  Every error thrown in the [try] block of the /audit handler, that
    is during or after the acquisition of the page, is answered with
    status 200 and [{success: false, error}], where [error] is one of the
    six fixed messages, the one the classification by precedence selects
    (timeout by name, then unresolved domain, connection refused,
    certificate error and client block by the content of the message, else
    unknown), and no other. *)
Theorem caught_error_reply
        (URL : string -> bool) (W : World) (reqBody : list (string * value))
        (url : string) (e : Js.error) (st1 : State) :
  get reqBody "url" = Str url -> url <> "" -> URL (normalizeUrl url) = true ->
  tryBlock W (normalizeUrl url) initial = (Throws e, st1) ->
  (exists st2,
      run URL W reqBody = (Returns (json 200 (Failure (errorMessageOf e))), st2))
  /\ In (errorMessageOf e) sixMessages
  /\ (forall m, Classified e m <-> m = errorMessageOf e).
Proof.
  intros G N U T. repeat split.
  - rewrite (run_string URL W reqBody url G N), U. unfold tryCatch. rewrite T.
    destruct (catchBlock_replies W (normalizeUrl url) e st1) as [st2 [C _]].
    now exists st2.
  - apply errorMessageOf_six.
  - apply classified_unique.
  - intros ->. apply classified_errorMessageOf.
Qed.

Lemma caught_error_reply_witness :
  (exists st2,
      run UrlRef.hostPresent Examples.unresolvedWorld [("url", Str "nx.example")]
      = (Returns (json 200 (Failure "Domain does not exist")), st2))
  /\ In "Domain does not exist" sixMessages
  /\ (forall m, Classified Examples.unresolved m <-> m = "Domain does not exist").
Proof.
  eapply (caught_error_reply UrlRef.hostPresent Examples.unresolvedWorld
            [("url", Str "nx.example")] "nx.example" Examples.unresolved).
  - reflexivity.
  - discriminate.
  - reflexivity.
  - reflexivity.
Defined.

(** *** The [ssl] field *)

(** C2.  In a successful audit the [ssl] field follows the policy of step
    6 on the normalized URL [u], the latch and the security details of
    the response: it is [false] whenever [u] does not start with
    [https://]; for an [https://] URL with no SSL failure latched it is
    [true] exactly when reading the security details yields a non-null
    value, and [true] when the read throws; for an [https://] URL with a
    failure latched it is [true]. *)
Theorem ssl_field
        (URL : string -> bool) (W : World) (reqBody : list (string * value))
        (data : AuditData) (st : State) :
  run URL W reqBody = (Returns (json 200 (Success data)), st) ->
  exists url resp,
    get reqBody "url" = Str url
    /\ w_goto W (normalizeUrl url) = Returns resp
    /\ truthyStr (latchAfter (w_requestfailed W) initial)
       = existsb isSslText (w_requestfailed W)
    /\ ssl data = sslPolicy (normalizeUrl url)
                    (existsb isSslText (w_requestfailed W)) (detailsRead resp)
    /\ (Str.startsWith (normalizeUrl url) "https://" = false -> ssl data = false)
    /\ (Str.startsWith (normalizeUrl url) "https://" = true ->
        existsb isSslText (w_requestfailed W) = false ->
        (forall d, detailsRead resp = Returns d -> (ssl data = true <-> d <> None))
        /\ (forall e, detailsRead resp = Throws e -> ssl data = true))
    /\ (Str.startsWith (normalizeUrl url) "https://" = true ->
        existsb isSslText (w_requestfailed W) = true -> ssl data = true).
Proof.
  intros H. apply run_success in H. destruct H as [url [G [N [U T]]]].
  apply tryBlock_returns in T.
  destruct T as [resp [content [h1 [_ [Hg [_ [_ [_ [Hr _]]]]]]]]].
  injection Hr as ->.
  exists url, resp. cbn [ssl]. unfold Str.startsWith.
  split; [exact G|]. split; [exact Hg|].
  split.
  { unfold latchAfter. rewrite forEach_listener. cbn. apply latch_truthy. }
  split; [reflexivity|].
  unfold sslPolicy.
  split; [now intros ->|].
  split; [|now intros -> ->].
  intros -> ->. cbn. split.
  - intros d ->. destruct d; split; congruence.
  - now intros e ->.
Qed.

Lemma ssl_field_witness :
  exists url resp,
    get [("url", Str "example.com")] "url" = Str url
    /\ w_goto (Examples.quietWorld "<h1>Hello</h1>") (normalizeUrl url) = Returns resp
    /\ truthyStr (latchAfter (w_requestfailed (Examples.quietWorld "<h1>Hello</h1>")) initial)
       = false
    /\ true = sslPolicy (normalizeUrl url) false (detailsRead resp)
    /\ (Str.startsWith (normalizeUrl url) "https://" = false -> true = false)
    /\ (Str.startsWith (normalizeUrl url) "https://" = true ->
        false = false ->
        (forall d, detailsRead resp = Returns d -> (true = true <-> d <> None))
        /\ (forall e, detailsRead resp = Throws e -> true = true))
    /\ (Str.startsWith (normalizeUrl url) "https://" = true ->
        false = true -> true = true).
Proof.
  eapply (ssl_field UrlRef.hostPresent (Examples.quietWorld "<h1>Hello</h1>")
            [("url", Str "example.com")]
            (mkData [] 123 true 2)).
  vm_compute. reflexivity.
Defined.

(** *** Release of the page session *)

(** How many times a run calls [page.close()]: never when no page was
    acquired; otherwise once, except when the [try] block reaches its own
    [page.close()] (line 148) and that call throws: the [catch] block then
    closes a second time and the reply is the failure classified from the
    close error. *)
Lemma close_count
      (URL : string -> bool) (W : World) (reqBody : list (string * value))
      (reply : outcome Reply) (st : State) :
  run URL W reqBody = (reply, st) ->
  (page st = None /\ closeCalls st = 0)
  \/ (page st = Some tt /\ closeCalls st = 1)
  \/ (page st = Some tt /\ closeCalls st = 2
      /\ exists e, w_close W 0 = Throws e
                   /\ reply = Returns (json 200 (Failure (errorMessageOf e)))).
Proof.
  intros H.
  destruct (get reqBody "url") as [| |b|x|url|l|o] eqn:G.
  1-4,6-7: (rewrite run_not_string in H by (rewrite G; discriminate);
            injection H as <- <-; now left).
  destruct (String.eqb_spec url "") as [->|N].
  { rewrite run_falsy in H by now rewrite G. injection H as <- <-. now left. }
  rewrite (run_string URL W reqBody url G N) in H.
  destruct (URL (normalizeUrl url)); [|injection H as <- <-; now left].
  unfold tryCatch in H.
  destruct (tryBlock W (normalizeUrl url) initial) as [[r|e] st1] eqn:T.
  - injection H as <- <-. apply tryBlock_returns in T.
    destruct T as [resp [content [h1 [_ [_ [_ [_ [_ [_ [Ht Hp]]]]]]]]]].
    right. left. split; [exact Hp|].
    unfold closeCalls. rewrite Ht. unfold successTrace. cbn [initial trace app].
    rewrite ?filter_app, ?length_app.
    now destruct (isSSL _ && _ && _).
  - destruct (catchBlock_replies W (normalizeUrl url) e st1) as [st2 [C [P [K _]]]].
    rewrite C in H. injection H as <- <-.
    apply tryBlock_throws in T. change (closeCalls initial) with 0 in T.
    change (page initial) with (@None unit) in T.
    destruct T as [[_ [P1 K1]] | [[_ [P1 K1]] | [_ [P1 [K1 E]]]]];
      rewrite P1 in K, P; rewrite K1 in K; cbn in K.
    + now left.
    + right. left. now split.
    + right. right. repeat split; try assumption. now exists e.
Qed.

(** C3, at the input where the handler departs from it.  Every call of the
    browser returns, except the [page.close()] of the [try] block, which
    throws: the failure of the close is not contained, it is handled as a
    failure of the audit.  The page is closed twice, and the caller
    receives "Unknown error during audit" in place of the audit result
    that was ready. *)
Theorem close_failure_after_success :
  run UrlRef.hostPresent Examples.closeFailsWorld [("url", Str "example.com")]
  = (Returns (json 200 (Failure "Unknown error during audit")),
     mkState (Some tt) None 2
       [EvNewPage; EvSetUserAgent userAgent; EvSetRequestInterception true;
        EvGoto "https://example.com"; EvSecurityDetails; EvContent; EvEvalH1;
        EvClose;
        EvConsoleError ["Audit failed for"; "https://example.com"; ":";
                        "Protocol error (Target.closeTarget): Target closed."];
        EvClose])
  /\ closeCalls
       (snd (run UrlRef.hostPresent Examples.closeFailsWorld
                 [("url", Str "example.com")])) = 2.
Proof. split; vm_compute; reflexivity. Qed.

(** *** The SSL failure signal *)

(** C4, as the handler has it.  After any sequence of failed sub-requests
    the signal holds the error text of the last failure whose text
    contains "SSL": each such failure overwrites the signal.  Other
    failures leave it as it is, so a signal once set stays set. *)
Theorem ssl_signal_last_wins (errorTexts : list string) (st : State) :
  latchAfter errorTexts st =
  match lastSslFailure errorTexts with
  | Some errorText => Some errorText
  | None => sslError st
  end.
Proof.
  unfold latchAfter. rewrite forEach_listener. reflexivity.
Qed.

(** C4 as worded (the first failure wins) fails on two SSL failures in a
    row: the signal ends with the text of the second. *)
Lemma ssl_signal_not_first :
  firstSslFailure Examples.twoSslFailures = Some "net::ERR_SSL_PROTOCOL_ERROR"
  /\ latchAfter Examples.twoSslFailures initial
     = Some "net::ERR_SSL_VERSION_OR_CIPHER_MISMATCH"
  /\ latchAfter Examples.twoSslFailures initial
     <> firstSslFailure Examples.twoSslFailures.
Proof. repeat split; vm_compute; congruence. Qed.

(** *** Input validation *)

Lemma get_absent (props : list (string * value)) (k : string) :
  hasKey props k = false -> get props k = Undefined.
Proof.
  induction props as [|[k' v] rest IH]; [reflexivity|].
  unfold hasKey in *. cbn [existsb fst get]. intros H.
  apply orb_false_iff in H. destruct H as [H1 H2].
  rewrite H1. cbn. now apply IH.
Qed.

(** C5, as the handler has it.  A request whose body has no [url], or a
    [url] that is not a string, is answered 400 "URL is required and must
    be a string"; a non-empty string [url] whose trimmed, scheme-prefixed
    form the URL constructor rejects is answered 400 "Invalid URL format".
    In both cases the run ends in its initial state: no call on the
    browser was made and no page was acquired. *)
Theorem input_validation
        (URL : string -> bool) (W : World) (reqBody : list (string * value)) :
  (hasKey reqBody "url" = false ->
   run URL W reqBody = (Returns (json 400 (Failure "URL is required and must be a string")),
                        initial))
  /\ (typeof (get reqBody "url") <> "string" ->
      run URL W reqBody = (Returns (json 400 (Failure "URL is required and must be a string")),
                           initial))
  /\ (forall url,
         get reqBody "url" = Str url -> url <> "" ->
         URL (normalizeUrl url) = false ->
         run URL W reqBody = (Returns (json 400 (Failure "Invalid URL format")), initial))
  /\ page initial = None /\ trace initial = [].
Proof.
  repeat split.
  - intros H. apply run_not_string. now rewrite (get_absent _ _ H).
  - apply run_not_string.
  - intros url G N U. now rewrite (run_string URL W reqBody url G N), U.
Qed.

Lemma input_validation_witness :
  run UrlRef.hostPresent (Examples.quietWorld "") []
  = (Returns (json 400 (Failure "URL is required and must be a string")), initial)
  /\ run UrlRef.hostPresent (Examples.quietWorld "") [("url", Number (Finite 42 0))]
     = (Returns (json 400 (Failure "URL is required and must be a string")), initial)
  /\ run UrlRef.hostPresent (Examples.quietWorld "") [("url", Str " ")]
     = (Returns (json 400 (Failure "Invalid URL format")), initial).
Proof.
  split; [|split].
  - apply (proj1 (input_validation UrlRef.hostPresent (Examples.quietWorld "") [])).
    reflexivity.
  - apply (proj1 (proj2 (input_validation UrlRef.hostPresent (Examples.quietWorld "")
                           [("url", Number (Finite 42 0))]))).
    vm_compute. discriminate.
  - apply (proj1 (proj2 (proj2 (input_validation UrlRef.hostPresent
                                  (Examples.quietWorld "") [("url", Str " ")])))
             " ").
    + reflexivity.
    + discriminate.
    + reflexivity.
Defined.

(** C5 as worded fails on the empty string: it is a string, its
    normalized form ["https://"] is rejected by the URL constructor, and
    the reply is not "Invalid URL format". *)
Lemma empty_url_not_invalid_format :
  typeof (Str "") = "string"
  /\ normalizeUrl "" = "https://"
  /\ UrlRef.hostPresent (normalizeUrl "") = false
  /\ fst (run UrlRef.hostPresent (Examples.quietWorld "") [("url", Str "")])
     <> Returns (json 400 (Failure "Invalid URL format")).
Proof. repeat split; vm_compute; congruence. Qed.

(** C9.  A falsy [url] is answered 400 "URL is required and must be a
    string", without any call on the browser; the empty string, although
    a string, is such a value, so it does not get "Invalid URL format". *)
Theorem falsy_url_required
        (URL : string -> bool) (W : World) (reqBody : list (string * value)) :
  truthy (get reqBody "url") = false ->
  run URL W reqBody
  = (Returns (json 400 (Failure "URL is required and must be a string")), initial)
  /\ fst (run URL W reqBody) <> Returns (json 400 (Failure "Invalid URL format"))
  /\ truthy (Str "") = false /\ typeof (Str "") = "string".
Proof.
  intros H. rewrite (run_falsy URL W reqBody H). repeat split. discriminate.
Qed.

Lemma falsy_url_required_witness :
  run UrlRef.hostPresent (Examples.quietWorld "") [("url", Str "")]
  = (Returns (json 400 (Failure "URL is required and must be a string")), initial)
  /\ fst (run UrlRef.hostPresent (Examples.quietWorld "") [("url", Str "")])
     <> Returns (json 400 (Failure "Invalid URL format"))
  /\ truthy (Str "") = false /\ typeof (Str "") = "string".
Proof.
  apply (falsy_url_required UrlRef.hostPresent (Examples.quietWorld "") [("url", Str "")]).
  reflexivity.
Defined.

(** *** Normalization of the URL *)

(** C6.  Normalization trims the input: what [trim] returns is the input
    without the white space at its two ends, and it is the only such
    string; white space is what the language counts as such (TAB, LF, VT,
    FF, CR, SP and NBSP among the code units below 256 of which a [string]
    is made).  ["https://"] is prepended exactly when the trimmed string
    does not begin with [http://] or [https://], the case of the letters
    set aside.  Normalization is idempotent; it leaves ["http://x.com"] as
    it is and turns ["example.com"] into ["https://example.com"], also
    when white space surrounds them, and it keeps the case in which a
    scheme is written. *)
Theorem normalization (url : string) :
  (forall t, TrimOf url t <-> t = Str.trim url)
  /\ (Schemed (Str.trim url) /\ normalizeUrl url = Str.trim url
      \/ ~ Schemed (Str.trim url)
         /\ normalizeUrl url = ("https://" ++ Str.trim url)%string)
  /\ normalizeUrl (normalizeUrl url) = normalizeUrl url
  /\ normalizeUrl "http://x.com" = "http://x.com"
  /\ normalizeUrl "example.com" = "https://example.com"
  /\ normalizeUrl "  example.com  " = "https://example.com"
  /\ normalizeUrl (String "009" (String "160" "example.com" ++ String "013" (String "010" "")))
     = "https://example.com"
  /\ normalizeUrl (String "011" "HtTpS://x.com" ++ String "012" "") = "HtTpS://x.com"
  /\ normalizeUrl "ftp://x.com" = "https://ftp://x.com"
  /\ normalizeUrl "http:/x.com" = "https://http:/x.com".
Proof.
  split; [|split; [|split; [apply normalizeUrl_idem | repeat split]]].
  - intros t. split.
    + apply trim_of_unique.
    + intros ->. apply trim_of.
  - rewrite normalizeUrl_hasScheme.
    destruct (hasScheme (Str.trim url)) eqn:H.
    + left. split; [now apply hasScheme_schemed | reflexivity].
    + right. split; [|reflexivity].
      intros S. apply hasScheme_schemed in S. congruence.
Qed.

Lemma normalization_witness :
  (forall t, TrimOf " x.com " t <-> t = "x.com")
  /\ (Schemed "x.com" /\ normalizeUrl " x.com " = "x.com"
      \/ ~ Schemed "x.com" /\ normalizeUrl " x.com " = "https://x.com").
Proof.
  destruct (normalization " x.com ") as [T [S _]].
  split; [exact T | exact S].
Defined.

(** C10.  When the trimmed input starts with the https scheme written with
    some upper-case letter, normalization returns it as trimmed, the test
    [startsWith("https://")] fails on it, and a successful audit of it
    reports [ssl: false] without reading the security details. *)
Theorem uppercase_https_not_ssl (url : string) :
  String.prefix "HTTPS://" (upcase (Str.trim url)) = true ->
  Str.startsWith (Str.trim url) "https://" = false ->
  normalizeUrl url = Str.trim url
  /\ isSSL (normalizeUrl url) = false
  /\ forall (URL : string -> bool) (W : World) (reqBody : list (string * value))
            (data : AuditData) (st : State),
      get reqBody "url" = Str url ->
      run URL W reqBody = (Returns (json 200 (Success data)), st) ->
      ssl data = false /\ ~ In EvSecurityDetails (trace st).
Proof.
  intros Hup Hlow.
  assert (Hn : normalizeUrl url = Str.trim url).
  { rewrite normalizeUrl_hasScheme. unfold hasScheme. rewrite Hup.
    now rewrite orb_true_r. }
  assert (Hs : isSSL (normalizeUrl url) = false) by now rewrite Hn.
  split; [exact Hn|]. split; [exact Hs|].
  intros URL W reqBody data st Hget Hrun.
  apply run_success in Hrun. destruct Hrun as [url' [G [_ [_ T]]]].
  rewrite Hget in G. injection G as <-.
  apply tryBlock_returns in T.
  destruct T as [resp [content [h1 [_ [_ [_ [_ [_ [Hr [Ht _]]]]]]]]]].
  injection Hr as ->. split.
  - cbn [ssl]. unfold sslPolicy.
    unfold isSSL, Str.startsWith in Hs. now rewrite Hs.
  - rewrite Ht. unfold successTrace. rewrite Hs. cbn.
    intuition discriminate.
Qed.

Lemma uppercase_https_not_ssl_witness :
  normalizeUrl " HTTPS://example.com" = "HTTPS://example.com"
  /\ isSSL (normalizeUrl " HTTPS://example.com") = false
  /\ ssl (mkData [] 123 false 2) = false
  /\ ~ In EvSecurityDetails
         (trace (snd (run UrlRef.hostPresent (Examples.quietWorld "<h1>A</h1><h1>B</h1>")
                          [("url", Str " HTTPS://example.com")]))).
Proof.
  destruct (uppercase_https_not_ssl " HTTPS://example.com" eq_refl eq_refl)
    as [Hn [Hs Hrun]].
  split; [exact Hn|]. split; [exact Hs|].
  apply (Hrun UrlRef.hostPresent (Examples.quietWorld "<h1>A</h1><h1>B</h1>")
              [("url", Str " HTTPS://example.com")]).
  - reflexivity.
  - vm_compute. reflexivity.
Defined.

(** *** Extraction of the emails *)

(** C7.  In a successful audit the [emails] field is obtained from the
    markup of the page.  The matches are those a global search for the
    email pattern finds: a local part of letters, digits and [._%+-], an
    [@], a domain of letters, digits and [.-], a dot and a top-level
    domain of two letters or more, each part as long as the parts after
    it allow; the search goes from left to right and resumes behind each
    match.  The markup determines these matches.  Of equal matches the
    first is kept, and of the result the first five: the field has no
    duplicates and at most five entries.  The markup
    ["a@b.com, a@b.com, c@d.org"] gives ["a@b.com"; "c@d.org"], and a
    markup with seven distinct addresses gives the first five; upper-case
    letters and several labels in the domain are part of a match, a final
    dot is not, and a top-level domain of one letter is no match.  The
    extraction does this on every markup. *)
Theorem emails_field
        (URL : string -> bool) (W : World) (reqBody : list (string * value))
        (data : AuditData) (st : State) :
  run URL W reqBody = (Returns (json 200 (Success data)), st) ->
  (exists content ms,
      w_content W = Returns content
      /\ Found emailPattern content ms
      /\ (forall ms', Found emailPattern content ms' -> ms' = ms)
      /\ emails data = firstn 5 (dedupFirst ms))
  /\ NoDup (emails data)
  /\ List.length (emails data) <= 5
  /\ extractEmails "a@b.com, a@b.com, c@d.org" = ["a@b.com"; "c@d.org"]
  /\ extractEmails Examples.sevenEmails
     = ["a1@x.io"; "a2@x.io"; "a3@x.io"; "a4@x.io"; "a5@x.io"]
  /\ extractEmails "Write to John.Doe@Example.COM." = ["John.Doe@Example.COM"]
  /\ extractEmails "john.doe+tag@mail.example.co.uk, x@y.z"
     = ["john.doe+tag@mail.example.co.uk"]
  /\ (forall markup,
        exists ms, Found emailPattern markup ms
                   /\ extractEmails markup = firstn 5 (dedupFirst ms)).
Proof.
  intros H. apply run_success in H. destruct H as [url [_ [_ [_ T]]]].
  apply tryBlock_returns in T.
  destruct T as [resp [content [h1 [_ [_ [Hc [_ [_ [Hr _]]]]]]]]].
  injection Hr as ->. cbn [emails].
  assert (E : forall markup,
               extractEmails markup
               = firstn 5 (dedupFirst (orElse (Regex.matchAll emailRegex markup) []))).
  { intros markup. unfold extractEmails, slice0. now rewrite spreadSet_dedupFirst. }
  split; [|split; [|split; [|repeat split]]].
  - exists content, (orElse (Regex.matchAll emailRegex content) []).
    split; [exact Hc|]. split; [now apply matchAll_found|].
    split; [|apply E]. intros ms' F. now apply matchAll_found.
  - rewrite E. apply NoDup_firstn, dedupFirst_NoDup.
  - rewrite E. apply firstn_le_length.
  - intros markup. exists (orElse (Regex.matchAll emailRegex markup) []).
    split; [now apply matchAll_found | apply E].
Qed.

Lemma emails_field_witness :
  (exists content ms,
      w_content (Examples.quietWorld "a@b.com, a@b.com, c@d.org") = Returns content
      /\ Found emailPattern content ms
      /\ (forall ms', Found emailPattern content ms' -> ms' = ms)
      /\ ["a@b.com"; "c@d.org"] = firstn 5 (dedupFirst ms))
  /\ NoDup ["a@b.com"; "c@d.org"]
  /\ List.length ["a@b.com"; "c@d.org"] <= 5.
Proof.
  destruct (emails_field UrlRef.hostPresent
              (Examples.quietWorld "a@b.com, a@b.com, c@d.org")
              [("url", Str "http://example.com")]
              (mkData ["a@b.com"; "c@d.org"] 123 false 2)
              (snd (run UrlRef.hostPresent
                        (Examples.quietWorld "a@b.com, a@b.com, c@d.org")
                        [("url", Str "http://example.com")])))
    as [F [N [L _]]].
  - vm_compute. reflexivity.
  - split; [exact F|]. split; [exact N | exact L].
Defined.

(** *** The load time *)




End AuditProperties.

(* ================================================================== *)
(** ** More facts about the normalized URL and about the matches *)

Module TextFacts.
Import Spec StrFacts NormalizeFacts RegexFacts EmailFacts Js Audit Order.

Lemma normalizeUrl_scheme (url : string) : hasScheme (normalizeUrl url) = true.
Proof.
  rewrite normalizeUrl_hasScheme.
  destruct (hasScheme (Str.trim url)) eqn:H; [exact H|].
  unfold hasScheme. apply orb_true_iff. right.
  apply prefix_begins. now exists (upcase (Str.trim url)).
Qed.

Lemma length_upcase (s : string) : String.length (upcase s) = String.length s.
Proof. induction s as [|c s IH]; simpl; [reflexivity | now rewrite IH]. Qed.

Lemma begins_length (s p : string) :
  String.prefix p s = true -> String.length p <= String.length s.
Proof.
  intros H. apply prefix_begins in H. destruct H as [r ->].
  rewrite length_app. lia.
Qed.

Lemma trimStart_blank (s : string) :
  Str.all Str.isWhiteSpace s = true -> Str.trimStart s = "".
Proof.
  induction s as [|c s IH]; simpl; [reflexivity|].
  intros H. apply andb_true_iff in H. destruct H as [-> H]. now apply IH.
Qed.

Lemma append_assoc (a b c : string) : ((a ++ b) ++ c = a ++ (b ++ c))%string.
Proof. induction a as [|x a IH]; simpl; [reflexivity | now rewrite IH]. Qed.

Lemma take_drop (n : nat) (s : string) : (Str.take n s ++ Str.drop n s)%string = s.
Proof.
  revert s. induction n as [|n IH]; intros [|c s]; simpl; try reflexivity.
  now rewrite IH.
Qed.

Lemma contains_cons (c : ascii) (s m : string) :
  Contains s m -> Contains (String c s) m.
Proof. intros [a [b ->]]. now exists (String c a), b. Qed.

Lemma contains_drop (n : nat) (s m : string) :
  Contains (Str.drop n s) m -> Contains s m.
Proof.
  intros [a [b H]]. exists (Str.take n s ++ a)%string, b.
  rewrite append_assoc, <- H. symmetry. apply take_drop.
Qed.

Lemma contains_trans (s m x : string) : Contains s m -> Contains m x -> Contains s x.
Proof.
  intros [a [b ->]] [a' [b' ->]]. exists (a ++ a')%string, (b' ++ b)%string.
  now rewrite !append_assoc.
Qed.

(** Every match of a global search is a piece of the string. *)
Lemma global_substrings (p : Regex.pattern) (s : string) (ms : list string) :
  GlobalMatches p s ms -> Forall (Contains s) ms.
Proof.
  induction 1 as [n H | H | c r ms H _ IH | c r ms H _ IH | c r n ms H _ IH].
  - constructor; [|constructor]. now exists "", "".
  - constructor.
  - eapply Forall_impl; [|exact IH]. intros m. apply contains_cons.
  - constructor.
    + now exists "", (String c r).
    + eapply Forall_impl; [|exact IH]. intros m. apply contains_cons.
  - constructor.
    + exists "", (Str.drop (S n) (String c r)).
      change ("" ++ ?x)%string with x.
      symmetry. apply (take_drop (S n) (String c r)).
    + eapply Forall_impl; [|exact IH]. intros m. apply contains_drop.
Qed.

Lemma countChar_app (c : ascii) (a b : string) :
  countChar c (a ++ b) = countChar c a + countChar c b.
Proof. induction a as [|x a IH]; simpl; [reflexivity | rewrite IH; lia]. Qed.

Lemma countChar_class (f : ascii -> bool) (c : ascii) (s : string) :
  f c = false -> Str.all f s = true -> countChar c s = 0.
Proof.
  intros Hc. induction s as [|x s IH]; simpl; [reflexivity|].
  intros H. apply andb_true_iff in H. destruct H as [Hx Hs].
  destruct (Ascii.eqb_spec x c) as [->|_]; [congruence|]. now rewrite IH.
Qed.

Lemma email_one_at (e : string) : EmailShape e -> countChar "@" e = 1.
Proof.
  intros [l [d [t [-> [Hl [_ [Hd [_ [Ht _]]]]]]]]].
  rewrite !countChar_app.
  rewrite (countChar_class localClass "@" l eq_refl Hl).
  rewrite (countChar_class domainClass "@" d eq_refl Hd).
  rewrite (countChar_class letterClass "@" t eq_refl Ht).
  reflexivity.
Qed.

Lemma in_firstn (n : nat) (l : list string) (x : string) :
  In x (firstn n l) -> In x l.
Proof.
  intros H. rewrite <- (firstn_skipn n l). apply in_or_app. now left.
Qed.

Lemma extracted_is_match (content e : string) :
  In e (extractEmails content) ->
  In e (orElse (Regex.matchAll emailRegex content) []).
Proof.
  unfold extractEmails, slice0. rewrite spreadSet_dedupFirst. intros H.
  apply dedupFirst_In. now apply in_firstn in H.
Qed.

Lemma one_at_contains (e : string) : countChar "@" e = 1 -> Contains e "@".
Proof.
  induction e as [|c e IH]; simpl; [discriminate|].
  destruct (Ascii.eqb_spec c "@") as [->|_].
  - intros _. now exists "", e.
  - intros H. apply contains_cons. now apply IH.
Qed.

(** The shortest token of the shape: one character, [@], one character,
    a dot and two letters. *)
Lemma email_shape_shortest (e : string) : EmailShape e -> 6 <= String.length e.
Proof.
  intros [l [d [t [-> [_ [Hl [_ [Hd [_ Ht]]]]]]]]].
  rewrite !RegexFacts.length_app. simpl. lia.
Qed.

(** An extracted email is a piece of the markup and has the shape of an
    email token. *)
Lemma extracted_shape (content e : string) :
  In e (extractEmails content) -> Contains content e /\ EmailShape e.
Proof.
  intros H. apply extracted_is_match in H.
  pose proof (matchAll_global emailRegex content) as G.
  pose proof (global_emails_shape content _ G) as S.
  pose proof (global_substrings _ _ _ G) as C.
  rewrite Forall_forall in S, C. split; [exact (C e H) | exact (S e H)].
Qed.

End TextFacts.

(* ================================================================== *)
(** ** The trace of a run *)

Module TraceFacts.
Import Spec StrFacts Js Audit HandlerFacts RunFacts Order.

Lemma catchBlock_trace (W : World) (u : string) (e : Js.error) (st : State) :
  catchBlock W u e st =
  (Returns (json 200 (Failure (errorMessageOf e))),
   mkState (page st) (sslError st) (clockReads st)
           (trace st ++ catchTrace W u e st)).
Proof.
  unfold catchBlock, catchTrace, auditFailedLog. unfold_monad.
  cbn -[errorMessageOf closeCalls].
  destruct (page st) as [[]|] eqn:P; cbn -[errorMessageOf closeCalls].
  - replace (closeCalls _) with (closeCalls st) by count_closes.
    destruct (w_close W (closeCalls st)) as [[]|ce]; cbn -[errorMessageOf];
      rewrite <- ?app_assoc; reflexivity.
  - reflexivity.
Qed.

Ltac pick_prefix sd n :=
  exists sd, n; split; [cbn; rewrite <- ?app_assoc; reflexivity | lia].

(** Whatever the [try] block does, its calls are a beginning of the full
    order, and the first of them is [newPage]. *)
Lemma tryBlock_trace (W : World) (u : string) (st st' : State) (r : outcome Reply) :
  tryBlock W u st = (r, st') ->
  exists details n,
    trace st' = (trace st ++ firstn n (fullOrder u details))%list /\ 1 <= n <= 8.
Proof.
  unfold tryBlock. unfold_monad. cbn -[extractEmails sslStatusOf closeCalls].
  destruct (w_newPage W) as [[]|e0].
  2:{ cbn. intros [= <- <-]. pick_prefix false 1. }
  destruct (w_setUserAgent W) as [[]|e1].
  2:{ cbn. intros [= <- <-]. pick_prefix false 2. }
  destruct (w_setRequestInterception W) as [[]|e2].
  2:{ cbn. intros [= <- <-]. pick_prefix false 3. }
  rewrite forEach_listener. cbn -[extractEmails sslStatusOf closeCalls].
  destruct (w_goto W u) as [resp|e3].
  2:{ cbn. intros [= <- <-]. pick_prefix false 4. }
  rewrite sslStatusOf_result. cbn -[extractEmails closeCalls].
  destruct (isSSL u && negb (truthyStr (latch (w_requestfailed W) None)) && isNotNull resp).
  - destruct (w_content W) as [content|e4].
    2:{ cbn. intros [= <- <-]. pick_prefix true 6. }
    destruct (w_h1 W) as [h1|e5].
    2:{ cbn. intros [= <- <-]. pick_prefix true 7. }
    destruct (w_close W _) as [[]|e6]; cbn; intros [= <- <-]; pick_prefix true 8.
  - destruct (w_content W) as [content|e4].
    2:{ cbn. intros [= <- <-]. pick_prefix false 5. }
    destruct (w_h1 W) as [h1|e5].
    2:{ cbn. intros [= <- <-]. pick_prefix false 6. }
    destruct (w_close W _) as [[]|e6]; cbn; intros [= <- <-]; pick_prefix false 7.
Qed.

Section Cases.
Variable URL : string -> bool.
Variable W : World.
Variable reqBody : list (string * value).

(** The three ways a request ends: refused for its [url], refused for
    the form of the URL, or taken through the [try] block and, when that
    throws, the [catch] block. *)
Lemma run_cases :
  (run URL W reqBody = (Returns (json 400 (Failure requiredMessage)), initial)
   /\ (truthy (get reqBody "url") = false \/ typeof (get reqBody "url") <> "string"))
  \/ (exists url,
         get reqBody "url" = Str url /\ url <> "" /\ URL (normalizeUrl url) = false
         /\ run URL W reqBody = (Returns (json 400 (Failure invalidMessage)), initial))
  \/ (exists url,
         get reqBody "url" = Str url /\ url <> "" /\ URL (normalizeUrl url) = true
         /\ ((exists reply st1,
                 tryBlock W (normalizeUrl url) initial = (Returns reply, st1)
                 /\ run URL W reqBody = (Returns reply, st1))
             \/ (exists e st1,
                    tryBlock W (normalizeUrl url) initial = (Throws e, st1)
                    /\ run URL W reqBody =
                       (Returns (json 200 (Failure (errorMessageOf e))),
                        mkState (page st1) (sslError st1) (clockReads st1)
                                (trace st1 ++ catchTrace W (normalizeUrl url) e st1))))).
Proof.
  destruct (get reqBody "url") as [| |b|x|url|l|o] eqn:G.
  1-4,6-7: (left; split; [apply run_not_string; rewrite G; discriminate
                         | right; rewrite ?G; discriminate]).
  destruct (String.eqb_spec url "") as [->|N].
  { left. split; [apply run_falsy; now rewrite G | now left]. }
  right. rewrite (run_string URL W reqBody url G N).
  destruct (URL (normalizeUrl url)) eqn:U.
  - right. exists url. repeat split; try assumption. unfold tryCatch.
    destruct (tryBlock W (normalizeUrl url) initial) as [[reply|e] st1] eqn:T.
    + left. now exists reply, st1.
    + right. exists e, st1. split; [reflexivity|]. apply catchBlock_trace.
  - left. exists url. now repeat split.
Qed.

End Cases.

Lemma browserEvents_app (a b : list Event) :
  browserEvents (a ++ b) = (browserEvents a ++ browserEvents b)%list.
Proof. apply filter_app. Qed.

Lemma browserEvents_order (u : string) (details : bool) (n : nat) :
  browserEvents (firstn n (fullOrder u details)) = firstn n (fullOrder u details).
Proof.
  destruct details; do 9 (destruct n as [|n]; [reflexivity|]); reflexivity.
Qed.

Lemma browserEvents_catch (W : World) (u : string) (e : Js.error) (st : State) :
  browserEvents (catchTrace W u e st) = if isNotNull (page st) then [EvClose] else [].
Proof.
  unfold catchTrace. destruct (page st); cbn; [|reflexivity].
  now destruct (w_close W (closeCalls st)).
Qed.

(** The trace of a run: empty, or a beginning of the full order followed
    by what the [catch] block adds. *)
Lemma run_trace (URL : string -> bool) (W : World) (reqBody : list (string * value))
      (reply : outcome Reply) (st : State) :
  run URL W reqBody = (reply, st) ->
  (st = initial /\ exists msg, reply = Returns (json 400 (Failure msg)))
  \/ exists url details n tail,
       get reqBody "url" = Str url /\ URL (normalizeUrl url) = true
       /\ 1 <= n <= 8
       /\ trace st = (firstn n (fullOrder (normalizeUrl url) details) ++ tail)%list
       /\ ((tail = [] /\ exists r, reply = Returns r /\ n >= 7)
           \/ exists e st1,
                tail = catchTrace W (normalizeUrl url) e st1
                /\ reply = Returns (json 200 (Failure (errorMessageOf e)))).
Proof.
  intros H.
  destruct (run_cases URL W reqBody)
    as [[R _] | [[url [_ [_ [_ R]]]] | [url [G [_ [U [[r [st1 [T R]]] | [e [st1 [T R]]]]]]]]]];
    rewrite R in H; injection H as <- <-.
  - left. split; [reflexivity | now eexists].
  - left. split; [reflexivity | now eexists].
  - right. pose proof T as T'. apply tryBlock_trace in T. destruct T as [d [n [Ht Hn]]].
    apply tryBlock_returns in T'.
    destruct T' as [resp [content [h1 [_ [_ [_ [_ [_ [_ [Ht' _]]]]]]]]]].
    exists url, d, n, []. rewrite app_nil_r. repeat split; try assumption; try lia.
    left. split; [reflexivity|]. exists r. split; [reflexivity|].
    rewrite Ht in Ht'. cbn [initial trace app] in Ht'.
    apply (f_equal (@List.length Event)) in Ht'.
    unfold successTrace in Ht'. rewrite length_firstn, !length_app in Ht'.
    cbn in Ht'. destruct (_ && _ && _) in Ht'; cbn in Ht'; lia.
  - right. apply tryBlock_trace in T. destruct T as [d [n [Ht Hn]]].
    exists url, d, n, (catchTrace W (normalizeUrl url) e st1).
    cbn [trace]. rewrite Ht. repeat split; try assumption; try lia.
    right. now exists e, st1.
Qed.

(** The failures of the browser being [Error]s, the handler always
    replies, with status 200 or 400. *)
Lemma run_status (URL : string -> bool) (W : World) (reqBody : list (string * value)) :
  exists reply st,
    run URL W reqBody = (Returns reply, st)
    /\ (status reply = 200 \/ status reply = 400).
Proof.
  destruct (run_cases URL W reqBody)
    as [[R _] | [[url [_ [_ [_ R]]]] | [url [G [_ [U [[r [st1 [T R]]] | [e [st1 [T R]]]]]]]]]];
    rewrite R; eexists; eexists; (split; [reflexivity|]); cbn [status];
    try (now right); try (now left).
  apply tryBlock_returns in T.
  destruct T as [resp [content [h1 [_ [_ [_ [_ [_ [-> _]]]]]]]]]. now left.
Qed.

End TraceFacts.

(* ================================================================== *)
(** ** Further properties of the audit handler *)

Module HandlerProperties.
Import Spec StrFacts NormalizeFacts RegexFacts EmailFacts NumFacts Js Audit.
Import HandlerFacts RunFacts Order TextFacts TraceFacts.

(** *** Replies *)

(** X1.  A reply of the handler carries the status 200 or 400, never
    another.  The status is 400 exactly when the run made no call at all
    (neither on the browser nor on the console); a 400 reply is a failure
    reply and leaves the state of the run as it was. *)
Theorem reply_status
        (URL : string -> bool) (W : World) (reqBody : list (string * value))
        (reply : Reply) (st : State) :
  run URL W reqBody = (Returns reply, st) ->
  (status reply = 200 \/ status reply = 400)
  /\ (status reply = 400 <-> trace st = [])
  /\ (status reply = 400 -> st = initial /\ exists msg, body reply = Failure msg).
Proof.
  intros H.
  destruct (run_cases URL W reqBody)
    as [[R _] | [[url [_ [_ [_ R]]]] | [url [G [_ [U [[r [st1 [T R]]] | [e [st1 [T R]]]]]]]]]];
    rewrite R in H; injection H as <- <-; cbn [status body trace initial].
  - split; [now right|]. split; [tauto|]. intros _. split; [reflexivity | now eexists].
  - split; [now right|]. split; [tauto|]. intros _. split; [reflexivity | now eexists].
  - pose proof T as T'. apply tryBlock_returns in T.
    destruct T as [resp [content [h1 [_ [_ [_ [_ [_ [-> [Ht _]]]]]]]]]].
    cbn [status]. split; [now left|]. split; [|discriminate].
    split; [discriminate|]. rewrite Ht. unfold successTrace. cbn. discriminate.
  - apply tryBlock_trace in T. destruct T as [d [n [Ht Hn]]].
    split; [now left|]. split; [|discriminate]. split; [discriminate|].
    unfold catchTrace. intros H. apply app_eq_nil in H. destruct H as [_ H]. discriminate.
Qed.

Lemma reply_status_witness :
  (400 = 200 \/ 400 = 400)
  /\ (400 = 400 <-> trace initial = [])
  /\ (400 = 400 ->
      initial = initial /\ exists msg, Failure invalidMessage = Failure msg).
Proof.
  apply (reply_status UrlRef.hostPresent (Examples.quietWorld "")
           [("url", Str "http://")] (json 400 (Failure invalidMessage)) initial).
  reflexivity.
Defined.

(** *** Order of the calls *)

Lemma catchTrace_no_goto (W : World) (u : string) (e : Js.error) (st : State) :
  filter isGoto (catchTrace W u e st) = [].
Proof.
  unfold catchTrace. destruct (page st); cbn; [|reflexivity].
  now destruct (w_close W (closeCalls st)).
Qed.

Lemma order_goto (u u' : string) (details : bool) (n : nat) :
  In (EvGoto u') (firstn n (fullOrder u details)) ->
  u' = u /\ List.length (filter isGoto (firstn n (fullOrder u details))) = 1.
Proof.
  destruct details;
    do 9 (destruct n as [|n];
          [cbn; intros H;
           repeat (destruct H as [H|H]; [try discriminate; injection H as <-; now split|]);
           contradiction|]);
    cbn; intros H;
    repeat (destruct H as [H|H]; [try discriminate; injection H as <-; now split|]);
    contradiction.
Qed.

(** X2.  The operations that the trace of a run records (newPage,
    setUserAgent, setRequestInterception, goto, the read of the security
    details, content, $$eval and close) are made in one fixed order:
    newPage, setUserAgent, setRequestInterception, goto, securityDetails
    (only when the details are read), content, $$eval, close.  A run makes
    a beginning of that sequence, followed by at most one more close (the
    one of the [catch] block) and by no other of these operations.  The
    registration of the listener and the read of the headers, which a run
    also makes, are not among the operations recorded. *)
Theorem calls_in_order
        (URL : string -> bool) (W : World) (reqBody : list (string * value))
        (reply : outcome Reply) (st : State) :
  run URL W reqBody = (reply, st) ->
  exists details n,
    browserEvents (trace st) = firstn n (fullOrder (targetOf reqBody) details)
    \/ browserEvents (trace st)
       = (firstn n (fullOrder (targetOf reqBody) details) ++ [EvClose])%list.
Proof.
  intros H. apply run_trace in H.
  destruct H as [[-> _] | [url [d [n [tail [G [U [Hn [Ht Htail]]]]]]]]].
  - exists false, 0. now left.
  - exists d, n. unfold targetOf. rewrite G, Ht, browserEvents_app, browserEvents_order.
    destruct Htail as [[-> _] | [e [st1 [-> _]]]].
    + left. now rewrite app_nil_r.
    + rewrite browserEvents_catch. destruct (isNotNull (page st1)).
      * now right.
      * left. now rewrite app_nil_r.
Qed.


Lemma calls_in_order_witness :
  exists details n,
    browserEvents
      (trace (snd (run UrlRef.hostPresent Examples.closeFailsWorld
                       [("url", Str "example.com")])))
    = firstn n (fullOrder "https://example.com" details)
    \/ browserEvents
         (trace (snd (run UrlRef.hostPresent Examples.closeFailsWorld
                          [("url", Str "example.com")])))
       = (firstn n (fullOrder "https://example.com" details) ++ [EvClose])%list.
Proof.
  apply (calls_in_order UrlRef.hostPresent Examples.closeFailsWorld
           [("url", Str "example.com")]
           (fst (run UrlRef.hostPresent Examples.closeFailsWorld
                     [("url", Str "example.com")]))).
  vm_compute. reflexivity.
Defined.

(** X3.  A run navigates at most once, and only to the normalized form of
    the [url] of the request: a URL that the URL constructor accepted and
    that carries an http or https scheme. *)
Theorem navigation_target
        (URL : string -> bool) (W : World) (reqBody : list (string * value))
        (reply : outcome Reply) (st : State) (target : string) :
  run URL W reqBody = (reply, st) ->
  In (EvGoto target) (trace st) ->
  (exists url, get reqBody "url" = Str url /\ target = normalizeUrl url)
  /\ URL target = true
  /\ hasScheme target = true
  /\ List.length (filter isGoto (trace st)) = 1.
Proof.
  intros H Hin. apply run_trace in H.
  destruct H as [[-> _] | [url [d [n [tail [G [U [Hn [Ht Htail]]]]]]]]];
    [contradiction|].
  rewrite Ht in Hin |- *. rewrite filter_app, List.length_app.
  assert (Hno : filter isGoto tail = []).
  { destruct Htail as [[-> _] | [e [st1 [-> _]]]]; [reflexivity|].
    apply catchTrace_no_goto. }
  rewrite Hno. cbn [List.length]. rewrite Nat.add_0_r.
  apply in_app_or in Hin. destruct Hin as [Hin|Hin].
  - apply order_goto in Hin. destruct Hin as [-> Hc].
    repeat split; try assumption; [now exists url | apply normalizeUrl_scheme].
  - assert (In (EvGoto target) (filter isGoto tail)) by (apply filter_In; now split).
    rewrite Hno in H. contradiction.
Qed.


Lemma navigation_target_witness :
  (exists url, get [("url", Str " example.com ")] "url" = Str url
               /\ "https://example.com" = normalizeUrl url)
  /\ UrlRef.hostPresent "https://example.com" = true
  /\ hasScheme "https://example.com" = true
  /\ List.length
       (filter isGoto
          (trace (snd (run UrlRef.hostPresent (Examples.quietWorld "<h1>Hello</h1>")
                           [("url", Str " example.com ")])))) = 1.
Proof.
  apply (navigation_target UrlRef.hostPresent (Examples.quietWorld "<h1>Hello</h1>")
           [("url", Str " example.com ")]
           (fst (run UrlRef.hostPresent (Examples.quietWorld "<h1>Hello</h1>")
                     [("url", Str " example.com ")]))).
  - vm_compute. reflexivity.
  - vm_compute. do 3 right. left. reflexivity.
Defined.

(** *** Failures *)

(** X4.  When the page cannot be acquired ([browser.newPage()] throws, as
    it does while the browser is not launched), the handler logs the
    error and replies 200 with the classified message; it calls nothing
    else on the browser and closes nothing. *)
Theorem acquisition_failure
        (URL : string -> bool) (W : World) (reqBody : list (string * value))
        (url : string) (e : Js.error) :
  get reqBody "url" = Str url -> url <> "" -> URL (normalizeUrl url) = true ->
  w_newPage W = Throws e ->
  run URL W reqBody
  = (Returns (json 200 (Failure (errorMessageOf e))),
     mkState None None 0 [EvNewPage; auditFailedLog (normalizeUrl url) e]).
Proof.
  intros G N U Hnew. rewrite (run_string URL W reqBody url G N), U.
  unfold tryCatch, tryBlock, catchBlock. unfold_monad.
  cbn -[errorMessageOf]. rewrite Hnew. reflexivity.
Qed.


Lemma acquisition_failure_witness :
  run UrlRef.hostPresent Examples2.notLaunchedWorld [("url", Str "example.com")]
  = (Returns (json 200 (Failure "Unknown error during audit")),
     mkState None None 0
       [EvNewPage; auditFailedLog "https://example.com" Examples2.notLaunched]).
Proof.
  apply (acquisition_failure UrlRef.hostPresent Examples2.notLaunchedWorld
           [("url", Str "example.com")] "example.com" Examples2.notLaunched).
  - reflexivity.
  - discriminate.
  - reflexivity.
  - reflexivity.
Defined.

(** X5.  When the navigation throws, the handler reads neither the
    security details, nor the markup, nor the headings: it logs the
    error, closes the page once and replies 200 with the classified
    message.  If that close throws as well, its error is logged after it
    and the reply is the same. *)
Theorem navigation_failure
        (URL : string -> bool) (W : World) (reqBody : list (string * value))
        (url : string) (e : Js.error) :
  get reqBody "url" = Str url -> url <> "" -> URL (normalizeUrl url) = true ->
  w_newPage W = Returns tt -> w_setUserAgent W = Returns tt ->
  w_setRequestInterception W = Returns tt ->
  w_goto W (normalizeUrl url) = Throws e ->
  exists st,
    run URL W reqBody = (Returns (json 200 (Failure (errorMessageOf e))), st)
    /\ trace st
       = ([EvNewPage; EvSetUserAgent userAgent; EvSetRequestInterception true;
           EvGoto (normalizeUrl url); auditFailedLog (normalizeUrl url) e; EvClose]
          ++ match w_close W 0 with
             | Returns _ => []
             | Throws closeError =>
                 [EvConsoleError ["Failed to close page:"; message closeError]]
             end)%list.
Proof.
  intros G N U H1 H2 H3 H4. rewrite (run_string URL W reqBody url G N), U.
  unfold tryCatch, tryBlock, catchBlock. unfold_monad.
  cbn -[errorMessageOf sslStatusOf extractEmails]. rewrite H1, H2, H3.
  rewrite forEach_listener. cbn -[errorMessageOf sslStatusOf extractEmails].
  rewrite H4. cbn -[errorMessageOf].
  destruct (w_close W 0) as [[]|ce]; eexists; split; reflexivity.
Qed.


Lemma navigation_failure_witness :
  exists st,
    run UrlRef.hostPresent Examples.unresolvedWorld [("url", Str "nx.example")]
    = (Returns (json 200 (Failure "Domain does not exist")), st)
    /\ trace st
       = [EvNewPage; EvSetUserAgent userAgent; EvSetRequestInterception true;
          EvGoto "https://nx.example";
          auditFailedLog "https://nx.example" Examples.unresolved; EvClose].
Proof.
  apply (navigation_failure UrlRef.hostPresent Examples.unresolvedWorld
           [("url", Str "nx.example")] "nx.example" Examples.unresolved).
  - reflexivity.
  - discriminate.
  - reflexivity.
  - reflexivity.
  - reflexivity.
  - reflexivity.
  - reflexivity.
Defined.

(** X6.  Behind every failure reply with status 200 there is an error
    that the handler logged: the console received "Audit failed for", the
    normalized URL and the message of the error from which the reply was
    classified. *)
Theorem failure_is_logged
        (URL : string -> bool) (W : World) (reqBody : list (string * value))
        (msg : string) (st : State) :
  run URL W reqBody = (Returns (json 200 (Failure msg)), st) ->
  exists url e,
    get reqBody "url" = Str url
    /\ msg = errorMessageOf e
    /\ In (auditFailedLog (normalizeUrl url) e) (trace st).
Proof.
  intros H.
  destruct (run_cases URL W reqBody)
    as [[R _] | [[url [_ [_ [_ R]]]] | [url [G [_ [U [[r [st1 [T R]]] | [e [st1 [T R]]]]]]]]]];
    rewrite R in H; try discriminate.
  - apply tryBlock_returns in T.
    destruct T as [resp [content [h1 [_ [_ [_ [_ [_ [-> _]]]]]]]]]. discriminate.
  - injection H as <- <-. exists url, e. repeat split; try assumption.
    cbn [trace]. apply in_or_app. right. now left.
Qed.


Lemma failure_is_logged_witness :
  exists url e,
    get [("url", Str "nx.example")] "url" = Str url
    /\ "Domain does not exist" = errorMessageOf e
    /\ In (auditFailedLog (normalizeUrl url) e)
          (trace (snd (run UrlRef.hostPresent Examples.unresolvedWorld
                           [("url", Str "nx.example")]))).
Proof.
  apply (failure_is_logged UrlRef.hostPresent Examples.unresolvedWorld
           [("url", Str "nx.example")]).
  vm_compute. reflexivity.
Defined.

(** X7.  A success reply is sent only after everything went well: the
    count of headings is the one the page gave, the page was closed, once,
    by a close that returned, the close is the last event of the run, and
    nothing was logged. *)
Theorem success_is_clean
        (URL : string -> bool) (W : World) (reqBody : list (string * value))
        (data : AuditData) (st : State) :
  run URL W reqBody = (Returns (json 200 (Success data)), st) ->
  w_h1 W = Returns (h1_count data)
  /\ w_close W 0 = Returns tt
  /\ closeCalls st = 1
  /\ filter isConsole (trace st) = []
  /\ exists before, trace st = (before ++ [EvClose])%list.
Proof.
  intros H. apply run_success in H. destruct H as [url [_ [_ [_ T]]]].
  apply tryBlock_returns in T.
  destruct T as [resp [content [h1 [_ [_ [_ [Hh [Hc [Hr [Ht _]]]]]]]]]].
  injection Hr as ->. cbn [h1_count]. cbn [initial trace] in Ht.
  change (closeCalls initial) with 0 in Hc.
  unfold closeCalls. rewrite Ht. unfold successTrace.
  destruct (isSSL _ && _ && _); cbn; repeat split; try assumption.
  - now exists [EvNewPage; EvSetUserAgent userAgent; EvSetRequestInterception true;
                EvGoto (normalizeUrl url); EvSecurityDetails; EvContent; EvEvalH1].
  - now exists [EvNewPage; EvSetUserAgent userAgent; EvSetRequestInterception true;
                EvGoto (normalizeUrl url); EvContent; EvEvalH1].
Qed.

Lemma success_is_clean_witness :
  w_h1 (Examples.quietWorld "<h1>Hello</h1>") = Returns 2
  /\ w_close (Examples.quietWorld "<h1>Hello</h1>") 0 = Returns tt
  /\ closeCalls (snd (run UrlRef.hostPresent (Examples.quietWorld "<h1>Hello</h1>")
                          [("url", Str "example.com")])) = 1
  /\ filter isConsole
       (trace (snd (run UrlRef.hostPresent (Examples.quietWorld "<h1>Hello</h1>")
                        [("url", Str "example.com")]))) = []
  /\ exists before,
       trace (snd (run UrlRef.hostPresent (Examples.quietWorld "<h1>Hello</h1>")
                       [("url", Str "example.com")]))
       = (before ++ [EvClose])%list.
Proof.
  apply (success_is_clean UrlRef.hostPresent (Examples.quietWorld "<h1>Hello</h1>")
           [("url", Str "example.com")] (mkData [] 123 true 2)).
  vm_compute. reflexivity.
Defined.

(** X8.  A run never closes a page it did not acquire, closes an acquired
    page at least once and never more than twice; it closes twice only
    when the first close threw, and the reply is then the failure
    classified from that error. *)
Theorem page_close_calls
        (URL : string -> bool) (W : World) (reqBody : list (string * value))
        (reply : outcome Reply) (st : State) :
  run URL W reqBody = (reply, st) ->
  (page st = None -> closeCalls st = 0)
  /\ (page st = Some tt -> 1 <= closeCalls st <= 2)
  /\ (closeCalls st = 2 ->
      exists e, w_close W 0 = Throws e
                /\ reply = Returns (json 200 (Failure (errorMessageOf e)))).
Proof.
  intros H. apply AuditProperties.close_count in H.
  destruct H as [[P K] | [[P K] | [P [K E]]]]; rewrite P, K;
    repeat split; try discriminate; try lia; try (intros; assumption).
Qed.

Lemma page_close_calls_witness :
  (page (snd (run UrlRef.hostPresent Examples.closeFailsWorld
                  [("url", Str "example.com")])) = None ->
   2 = 0)
  /\ (page (snd (run UrlRef.hostPresent Examples.closeFailsWorld
                     [("url", Str "example.com")])) = Some tt ->
      1 <= 2 <= 2)
  /\ (2 = 2 ->
      exists e, w_close Examples.closeFailsWorld 0 = Throws e
                /\ fst (run UrlRef.hostPresent Examples.closeFailsWorld
                            [("url", Str "example.com")])
                   = Returns (json 200 (Failure (errorMessageOf e)))).
Proof.
  apply (page_close_calls UrlRef.hostPresent Examples.closeFailsWorld
           [("url", Str "example.com")]).
  vm_compute. reflexivity.
Defined.

(** *** The failed sub-requests *)

(** With other failed sub-requests, of which some mention SSL exactly when
    some did before, the [try] block ends the same way, in a state that
    differs at most in the text of the signal. *)
Lemma tryBlock_failures (W : World) (errorTexts : list string) (u : string) (st : State) :
  existsb isSslText errorTexts = existsb isSslText (w_requestfailed W) ->
  fst (tryBlock (withFailures W errorTexts) u st) = fst (tryBlock W u st)
  /\ page (snd (tryBlock (withFailures W errorTexts) u st)) = page (snd (tryBlock W u st))
  /\ clockReads (snd (tryBlock (withFailures W errorTexts) u st))
     = clockReads (snd (tryBlock W u st))
  /\ trace (snd (tryBlock (withFailures W errorTexts) u st)) = trace (snd (tryBlock W u st)).
Proof.
  intros E. unfold tryBlock. unfold_monad. unfold withFailures.
  cbn -[extractEmails sslStatusOf closeCalls].
  destruct (w_newPage W) as [[]|e0]; [|now cbn].
  destruct (w_setUserAgent W) as [[]|e1]; [|now cbn].
  destruct (w_setRequestInterception W) as [[]|e2]; [|now cbn].
  rewrite !forEach_listener. cbn -[extractEmails sslStatusOf closeCalls].
  destruct (w_goto W u) as [resp|e3]; [|now cbn].
  rewrite !sslStatusOf_result. cbn -[extractEmails closeCalls].
  rewrite !latch_truthy, E.
  destruct (w_content W) as [content|e4]; [|now cbn].
  destruct (w_h1 W) as [h1|e5]; [|now cbn].
  unfold closeCalls. cbn [trace].
  destruct (w_close W _) as [[]|e6]; now cbn.
Qed.

(** X9.  The texts of the failed sub-requests do not reach the caller:
    the reply, and the calls of the run, depend on them only through the
    fact that one of them mentions SSL or none does. *)
Theorem reply_ignores_failure_texts
        (URL : string -> bool) (W : World) (reqBody : list (string * value))
        (errorTexts : list string) :
  existsb isSslText errorTexts = existsb isSslText (w_requestfailed W) ->
  fst (run URL (withFailures W errorTexts) reqBody) = fst (run URL W reqBody)
  /\ trace (snd (run URL (withFailures W errorTexts) reqBody))
     = trace (snd (run URL W reqBody)).
Proof.
  intros E.
  destruct (get reqBody "url") as [| |b|x|url|l|o] eqn:G.
  1-4,6-7: (rewrite !run_not_string by (rewrite G; discriminate); now split).
  destruct (String.eqb_spec url "") as [->|N].
  { rewrite !run_falsy by now rewrite G. now split. }
  rewrite !(run_string URL _ reqBody url G N).
  destruct (URL (normalizeUrl url)); [|now split].
  unfold tryCatch.
  destruct (tryBlock_failures W errorTexts (normalizeUrl url) initial E)
    as [Hr [Hp [Hc Ht]]].
  destruct (tryBlock (withFailures W errorTexts) (normalizeUrl url) initial)
    as [r' s'] eqn:T'.
  destruct (tryBlock W (normalizeUrl url) initial) as [r s] eqn:T.
  cbn [fst snd] in *. subst r'.
  destruct r as [reply|e]; [now split|].
  rewrite !catchBlock_trace. cbn [fst snd trace].
  split; [reflexivity|].
  unfold catchTrace, closeCalls. rewrite Hp, Ht. reflexivity.
Qed.

Lemma reply_ignores_failure_texts_witness :
  fst (run UrlRef.hostPresent
           (withFailures Examples2.oneSslFailureWorld Examples.twoSslFailures)
           [("url", Str "example.com")])
  = fst (run UrlRef.hostPresent Examples2.oneSslFailureWorld
             [("url", Str "example.com")])
  /\ trace (snd (run UrlRef.hostPresent
                     (withFailures Examples2.oneSslFailureWorld
                                   Examples.twoSslFailures)
                     [("url", Str "example.com")]))
     = trace (snd (run UrlRef.hostPresent Examples2.oneSslFailureWorld
                       [("url", Str "example.com")])).
Proof.
  apply (reply_ignores_failure_texts UrlRef.hostPresent Examples2.oneSslFailureWorld
           [("url", Str "example.com")] Examples.twoSslFailures).
  reflexivity.
Defined.

(** *** Normalization *)

(** X10.  Whatever the input, the normalized URL begins with [http://] or
    [https://] in some letter case, has no white space at either end, is
    at least seven characters long, and is the input without the white
    space at its two ends, as it is or behind ["https://"]: the text it
    is given is never rewritten, neither in the case of its letters nor
    in the white space inside it. *)
Theorem normalized_shape (url : string) :
  Meaning.Schemed (normalizeUrl url)
  /\ (forall c, firstChar (normalizeUrl url) = Some c -> ~ Meaning.IsWhite c)
  /\ (forall c, lastChar (normalizeUrl url) = Some c -> ~ Meaning.IsWhite c)
  /\ 7 <= String.length (normalizeUrl url)
  /\ (exists t, Meaning.TrimOf url t
                /\ (normalizeUrl url = t
                    \/ normalizeUrl url = ("https://" ++ t)%string))
  /\ normalizeUrl (String "009" " Example.COM/a b " ++ String "010" "")
     = "https://Example.COM/a b".
Proof.
  pose proof (normalizeUrl_scheme url) as Hs.
  destruct (trim_trimmed url) as [_ [F L]].
  assert (Hlen : 7 <= String.length (normalizeUrl url)).
  { unfold hasScheme in Hs. apply orb_true_iff in Hs.
    destruct Hs as [Hs|Hs]; apply begins_length in Hs;
      rewrite length_upcase in Hs; simpl in Hs; lia. }
  assert (Ends : notSpace (firstChar (normalizeUrl url))
                 /\ notSpace (lastChar (normalizeUrl url))
                 /\ (normalizeUrl url = Str.trim url
                     \/ normalizeUrl url = ("https://" ++ Str.trim url)%string)).
  { rewrite normalizeUrl_hasScheme in *.
    destruct (hasScheme (Str.trim url)).
    - repeat split; try assumption. now left.
    - repeat split; try assumption.
      + rewrite lastChar_app. destruct (lastChar (Str.trim url)); [exact L | reflexivity].
      + now right. }
  destruct Ends as [F' [L' D]].
  split; [now apply MeaningFacts.hasScheme_schemed|].
  split; [now apply MeaningFacts.notSpace_white|].
  split; [now apply MeaningFacts.notSpace_white|].
  split; [exact Hlen|]. split; [|reflexivity].
  exists (Str.trim url). split; [apply MeaningFacts.trim_of | exact D].
Qed.

Lemma normalized_shape_witness :
  Meaning.Schemed "https://x.com"
  /\ (forall c, firstChar "https://x.com" = Some c -> ~ Meaning.IsWhite c)
  /\ (forall c, lastChar "https://x.com" = Some c -> ~ Meaning.IsWhite c)
  /\ 7 <= String.length "https://x.com".
Proof.
  destruct (normalized_shape " x.com ") as [S [F [L [N _]]]].
  split; [exact S|]. split; [exact F|]. split; [exact L | exact N].
Defined.


(** X11.  A [url] that is not empty but consists of white space only
    passes the presence test and normalizes to ["https://"]; when the URL
    constructor rejects that, as it does for a URL without host, the
    reply is 400 "Invalid URL format" and the browser is not touched. *)
Theorem blank_url_invalid
        (URL : string -> bool) (W : World) (reqBody : list (string * value))
        (url : string) :
  get reqBody "url" = Str url -> url <> "" ->
  Str.all Str.isWhiteSpace url = true ->
  normalizeUrl url = "https://"
  /\ (URL "https://" = false ->
      run URL W reqBody = (Returns (json 400 (Failure "Invalid URL format")), initial)).
Proof.
  intros G N B.
  assert (Hn : normalizeUrl url = "https://").
  { unfold normalizeUrl, Str.trim. now rewrite (trimStart_blank url B). }
  split; [exact Hn|]. intros U.
  now rewrite (run_string URL W reqBody url G N), Hn, U.
Qed.


Lemma blank_url_invalid_witness :
  normalizeUrl "   " = "https://"
  /\ (UrlRef.hostPresent "https://" = false ->
      run UrlRef.hostPresent (Examples.quietWorld "<h1>Hello</h1>") [("url", Str "   ")]
      = (Returns (json 400 (Failure "Invalid URL format")), initial)).
Proof.
  apply (blank_url_invalid UrlRef.hostPresent (Examples.quietWorld "<h1>Hello</h1>")
           [("url", Str "   ")] "   ").
  - reflexivity.
  - discriminate.
  - reflexivity.
Defined.

(** *** Emails *)

(** X12.  Every email the extraction reports is a piece of the markup as
    it stands there, holds exactly one [@] and is at least six
    characters long. *)
Theorem extracted_email (content e : string) :
  In e (extractEmails content) ->
  Contains content e /\ countChar "@" e = 1 /\ 6 <= String.length e.
Proof.
  intros H. apply extracted_shape in H. destruct H as [C S].
  split; [exact C|]. split; [now apply email_one_at | now apply email_shape_shortest].
Qed.


Lemma extracted_email_witness :
  Contains "<a href='mailto:info@example.com'>write</a>" "info@example.com"
  /\ countChar "@" "info@example.com" = 1
  /\ 6 <= String.length "info@example.com".
Proof.
  apply (extracted_email "<a href='mailto:info@example.com'>write</a>"
           "info@example.com").
  vm_compute. left. reflexivity.
Defined.

(** X13.  A markup without any [@] gives no email: the extraction returns
    the empty list (the pattern finds nothing, and the missing result is
    replaced by an empty array). *)
Theorem no_at_no_emails (content : string) :
  Str.includes content "@" = false -> extractEmails content = [].
Proof.
  intros H. destruct (extractEmails content) as [|e rest] eqn:E; [reflexivity|].
  assert (Hin : In e (extractEmails content)) by (rewrite E; now left).
  apply extracted_shape in Hin. destruct Hin as [C S].
  apply includes_false in H. contradiction H.
  apply (contains_trans content e "@" C). now apply one_at_contains, email_one_at.
Qed.


Lemma no_at_no_emails_witness : extractEmails "<h1>No contact here</h1>" = [].
Proof.
  apply (no_at_no_emails "<h1>No contact here</h1>"). reflexivity.
Defined.

(** *** The load time *)

(** X14.  For a load time of [t] milliseconds that is not exactly half way
    between two hundredths of a second ([t mod 10 <> 5]), [load_time] is
    the ordinary rounding of [t / 10] to the nearest integer, in
    hundredths of a second; a whole number of hundredths is reported as
    it is. *)
Theorem load_time_rounds (loadTime : Z) :
  (0 <= loadTime < 2 ^ 53)%Z -> (loadTime mod 10 <> 5)%Z ->
  Num.loadTimeOf loadTime = ((loadTime + 5) / 10)%Z.
Proof.
  intros B T.
  destruct (loadTimeOf_bounds loadTime ltac:(lia)) as [E _].
  pose proof (Z.div_mod loadTime 10 ltac:(lia)).
  pose proof (Z.mod_pos_bound loadTime 10 ltac:(lia)).
  pose proof (Z.div_mod (loadTime + 5) 10 ltac:(lia)).
  pose proof (Z.mod_pos_bound (loadTime + 5) 10 ltac:(lia)).
  lia.
Qed.


Lemma load_time_rounds_witness : Num.loadTimeOf 1234 = ((1234 + 5) / 10)%Z.
Proof.
  apply (load_time_rounds 1234).
  - vm_compute. split; [discriminate | reflexivity].
  - vm_compute. discriminate.
Defined.

(** X15.  [load_time] never decreases when the measured time grows: of
    two navigations, the longer one is not reported as the shorter. *)
Theorem load_time_monotone (shorter longer : Z) :
  (- 2 ^ 53 < shorter)%Z -> (shorter <= longer)%Z -> (longer < 2 ^ 53)%Z ->
  (Num.loadTimeOf shorter <= Num.loadTimeOf longer)%Z.
Proof.
  intros B1 B2 B3.
  destruct (Z.eq_dec shorter longer) as [->|N]; [lia|].
  destruct (loadTimeOf_bounds shorter ltac:(lia)) as [E1 _].
  destruct (loadTimeOf_bounds longer ltac:(lia)) as [E2 _].
  lia.
Qed.

Lemma load_time_monotone_witness : (Num.loadTimeOf 15 <= Num.loadTimeOf 16)%Z.
Proof.
  apply (load_time_monotone 15 16).
  - vm_compute. reflexivity.
  - vm_compute. discriminate.
  - vm_compute. reflexivity.
Defined.

End HandlerProperties.

(* ================================================================== *)
(** ** Properties of the application *)

Module AppProperties.
Import Spec Js Audit HandlerFacts RunFacts Order TraceFacts App.

Section Served.
Variable pathIs : string -> string -> bool.
Variable pathUnder : string -> string -> bool.
Variables helmet cors limiter : Request -> Verdict.
Variable onRejection : Js.error -> Step.
Variable URL : string -> bool.
Variable W : World.

Ltac through H :=
  destruct H as [Hh [Hc Hl]];
  unfold App.serve, app; cbn [dispatch applies external];
  unfold external; rewrite Hh, Hc;
  destruct (pathUnder "/audit" (path _)) eqn:Hmount;
  [rewrite (Hl eq_refl)|]; cbn [app].

Lemma dispatch_external (mw : Request -> Verdict) (rest : list Layer)
      (req : Request) :
  dispatch pathIs pathUnder (UseAll (external mw) :: rest) req None
  = match mw req with
    | Answers r => (Answered r, [])
    | Passes => dispatch pathIs pathUnder rest req None
    | Fails e => dispatch pathIs pathUnder rest req (Some e)
    end.
Proof.
  cbn [dispatch applies]. unfold external. destruct (mw req); [reflexivity| |].
  - now destruct (dispatch pathIs pathUnder rest req None).
  - now destruct (dispatch pathIs pathUnder rest req (Some e)).
Qed.

Lemma dispatch_mounted (mount : string) (mw : Request -> Verdict)
      (rest : list Layer) (req : Request) :
  dispatch pathIs pathUnder (Use mount (external mw) :: rest) req None
  = if pathUnder mount (path req) then
      match mw req with
      | Answers r => (Answered r, [])
      | Passes => dispatch pathIs pathUnder rest req None
      | Fails e => dispatch pathIs pathUnder rest req (Some e)
      end
    else dispatch pathIs pathUnder rest req None.
Proof.
  cbn [dispatch applies]. unfold external.
  destruct (pathUnder mount (path req)); [|reflexivity].
  destruct (mw req); [reflexivity| |].
  - now destruct (dispatch pathIs pathUnder rest req None).
  - now destruct (dispatch pathIs pathUnder rest req (Some e)).
Qed.

(** The routes of the source answer every request that reaches them, when
    the audit handler replies on its body. *)
Lemma routes_answer (req : Request) :
  pathUnder "*" (path req) = true ->
  (forall reqBody,
      parsedBody req = Returns reqBody ->
      exists reply st, run URL W reqBody = (Returns reply, st)) ->
  exists r events,
    dispatch pathIs pathUnder
      [Route GET "/health" health;
       Route POST "/audit" (auditRoute onRejection URL W);
       Route ALL "/audit" methodNotAllowed;
       Use "*" notFound; OnError errorHandler] req None
    = (Answered r, events).
Proof.
  intros Hstar Hreply. cbn [dispatch applies verbMatches]. rewrite Hstar.
  destruct ((String.eqb (method req) "GET" || String.eqb (method req) "HEAD")
            && pathIs "/health" (path req)); [now eexists; eexists|].
  destruct (String.eqb (method req) "POST") eqn:Hm;
    destruct (pathIs "/audit" (path req)) eqn:Ha; cbn.
  - unfold auditRoute. destruct (parsedBody req) as [reqBody|e].
    + destruct (Hreply reqBody eq_refl) as [reply [st ->]]. now eexists; eexists.
    + cbn. now eexists; eexists.
  - now eexists; eexists.
  - unfold methodNotAllowed. rewrite Hm. now eexists; eexists.
  - now eexists; eexists.
Qed.

(** X16.  A request on the /audit route whose method is not POST, once
    the middleware has let it through, is answered 405 "Method not
    allowed. Use POST.", and the audit handler does not run: no call is
    made on the browser. *)
Theorem method_not_allowed (req : Request) :
  letThrough pathUnder helmet cors limiter req ->
  pathIs "/audit" (path req) = true -> pathIs "/health" (path req) = false ->
  method req <> "POST" ->
  App.serve pathIs pathUnder helmet cors limiter onRejection URL W req
  = (Answered (send 405 (AuditBody (Failure "Method not allowed. Use POST."))), []).
Proof.
  intros P Ha Hhl Hm. apply String.eqb_neq in Hm.
  through P; cbn [verbMatches]; rewrite Ha, Hhl, Hm, ?andb_false_r; cbn;
    unfold methodNotAllowed; rewrite Hm; reflexivity.
Qed.

(** X17.  A POST on the /audit route whose body [express.json()] parsed
    is answered by the audit handler and by no later layer: the response
    carries the status and the body of the handler's reply, the status is
    200 or 400, and what happened on the way is what the handler did. *)
Theorem post_audit (req : Request) (reqBody : list (string * value)) :
  letThrough pathUnder helmet cors limiter req ->
  method req = "POST" -> pathIs "/audit" (path req) = true ->
  parsedBody req = Returns reqBody ->
  exists reply st,
    run URL W reqBody = (Returns reply, st)
    /\ App.serve pathIs pathUnder helmet cors limiter onRejection URL W req
       = (Answered (send (status reply) (AuditBody (body reply))),
          map FromAudit (trace st))
    /\ (status reply = 200 \/ status reply = 400).
Proof.
  intros P Hm Ha Hb.
  destruct (run_status URL W reqBody) as [reply [st [R S]]].
  exists reply, st. split; [exact R|]. split; [|exact S].
  through P; cbn [verbMatches]; rewrite Hm, Ha; cbn;
    unfold auditRoute; rewrite Hb, R; reflexivity.
Qed.

(** X18.  A POST on the /audit route whose body [express.json()] could
    not parse never reaches the audit handler: the error goes to the error
    handler, which logs it and answers 500 "Internal server error". *)
Theorem malformed_body (req : Request) (e : Js.error) :
  letThrough pathUnder helmet cors limiter req ->
  method req = "POST" -> pathIs "/audit" (path req) = true ->
  parsedBody req = Throws e ->
  App.serve pathIs pathUnder helmet cors limiter onRejection URL W req
  = (Answered (send 500 (AuditBody (Failure "Internal server error"))),
     [UnhandledError e]).
Proof.
  intros P Hm Ha Hb.
  through P; cbn [verbMatches]; rewrite Hm, Ha; cbn;
    unfold auditRoute; rewrite Hb; reflexivity.
Qed.

(** X19.  A request is answered whenever the audit handler replies on its
    body, whatever the middleware does (answer, pass on or fail) and
    whatever the method, the path and the body are: the only request that
    can stay without a response is one whose audit handler ends in an
    error instead of a reply.  In particular the branch of the [app.all]
    handler that does nothing (a POST) never ends the dispatch, since a
    POST on that route is taken by the route before it. *)
Theorem never_left_open (req : Request) :
  pathUnder "*" (path req) = true ->
  (forall reqBody,
      parsedBody req = Returns reqBody ->
      exists reply st, run URL W reqBody = (Returns reply, st)) ->
  exists r events,
    App.serve pathIs pathUnder helmet cors limiter onRejection URL W req
    = (Answered r, events).
Proof.
  intros Hstar Hreply. unfold App.serve, app.
  rewrite dispatch_external.
  destruct (helmet req) as [r| |e]; [now eexists; eexists | |].
  2:{ eexists; eexists; reflexivity. }
  rewrite dispatch_external.
  destruct (cors req) as [r| |e]; [now eexists; eexists | |].
  2:{ eexists; eexists; reflexivity. }
  rewrite dispatch_mounted.
  destruct (routes_answer req Hstar Hreply) as [r [events ->]].
  destruct (pathUnder "/audit" (path req)); [|now eexists; eexists].
  destruct (limiter req); [now eexists; eexists ..|].
  eexists; eexists; reflexivity.
Qed.

(** X20.  A request that the middleware lets through and whose path is
    neither that of the health route nor that of the audit route is
    answered 404 with [{error: "Endpoint not found"}]. *)
Theorem not_found (req : Request) :
  letThrough pathUnder helmet cors limiter req ->
  pathUnder "*" (path req) = true ->
  pathIs "/health" (path req) = false -> pathIs "/audit" (path req) = false ->
  App.serve pathIs pathUnder helmet cors limiter onRejection URL W req
  = (Answered (send 404 (ErrorOnly "Endpoint not found")), []).
Proof.
  intros P Hstar Hhl Ha.
  through P; rewrite Ha, Hhl, Hstar, ?andb_false_r; reflexivity.
Qed.

(** X21.  A GET or a HEAD on the health route is answered 200 with
    [{status: "healthy", service: "puppeteer-audit-api"}], whatever the
    state of the browser: no call is made on it. *)
Theorem health_check (req : Request) :
  letThrough pathUnder helmet cors limiter req ->
  method req = "GET" \/ method req = "HEAD" ->
  pathIs "/health" (path req) = true ->
  App.serve pathIs pathUnder helmet cors limiter onRejection URL W req
  = (Answered (send 200 (Health "healthy" "puppeteer-audit-api")), []).
Proof.
  intros P Hm Hhl.
  through P; cbn [verbMatches]; rewrite Hhl; destruct Hm as [-> | ->]; reflexivity.
Qed.

(** X22.  The browser is driven, and the audit handler logs, only for a
    POST on the /audit route with a body that parsed: no other request
    causes any event of the audit handler. *)
Theorem browser_only_for_post_audit (req : Request) (o : Outcome)
        (events : list AppEvent) (e : Event) :
  App.serve pathIs pathUnder helmet cors limiter onRejection URL W req = (o, events) ->
  In (FromAudit e) events ->
  method req = "POST" /\ pathIs "/audit" (path req) = true
  /\ exists reqBody, parsedBody req = Returns reqBody.
Proof.
  unfold App.serve, app. rewrite dispatch_external.
  destruct (helmet req) as [r| |e1]; [intros [= <- <-] [] | |].
  2:{ cbn. intros [= <- <-] [H|[]]. discriminate. }
  rewrite dispatch_external.
  destruct (cors req) as [r| |e2]; [intros [= <- <-] [] | |].
  2:{ cbn. intros [= <- <-] [H|[]]. discriminate. }
  rewrite dispatch_mounted.
  assert (Rest : forall o' events',
             dispatch pathIs pathUnder
               [Route GET "/health" health;
                Route POST "/audit" (auditRoute onRejection URL W);
                Route ALL "/audit" methodNotAllowed;
                Use "*" notFound; OnError errorHandler] req None = (o', events') ->
             In (FromAudit e) events' ->
             method req = "POST" /\ pathIs "/audit" (path req) = true
             /\ exists reqBody, parsedBody req = Returns reqBody).
  { cbn [dispatch applies verbMatches].
    destruct ((String.eqb (method req) "GET" || String.eqb (method req) "HEAD")
              && pathIs "/health" (path req)); [intros o' ev' [= <- <-] []|].
    destruct (String.eqb_spec (method req) "POST") as [Hm|Hm];
      destruct (pathIs "/audit" (path req)) eqn:Ha; cbn.
    - unfold auditRoute. destruct (parsedBody req) as [reqBody|err].
      + intros o' ev' _ _. repeat split; try assumption. now exists reqBody.
      + cbn. intros o' ev' [= <- <-] [H|[]]. discriminate.
    - destruct (pathUnder "*" (path req)); cbn; intros o' ev' [= <- <-] [].
    - unfold methodNotAllowed. apply String.eqb_neq in Hm. rewrite Hm. cbn.
      intros o' ev' [= <- <-] [].
    - destruct (pathUnder "*" (path req)); cbn; intros o' ev' [= <- <-] []. }
  destruct (pathUnder "/audit" (path req)); [|apply Rest].
  destruct (limiter req) as [r| |e3]; [intros [= <- <-] [] | apply Rest |].
  cbn. intros [= <- <-] [H|[]]. discriminate.
Qed.

End Served.

Lemma method_not_allowed_witness :
  AppRef.serve (Examples.quietWorld "<h1>Hello</h1>") Examples2.getAudit
  = (Answered (send 405 (AuditBody (Failure "Method not allowed. Use POST."))), []).
Proof.
  apply (method_not_allowed AppRef.pathIs AppRef.pathUnder AppRef.pass AppRef.pass
           AppRef.pass AppRef.leftOpen UrlRef.hostPresent (Examples.quietWorld "<h1>Hello</h1>")
           Examples2.getAudit).
  - repeat split.
  - reflexivity.
  - reflexivity.
  - discriminate.
Defined.

Lemma post_audit_witness :
  exists reply st,
    run UrlRef.hostPresent (Examples.quietWorld "<h1>Hello</h1>") [("url", Str "example.com")]
    = (Returns reply, st)
    /\ AppRef.serve (Examples.quietWorld "<h1>Hello</h1>") Examples2.postAudit
       = (Answered (send (status reply) (AuditBody (body reply))),
          map FromAudit (trace st))
    /\ (status reply = 200 \/ status reply = 400).
Proof.
  apply (post_audit AppRef.pathIs AppRef.pathUnder AppRef.pass AppRef.pass
           AppRef.pass AppRef.leftOpen UrlRef.hostPresent (Examples.quietWorld "<h1>Hello</h1>")
           Examples2.postAudit [("url", Str "example.com")]).
  - repeat split.
  - reflexivity.
  - reflexivity.
  - reflexivity.
Defined.

Lemma malformed_body_witness :
  AppRef.serve (Examples.quietWorld "<h1>Hello</h1>") Examples2.postMalformed
  = (Answered (send 500 (AuditBody (Failure "Internal server error"))),
     [UnhandledError Examples2.syntaxError]).
Proof.
  apply (malformed_body AppRef.pathIs AppRef.pathUnder AppRef.pass AppRef.pass
           AppRef.pass AppRef.leftOpen UrlRef.hostPresent (Examples.quietWorld "<h1>Hello</h1>")
           Examples2.postMalformed Examples2.syntaxError).
  - repeat split.
  - reflexivity.
  - reflexivity.
  - reflexivity.
Defined.

Lemma never_left_open_witness :
  exists r events,
    AppRef.serve Examples.closeFailsWorld Examples2.postAudit = (Answered r, events).
Proof.
  apply (never_left_open AppRef.pathIs AppRef.pathUnder AppRef.pass AppRef.pass
           AppRef.pass AppRef.leftOpen UrlRef.hostPresent Examples.closeFailsWorld
           Examples2.postAudit).
  - reflexivity.
  - intros reqBody [= <-]. eexists; eexists. vm_compute. reflexivity.
Defined.

Lemma not_found_witness :
  AppRef.serve (Examples.quietWorld "<h1>Hello</h1>") Examples2.getElsewhere
  = (Answered (send 404 (ErrorOnly "Endpoint not found")), []).
Proof.
  apply (not_found AppRef.pathIs AppRef.pathUnder AppRef.pass AppRef.pass
           AppRef.pass AppRef.leftOpen UrlRef.hostPresent (Examples.quietWorld "<h1>Hello</h1>")
           Examples2.getElsewhere).
  - repeat split.
  - reflexivity.
  - reflexivity.
  - reflexivity.
Defined.

Lemma health_check_witness :
  AppRef.serve Examples2.notLaunchedWorld Examples2.headHealth
  = (Answered (send 200 (Health "healthy" "puppeteer-audit-api")), []).
Proof.
  apply (health_check AppRef.pathIs AppRef.pathUnder AppRef.pass AppRef.pass
           AppRef.pass AppRef.leftOpen UrlRef.hostPresent Examples2.notLaunchedWorld
           Examples2.headHealth).
  - repeat split.
  - now right.
  - reflexivity.
Defined.

Lemma browser_only_for_post_audit_witness :
  method Examples2.postAudit = "POST"
  /\ AppRef.pathIs "/audit" (path Examples2.postAudit) = true
  /\ exists reqBody, parsedBody Examples2.postAudit = Returns reqBody.
Proof.
  apply (browser_only_for_post_audit AppRef.pathIs AppRef.pathUnder AppRef.pass
           AppRef.pass AppRef.pass AppRef.leftOpen UrlRef.hostPresent
           (Examples.quietWorld "<h1>Hello</h1>") Examples2.postAudit
           (fst (AppRef.serve (Examples.quietWorld "<h1>Hello</h1>") Examples2.postAudit))
           (snd (AppRef.serve (Examples.quietWorld "<h1>Hello</h1>") Examples2.postAudit))
           EvNewPage).
  - vm_compute. reflexivity.
  - vm_compute. left. reflexivity.
Defined.

End AppProperties.
